(** * ASR with speaker diarization: the alignment layer

    A shallow embedding of [scripts/speaker_recognition/ASR_with_SpeakerDiarization.py]:
    the CTC greedy decoder of class [WER], the silence scan
    [_get_silence_timestamps], the word timer ([_get_spaces] and the body of
    [get_speech_labels_list]), the voice-activity labels of
    [get_speech_label_and_write_VAD_rttm], the speaker attribution loop of
    [write_json_and_transcript] and the scorer driver [eval_diarization];
    and of [nemo/collections/nlp/data/text_normalization/test_dataset.py]:
    the construction of [TextNormalizationTestDataset] and its sentence
    accuracy.

    Conventions.
    - Python [int] is [Z]; positions produced by [enumerate] or [range] that
      index a list are [nat].
    - A Python [float] that holds a time in seconds is an IEEE binary64
      number, [float] of [PrimFloat], with the rounding of every operation;
      [round] and the ["{:.3f}"] format act on its exact binary value.
    - The probabilities of a frame, of which only the order is used, and the
      accuracy ratio are exact rationals [Q].
    - A two-element Python list [[a, b]] holding an interval is a pair.
    - An exception is a value of [exn]; a function that can raise returns
      [result]. *)

From Stdlib Require Import PrimFloat.
From Stdlib Require Import String Ascii List ZArith QArith Bool Arith Lia.
From Stdlib Require Import Sorted.
From Stdlib Require FloatOps SpecFloat.
Import ListNotations.

Open Scope Z_scope.

Set Warnings "-inexact-float".

(** ** Exceptions *)

Inductive exn : Set :=
| IndexError
| AssertionError
| TypeError
| KeyError
| NameError
| ValueError
| ZeroDivisionError.

Inductive result (A : Type) : Type :=
| Ok (a : A)
| Raise (e : exn).

Arguments Ok {A} a.
Arguments Raise {A} e.

Definition bind {A B : Type} (m : result A) (k : A -> result B) : result B :=
  match m with
  | Ok a => k a
  | Raise e => Raise e
  end.

Notation "x <- m ;; k" := (bind m (fun x => k))
  (at level 61, m at next level, right associativity).
Notation "' p <- m ;; k" := (bind m (fun p => k))
  (at level 61, p pattern, m at next level, right associativity).

Definition is_ok {A : Type} (m : result A) : bool :=
  match m with Ok _ => true | Raise _ => false end.

(** [l[i]] for a non-negative position [i]. *)
Definition py_get {A : Type} (l : list A) (i : nat) : result A :=
  match nth_error l i with
  | Some x => Ok x
  | None => Raise IndexError
  end.

(** [l[-1]]. *)
Definition py_last {A : Type} (l : list A) : result A :=
  match rev l with
  | x :: _ => Ok x
  | [] => Raise IndexError
  end.

(** [assert c]. *)
Definition py_assert (c : bool) : result unit :=
  if c then Ok tt else Raise AssertionError.

(** [enumerate(l)], counting from [start]. *)
Definition enumerate_from {A : Type} (start : nat) (l : list A) : list (nat * A) :=
  combine (seq start (length l)) l.

Definition enumerate {A : Type} (l : list A) : list (nat * A) :=
  enumerate_from 0 l.

(** ** Frame decoder: class [WER] *)

Module WER.

Record t : Type := {
  blank_id : Z;
  labels_map : Z -> option string
}.

(** [__init__]: the blank is the id after the last vocabulary entry and
    [labels_map] is [{i: vocabulary[i]}]. *)
Definition init (vocabulary : list string) : t :=
  {| blank_id := Z.of_nat (length vocabulary);
     labels_map := fun c =>
       if c <? 0 then None else nth_error vocabulary (Z.to_nat c) |}.

(** The test of line 99. *)
Definition emits (blank previous p : Z) : bool :=
  (negb (p =? previous) || (previous =? blank)) && negb (p =? blank).

(** Loop state: [decoded_prediction], [decoded_timing_list], [previous]. *)
Definition loop_state : Type := (list Z * list Z * Z)%type.

Definition ctc_step (blank : Z) (st : loop_state) (frame : nat * Z) : loop_state :=
  let '(decoded_prediction, decoded_timing_list, previous) := st in
  let '(pdx, p) := frame in
  if emits blank previous p
  then (decoded_prediction ++ [p], decoded_timing_list ++ [Z.of_nat pdx], p)
  else (decoded_prediction, decoded_timing_list, p).

Definition ctc_from (blank : Z) (start : nat) (prediction : list Z)
    (st : loop_state) : loop_state :=
  fold_left (ctc_step blank) (enumerate_from start prediction) st.

(** Lines 95-102: the CTC decoding procedure on one prediction. *)
Definition ctc_collapse (blank : Z) (prediction : list Z) : loop_state :=
  ctc_from blank 0 prediction ([], [], blank).

Definition lookup_label (self : t) (c : Z) : result string :=
  match labels_map self c with
  | Some s => Ok s
  | None => Raise KeyError
  end.

(** [decode_ids_to_tokens]. *)
Fixpoint decode_ids_to_tokens (self : t) (tokens : list Z) : result (list string) :=
  match tokens with
  | [] => Ok []
  | c :: rest =>
      if negb (c =? blank_id self)
      then s <- lookup_label self c ;;
           r <- decode_ids_to_tokens self rest ;;
           Ok (s :: r)
      else decode_ids_to_tokens self rest
  end.

(** [decode_tokens_to_str]: [''.join(...)]. *)
Definition decode_tokens_to_str (self : t) (tokens : list Z) : result string :=
  l <- decode_ids_to_tokens self tokens ;; Ok (String.concat "" l).

(** [decode_ids_to_tokens_with_ts]. *)
Fixpoint ids_with_ts_loop (self : t) (timestamps : list Z) (frames : list (nat * Z))
    (token_list : list string) (timestamp_list : list Z)
    : result (list string * list Z) :=
  match frames with
  | [] => Ok (token_list, timestamp_list)
  | (i, c) :: rest =>
      if negb (c =? blank_id self)
      then s <- lookup_label self c ;;
           ts <- py_get timestamps i ;;
           ids_with_ts_loop self timestamps rest (token_list ++ [s]) (timestamp_list ++ [ts])
      else ids_with_ts_loop self timestamps rest token_list timestamp_list
  end.

Definition decode_ids_to_tokens_with_ts (self : t) (tokens timestamps : list Z)
    : result (list string * list Z) :=
  ids_with_ts_loop self timestamps (enumerate tokens) [] [].

(** [decode_tokens_to_str_with_ts]. *)
Definition decode_tokens_to_str_with_ts (self : t) (tokens timestamps : list Z)
    : result (string * list Z) :=
  '(_, timestamp_list) <- decode_ids_to_tokens_with_ts self tokens timestamps ;;
  l <- decode_ids_to_tokens self tokens ;;
  Ok (String.concat "" l, timestamp_list).

(** One iteration of the batch loop of [ctc_decoder_predictions_tensor]
    with [return_hypotheses=False]: the prediction is cut to its length,
    collapsed and turned into text.  With [return_timestamps=False] line 107
    calls the one-argument [decode_tokens_to_str] with two arguments. *)
Definition decode_one (self : t) (prediction : list Z) (len : option nat)
    (return_timestamps : bool) : result (string * option (list Z)) :=
  let prediction := match len with Some n => firstn n prediction | None => prediction end in
  let '(decoded_prediction, decoded_timing_list, _) :=
    ctc_collapse (blank_id self) prediction in
  if return_timestamps
  then '(text, timestamp_list) <-
         decode_tokens_to_str_with_ts self decoded_prediction decoded_timing_list ;;
       Ok (text, Some timestamp_list)
  else Raise TypeError.

Fixpoint batch_loop (self : t) (predictions : list (nat * list Z))
    (predictions_len : option (list nat)) (return_timestamps : bool)
    : result (list string * list (option (list Z))) :=
  match predictions with
  | [] => Ok ([], [])
  | (ind, prediction) :: rest =>
      len <- match predictions_len with
             | None => Ok None
             | Some lens => n <- py_get lens ind ;; Ok (Some n)
             end ;;
      '(hypothesis, timestamp_list) <- decode_one self prediction len return_timestamps ;;
      '(hypotheses, timestamps) <- batch_loop self rest predictions_len return_timestamps ;;
      Ok (hypothesis :: hypotheses, timestamp_list :: timestamps)
  end.

(** [ctc_decoder_predictions_tensor]. *)
Definition ctc_decoder_predictions_tensor (self : t) (predictions : list (list Z))
    (predictions_len : option (list nat)) (return_timestamps : bool)
    : result (list string * list (option (list Z))) :=
  batch_loop self (enumerate predictions) predictions_len return_timestamps.

(** The label that [previous] holds when frame [i] is reached. *)
Definition previous_at (blank : Z) (prediction : list Z) (i : nat) : Z :=
  match i with
  | O => blank
  | S j => nth j prediction blank
  end.

(** The frames at which the test of line 99 succeeds. *)
Definition emitted_frames (blank : Z) (prediction : list Z) : list nat :=
  filter (fun i => emits blank (previous_at blank prediction i) (nth i prediction blank))
         (seq 0 (length prediction)).

(** An expansion of a hypothesis: every token comes as a run of
    [lead_blanks] blanks followed by [1 + extra_repeats] copies of the
    token, and blanks may follow the last run. *)
Record run : Type := {
  lead_blanks : nat;
  token : Z;
  extra_repeats : nat
}.

Definition expand_run (blank : Z) (r : run) : list Z :=
  repeat blank (lead_blanks r) ++ repeat (token r) (S (extra_repeats r)).

Definition expand (blank : Z) (runs : list run) (trailing_blanks : nat) : list Z :=
  concat (map (expand_run blank) runs) ++ repeat blank trailing_blanks.

(** Two neighbouring runs of the same token are kept apart by a blank. *)
Fixpoint separated (before : Z) (runs : list run) : bool :=
  match runs with
  | [] => true
  | r :: rest =>
      (negb (token r =? before) || (0 <? lead_blanks r)%nat)
      && separated (token r) rest
  end.

Definition no_blank_token (blank : Z) (runs : list run) : bool :=
  forallb (fun r => negb (token r =? blank)) runs.

(** The frame at which each run starts to repeat its token. *)
Fixpoint run_starts (start : nat) (runs : list run) : list Z :=
  match runs with
  | [] => []
  | r :: rest =>
      Z.of_nat (start + lead_blanks r)
      :: run_starts (start + lead_blanks r + S (extra_repeats r)) rest
  end.

End WER.

(** ** Pipeline parameters: the [params] dictionary *)

Record params : Type := {
  time_stride : float;
  offset : float;
  round_float : Z;
  print_transcript : bool;
  threshold : Z
}.

(** The values set under [__main__]. *)
Definition script_params : params :=
  {| time_stride := 0.02%float;
     offset := (-0.18)%float;
     round_float := 3;
     print_transcript := false;
     threshold := 20 |}.

Definition Qlt_bool (a b : Q) : bool := negb (Qle_bool b a).

(** ** Python floats *)

(** The binary64 number nearest to [num/den], ties to the even mantissa:
    what reading a decimal and converting an [int] give. *)
Definition float_of_ratio (num : Z) (den : positive) : float :=
  let quotient (s : bool) (n : positive) :=
    FloatOps.SF2Prim
      (SpecFloat.SFdiv FloatOps.prec FloatOps.emax
         (SpecFloat.S754_finite s n 0) (SpecFloat.S754_finite false den 0)) in
  match num with
  | Z0 => 0%float
  | Zpos n => quotient false n
  | Zneg n => quotient true n
  end.

(** [float(z)] for an [int], as the mixed operations [z + x] and [z * x]
    convert it.  The integers converted are frame numbers, positions in the
    frame sequence of an utterance, far inside the range of binary64. *)
Definition float_of_int (z : Z) : float := float_of_ratio z 1.

(** The integer nearest to [num/den] for [0 <= num] and [0 < den], ties to
    the even one. *)
Definition round_half_even (num den : Z) : Z :=
  let q := num / den in
  let r := num mod den in
  if 2 * r <? den then q
  else if den <? 2 * r then q + 1
  else if Z.even q then q else q + 1.

(** The decimal with [ndigits] digits after the point that is nearest to the
    exact value of a finite float: its sign and its magnitude in units of
    [10^-ndigits].  An infinity and a NaN have none. *)
Definition decimal_of_float (x : float) (ndigits : Z) : option (bool * Z) :=
  match FloatOps.Prim2SF x with
  | SpecFloat.S754_zero s => Some (s, 0)
  | SpecFloat.S754_finite s m e =>
      Some (s, round_half_even (Zpos m * 2 ^ Z.max e 0 * 10 ^ Z.max ndigits 0)
                               (2 ^ Z.max (- e) 0 * 10 ^ Z.max (- ndigits) 0))
  | _ => None
  end.

(** The number that ["{:.3f}".format(x)] prints, [None] when it prints
    [inf] or [nan]. *)
Definition format_3f (x : float) : option Q :=
  match decimal_of_float x 3 with
  | Some (s, k) => Some (Qmake (if s then - k else k) 1000)
  | None => None
  end.

(** ** Silence segmenter: [_get_silence_timestamps] *)

(** [np.argmax] on one row: the position of the first largest entry; an
    empty row has no maximum. *)
Fixpoint argmax_scan (row : list Q) (i best : Z) (best_value : Q) : Z :=
  match row with
  | [] => best
  | x :: rest =>
      if Qlt_bool best_value x
      then argmax_scan rest (i + 1) i x
      else argmax_scan rest (i + 1) best best_value
  end.

Definition np_argmax (row : list Q) : result Z :=
  match row with
  | [] => Raise ValueError
  | x :: rest => Ok (argmax_scan rest 1 0 x)
  end.

(** Locals of the scan: [spaces], [idx_state], [state]. *)
Definition scan_locals : Type := (list (Z * Z) * Z * string)%type.

(** The body of the [for idx in range(1, probs.shape[0])] loop. *)
Definition silence_body (symbol_idx : Z) (state_symbol : string)
    (st : scan_locals) (idx : Z) (current_char_idx : Z) : scan_locals :=
  let '(spaces, idx_state, state) := st in
  let '(spaces, state) :=
    if String.eqb state state_symbol
       && negb (current_char_idx =? 0) && negb (current_char_idx =? symbol_idx)
    then (spaces ++ [(idx_state, idx - 1)], EmptyString)
    else (spaces, state) in
  if String.eqb state EmptyString
  then if current_char_idx =? symbol_idx
       then (spaces, idx, state_symbol)
       else (spaces, idx_state, state)
  else (spaces, idx_state, state).

Fixpoint silence_loop (symbol_idx : Z) (state_symbol : string)
    (rows : list (list Q)) (idx : Z) (st : scan_locals) : result scan_locals :=
  match rows with
  | [] => Ok st
  | row :: rest =>
      current_char_idx <- np_argmax row ;;
      silence_loop symbol_idx state_symbol rest (idx + 1)
        (silence_body symbol_idx state_symbol st idx current_char_idx)
  end.

Definition _get_silence_timestamps (probs : list (list Q)) (symbol_idx : Z)
    (state_symbol : string) : result (list (Z * Z)) :=
  match probs with
  | [] => Raise IndexError
  | row0 :: rest =>
      first <- np_argmax row0 ;;
      let state := if first =? symbol_idx then state_symbol else EmptyString in
      '(spaces, idx_state, state) <-
        silence_loop symbol_idx state_symbol rest 1 ([], 0, state) ;;
      if String.eqb state state_symbol
      then Ok (spaces ++ [(idx_state, Z.of_nat (length probs) - 1)])
      else Ok spaces
  end.

(** The two-state machine as the design document words it, over the
    arg-max class of each frame. *)
Inductive silence_state : Set :=
| NOT_IN_SILENCE
| IN_SILENCE (entry : Z).

Definition machine_step (silence_index : Z) (st : silence_state) (frame : Z)
    (class : Z) : silence_state * list (Z * Z) :=
  match st with
  | NOT_IN_SILENCE =>
      if class =? silence_index then (IN_SILENCE frame, []) else (NOT_IN_SILENCE, [])
  | IN_SILENCE entry =>
      if negb (class =? 0) && negb (class =? silence_index)
      then (NOT_IN_SILENCE, [(entry, frame - 1)])
      else (IN_SILENCE entry, [])
  end.

Fixpoint machine_run (silence_index : Z) (st : silence_state) (frame : Z)
    (classes : list Z) : list (Z * Z) :=
  match classes with
  | [] =>
      match st with
      | IN_SILENCE entry => [(entry, frame - 1)]
      | NOT_IN_SILENCE => []
      end
  | class :: rest =>
      let '(st', closed) := machine_step silence_index st frame class in
      closed ++ machine_run silence_index st' (frame + 1) rest
  end.

Definition silence_machine (silence_index : Z) (classes : list Z) : list (Z * Z) :=
  machine_run silence_index NOT_IN_SILENCE 0 classes.

Fixpoint argmax_rows (rows : list (list Q)) : result (list Z) :=
  match rows with
  | [] => Ok []
  | row :: rest =>
      c <- np_argmax row ;;
      cs <- argmax_rows rest ;;
      Ok (c :: cs)
  end.

(** A row of [width] probabilities with all the mass on [class]. *)
Definition one_hot (width class : nat) : list Q :=
  map (fun i => if (i =? class)%nat then 1%Q else 0%Q) (seq 0 width).

(** The scan's locals stand for a state of the machine. *)
Definition stands_for (state_symbol : string) (idx_state : Z) (state : string)
    (st : silence_state) : Prop :=
  match st with
  | NOT_IN_SILENCE => state = EmptyString
  | IN_SILENCE entry => state = state_symbol /\ idx_state = entry
  end.

(** ** Word timer: [_get_spaces] and [get_speech_labels_list] *)

Definition space : ascii := " "%char.

(** The [for k, s in enumerate(trans)] loop; locals [spaces], [word_list],
    [stt_idx]. *)
Fixpoint spaces_loop (trans : string) (timestamps : list Z) (chars : list (nat * ascii))
    (spaces : list (Z * Z)) (word_list : list string) (stt_idx : nat)
    : result (list (Z * Z) * list string * nat) :=
  match chars with
  | [] => Ok (spaces, word_list, stt_idx)
  | (k, s) :: rest =>
      if Ascii.eqb s space
      then a <- py_get timestamps k ;;
           b <- py_get timestamps (k + 1) ;;
           spaces_loop trans timestamps rest
             (spaces ++ [(a, b - 1)])
             (word_list ++ [substring stt_idx (k - stt_idx) trans])
             (k + 1)%nat
      else spaces_loop trans timestamps rest spaces word_list stt_idx
  end.

Definition _get_spaces (trans : string) (timestamps : list Z)
    : result (list (Z * Z) * list string) :=
  _ <- py_assert ((0 <? String.length trans)%nat && (0 <? length timestamps)%nat) ;;
  _ <- py_assert (String.length trans =? length timestamps)%nat ;;
  '(spaces, word_list, stt_idx) <-
    spaces_loop trans timestamps (enumerate (list_ascii_of_string trans)) [] [] 0%nat ;;
  if (stt_idx <? String.length trans)%nat
     && negb (match String.get stt_idx trans with
              | Some c => Ascii.eqb c space
              | None => false
              end)
  then Ok (spaces, word_list
                   ++ [substring stt_idx (String.length trans - stt_idx) trans])
  else Ok (spaces, word_list).

(** Lines 482-483: the timing window of every word.  In
    [word_timetamps_middle] the positions [k] and [k+1] stay below
    [len(_spaces)]. *)
Definition word_timetamps_middle (_spaces : list (Z * Z)) : list (Z * Z) :=
  map (fun k => (snd (nth k _spaces (0, 0)), fst (nth (k + 1) _spaces (0, 0))))
      (seq 0 (length _spaces - 1)).

Definition word_timetamps (timestamps : list Z) (_spaces : list (Z * Z))
    (n_frames : Z) : result (list (Z * Z)) :=
  let middle := word_timetamps_middle _spaces in
  t0 <- py_get timestamps 0 ;;
  s0 <- py_get _spaces 0 ;;
  sl <- py_last _spaces ;;
  Ok ([(t0, fst s0)] ++ middle ++ [(snd sl, n_frames)]).

(** [get_speech_label_and_write_VAD_rttm]: the returned [speech_labels].  A
    label ["{:.3f} {:.3f} speech"] is the pair of the two numbers it prints;
    the file written is left out.  [to_seconds p frame] is what a label
    prints for [(frame + frame_offset) * params['time_stride']]. *)
Definition frame_offset (p : params) : float := (offset p / time_stride p)%float.

Definition to_seconds (p : params) (frame : Z) : option Q :=
  format_3f ((float_of_int frame + frame_offset p) * time_stride p)%float.

Definition speech_between (p : params) (non_speech : list (Z * Z))
    : list (option Q * option Q) :=
  map (fun idx =>
         (to_seconds p (snd (nth idx non_speech (0, 0))),
          to_seconds p (fst (nth (idx + 1) non_speech (0, 0)))))
      (seq 0 (length non_speech - 1)).

Definition get_speech_label_and_write_VAD_rttm (n_probs : nat)
    (non_speech : list (Z * Z)) (p : params) : result (list (option Q * option Q)) :=
  if (time_stride p =? 0)%float then Raise ZeroDivisionError else
  let speech_labels := speech_between p non_speech in
  last <- py_last non_speech ;;
  if snd last <? Z.of_nat n_probs
  then Ok (speech_labels ++ [(to_seconds p (snd last), to_seconds p (Z.of_nat n_probs))])
  else Ok speech_labels.

(** Line 474: the blank runs wider than the threshold. *)
Definition non_speech_of (p : params) (blanks : list (Z * Z)) : list (Z * Z) :=
  filter (fun x => threshold p <? snd x - fst x) blanks.

(** One utterance of the result of [get_speech_labels_list]. *)
Record timed_words : Type := {
  trans_words : list string;
  spaces_of : list (Z * Z);
  word_ts : list (Z * Z);
  speech_labels_of : list (option Q * option Q)
}.

(** [softmax(logit)] for a two-dimensional [logit]: [np.max] of an array
    without any entry raises [ValueError]; otherwise the result has the shape
    of [logit].  The rows given stand for the normalised values, of which the
    scan uses the order only. *)
Definition softmax (logits : list (list Q)) : result (list (list Q)) :=
  match concat logits with
  | [] => Raise ValueError
  | _ :: _ => Ok logits
  end.

(** The body of the loop of [get_speech_labels_list] for one entry
    [(trans, logit, timestamps)] whose recording [audio_file_list] names.
    [probs] keeps the shape of [logit]: [logit.shape[0]] is [len(probs)]. *)
Definition get_speech_labels_one (trans : string) (logit : list (list Q))
    (timestamps : list Z) (p : params) : result timed_words :=
  probs <- softmax logit ;;
  '(_spaces, _trans_words) <- _get_spaces trans timestamps ;;
  blanks <- _get_silence_timestamps probs 28 "blank" ;;
  let non_speech := non_speech_of p blanks in
  speech_labels <- get_speech_label_and_write_VAD_rttm (length probs) non_speech p ;;
  wts <- word_timetamps timestamps _spaces (Z.of_nat (length probs)) ;;
  _ <- py_assert (length _trans_words =? length wts)%nat ;;
  Ok {| trans_words := _trans_words; spaces_of := _spaces; word_ts := wts;
        speech_labels_of := speech_labels |}.

(** Positions of the spaces of a text, counted from [k]. *)
Fixpoint space_positions (chars : list ascii) (k : nat) : list nat :=
  match chars with
  | [] => []
  | s :: rest =>
      if Ascii.eqb s space
      then k :: space_positions rest (S k)
      else space_positions rest (S k)
  end.

(** Number of pieces when a text is cut at every space. *)
Definition space_delimited_tokens (trans : string) : nat :=
  S (length (space_positions (list_ascii_of_string trans) 0)).

Definition last_char (trans : string) : option ascii :=
  match rev (list_ascii_of_string trans) with
  | c :: _ => Some c
  | [] => None
  end.

Definition ends_with_space (trans : string) : bool :=
  match last_char trans with
  | Some c => Ascii.eqb c space
  | None => false
  end.

(** The boundary that a space at position [k] produces. *)
Definition boundary (timestamps : list Z) (k : nat) : Z * Z :=
  (nth k timestamps 0, nth (S k) timestamps 0 - 1).

Definition boundaries (trans : string) (timestamps : list Z) : list (Z * Z) :=
  map (boundary timestamps) (space_positions (list_ascii_of_string trans) 0).

(** What holds of [stt_idx] once the characters before position [k] are
    read: it follows a space or is 0, and no space lies from it up to [k]. *)
Definition word_open (all : list ascii) (stt_idx k : nat) : Prop :=
  (stt_idx <= k)%nat
  /\ (forall i, (stt_idx <= i < k)%nat -> nth_error all i <> Some space)
  /\ (stt_idx = 0%nat \/ nth_error all (stt_idx - 1) = Some space).

(** Sample data: the 28 labels of an English character model (the space is
    label 0 and the blank is class 28), and frames that put all the mass on
    one class each. *)
Definition sample_vocabulary : list string :=
  map (fun c => String c EmptyString)
      (list_ascii_of_string " abcdefghijklmnopqrstuvwxyz'").

Definition frames_of (classes : list nat) : list (list Q) :=
  map (one_hot 29) classes.

(** 25 blank frames, then [a], blank, space, blank, [b]. *)
Definition two_word_classes : list nat :=
  repeat 28%nat 25 ++ [1; 28; 0; 28; 2]%nat.

(** 25 blank frames, then [h], blank, [i], blank, blank. *)
Definition one_word_classes : list nat :=
  repeat 28%nat 25 ++ [8; 28; 9; 28; 28]%nat.

(** [a], space, [b], then 25 blank frames and [c]: the text [a bc] starts
    with speech.  And an utterance with a single blank frame. *)
Definition leading_speech_classes : list nat :=
  [1; 0; 2]%nat ++ repeat 28%nat 25 ++ [3%nat].

Definition short_blank_classes : list nat := [1; 28; 2]%nat.

(** A frame lies in a non-speech interval, ends included. *)
Definition in_non_speech (non_speech : list (Z * Z)) (frame : Z) : bool :=
  existsb (fun x => (fst x <=? frame) && (frame <=? snd x)) non_speech.

(** The time of a frame, printed as the labels are, lies in a speech label,
    ends included. *)
Definition in_speech (p : params) (speech_labels : list (option Q * option Q))
    (frame : Z) : bool :=
  existsb (fun x =>
             match fst x, to_seconds p frame, snd x with
             | Some start, Some t, Some stop => Qle_bool start t && Qle_bool t stop
             | _, _, _ => false
             end)
          speech_labels.

(** ** Speaker attributor: [write_json_and_transcript] *)

(** A diarization label ["start end speaker"], already split and with its
    two times read by [float]. *)
Record turn : Type := {
  start_point : float;
  end_point : float;
  speaker : string
}.

(** What [print_time] and [print_word] append to [string_out]: a header
    ["[start - end] speaker:"] or a word.  The rendering of the clock times
    and the [strip] of the word are left out. *)
Inductive piece : Type :=
| Header (spk : string) (start_time end_time : float)
| Spoken (word : string).

Record json_word : Type := {
  word : string;
  start_time : float;
  end_time : float;
  speaker_label : string
}.

Definition print_time (string_out : list piece) (spk : string)
    (start_pt end_pt : float) : list piece :=
  string_out ++ [Header spk start_pt end_pt].

Definition print_word (string_out : list piece) (w : string) : list piece :=
  string_out ++ [Spoken w].

(** The float that the decimal [k * 10^-ndigits] reads as, with the sign
    [s]. *)
Definition float_of_decimal (s : bool) (k ndigits : Z) : float :=
  let magnitude :=
    float_of_ratio (k * 10 ^ Z.max (- ndigits) 0) (Z.to_pos (10 ^ Z.max ndigits 0)) in
  if s then (- magnitude)%float else magnitude.

(** [round(x, ndigits)] on a float: the exact binary value of [x] is rounded
    to the nearest decimal with [ndigits] digits after the point, ties to the
    even one, and that decimal is read back as a float.  An infinity and a
    NaN round to themselves, [ndigits] above 323 leaves [x] and [ndigits]
    below -308 gives a zero of the sign of [x].  With [0 <= ndigits] the
    result is within the range of binary64; a negative [ndigits] can round a
    float next to the largest one beyond that range, where Python raises
    [OverflowError] and this gives an infinity. *)
Definition py_round (x : float) (ndigits : Z) : float :=
  match decimal_of_float x ndigits with
  | None => x
  | Some (s, k) =>
      if 323 <? ndigits then x
      else if ndigits <? -308 then (0 * x)%float
      else float_of_decimal s k ndigits
  end.

Definition add_json_to_dict (words : list json_word) (w : string)
    (word_ts_stt_end : Z * Z) (spk : string) (p : params) : list json_word :=
  let stt := py_round (offset p + float_of_int (fst word_ts_stt_end) * time_stride p)%float
                      (round_float p) in
  let en := py_round (offset p + float_of_int (snd word_ts_stt_end) * time_stride p)%float
                     (round_float p) in
  words ++ [{| word := w; start_time := stt; end_time := en; speaker_label := spk |}].

(** [get_num_of_spk_from_labels]. *)
Definition get_num_of_spk_from_labels (labels : list turn) : nat :=
  length (nodup string_dec (map speaker labels)).

(** Locals of the word loop. *)
Record attribution : Type := {
  string_out : list piece;
  riva_words : list json_word;
  pos_prev : float;
  idx : nat;
  current : turn
}.

(** [np.mean] of a pair of frame numbers: their sum as floats, halved. *)
Definition mean2 (x : Z * Z) : float :=
  ((float_of_int (fst x) + float_of_int (snd x)) / 2)%float.

(** The body of [for j, word_ts_stt_end in enumerate(word_ts_list[k])]. *)
Definition attribute_word (p : params) (labels : list turn) (words : list string)
    (spaces : list (Z * Z)) (st : attribution) (j : nat) (word_ts_stt_end : Z * Z)
    : result attribution :=
  space_stt_end <-
    (if (j =? length spaces)%nat
     then Ok (snd word_ts_stt_end, snd word_ts_stt_end)
     else py_get spaces j) ;;
  let pos_end := (offset p + mean2 space_stt_end * time_stride p)%float in
  if (pos_prev st <? end_point (current st))%float
  then
    w <- py_get words j ;;
    Ok {| string_out := print_word (string_out st) w;
          riva_words := add_json_to_dict (riva_words st) w word_ts_stt_end
                          (speaker (current st)) p;
          pos_prev := pos_end;
          idx := idx st;
          current := current st |}
  else
    let idx' := (idx st + 1)%nat in
    next <- py_get labels idx' ;;
    let out := print_time (string_out st) (speaker next) (start_point next)
                 (end_point next) in
    w <- py_get words j ;;
    Ok {| string_out := print_word out w;
          riva_words := add_json_to_dict (riva_words st) w word_ts_stt_end
                          (speaker next) p;
          pos_prev := pos_end;
          idx := idx';
          current := next |}.

Fixpoint attribute_loop (p : params) (labels : list turn) (words : list string)
    (spaces : list (Z * Z)) (items : list (nat * (Z * Z))) (st : attribution)
    : result attribution :=
  match items with
  | [] => Ok st
  | (j, word_ts_stt_end) :: rest =>
      st' <- attribute_word p labels words spaces st j word_ts_stt_end ;;
      attribute_loop p labels words spaces rest st'
  end.

(** One utterance of [write_json_and_transcript]: the transcript pieces and
    the ['words'] entries of [riva_dict], together with the final locals. *)
Definition write_json_and_transcript (labels : list turn) (words : list string)
    (word_ts_list : list (Z * Z)) (spaces : list (Z * Z)) (p : params)
    : result attribution :=
  first <- py_get labels 0 ;;
  let out := print_time [] (speaker first) (start_point first) (end_point first) in
  attribute_loop p labels words spaces (enumerate word_ts_list)
    {| string_out := out; riva_words := []; pos_prev := 0%float; idx := 0%nat;
       current := first |}.

Definition speakers_of (a : attribution) : list string :=
  map speaker_label (riva_words a).

Definition is_header (x : piece) : bool :=
  match x with Header _ _ _ => true | Spoken _ => false end.

Definition headers_of (a : attribution) : nat :=
  length (filter is_header (string_out a)).

Definition no_turn : turn :=
  {| start_point := 0%float; end_point := 0%float; speaker := EmptyString |}.

(** [space_stt_end] for word [i]: the boundary that follows it, or its own
    end frame twice when the boundaries are used up. *)
Definition gap_after (word_ts_list spaces : list (Z * Z)) (i : nat) : Z * Z :=
  if (i =? length spaces)%nat
  then (snd (nth i word_ts_list (0, 0)), snd (nth i word_ts_list (0, 0)))
  else nth i spaces (0, 0).

(** The position the loop tests at word [j]: 0 at the first word, then the
    middle of the gap that follows the previous word. *)
Definition word_position (p : params) (word_ts_list spaces : list (Z * Z))
    (j : nat) : float :=
  match j with
  | O => 0%float
  | S i => (offset p + mean2 (gap_after word_ts_list spaces i) * time_stride p)%float
  end.

(** The turn pointer when word [j] is reached: it has moved by one turn at
    most for every earlier word. *)
Fixpoint pointer_before (p : params) (labels : list turn)
    (word_ts_list spaces : list (Z * Z)) (j : nat) : nat :=
  match j with
  | O => 0%nat
  | S i =>
      let before := pointer_before p labels word_ts_list spaces i in
      if (word_position p word_ts_list spaces i
          <? end_point (nth before labels no_turn))%float
      then before
      else S before
  end.

(** The turn pointer once word [j] is attributed. *)
Definition turn_pointer (p : params) (labels : list turn)
    (word_ts_list spaces : list (Z * Z)) (j : nat) : nat :=
  pointer_before p labels word_ts_list spaces (S j).


(** Frames and seconds on the same scale. *)
Definition unit_params : params :=
  {| time_stride := 1%float;
     offset := 0%float;
     round_float := 3;
     print_transcript := false;
     threshold := 20 |}.

(** The locals once the first [n] words are attributed. *)
Definition attributed (p : params) (labels : list turn)
    (word_ts_list spaces : list (Z * Z)) (n : nat) (st : attribution) : Prop :=
  length (riva_words st) = n
  /\ idx st = pointer_before p labels word_ts_list spaces n
  /\ nth_error labels (idx st) = Some (current st)
  /\ pos_prev st = word_position p word_ts_list spaces n
  /\ headers_of st = S (idx st)
  /\ (forall j, (j < n)%nat ->
        nth j (speakers_of st) EmptyString
        = speaker (nth (turn_pointer p labels word_ts_list spaces j) labels no_turn))
  /\ (forall j, (j < n)%nat ->
        (turn_pointer p labels word_ts_list spaces j < length labels)%nat).




(** The example of the design document and two variations of its turns. *)
Definition example_words : list string := ["hi"; "there"]%string.
Definition example_word_ts : list (Z * Z) := [(0, 10); (11, 20)].
Definition example_spaces : list (Z * Z) := [(10, 11)].
Definition example_turns : list turn :=
  [ {| start_point := 0%float; end_point := 15%float; speaker := "A" |};
    {| start_point := 15%float; end_point := 30%float; speaker := "B" |} ].
Definition short_turns : list turn :=
  [ {| start_point := 0%float; end_point := 1%float; speaker := "A" |};
    {| start_point := 1%float; end_point := 2%float; speaker := "B" |};
    {| start_point := 2%float; end_point := 30%float; speaker := "C" |} ].

(** A single turn that ends at 0.11 with two words whose gap is frames
    14-15, and parameters with a frame of a second and a half. *)
Definition brief_turn : list turn :=
  [ {| start_point := 0%float; end_point := 0.11%float; speaker := "A" |} ].
Definition brief_word_ts : list (Z * Z) := [(0, 14); (15, 20)].
Definition brief_spaces : list (Z * Z) := [(14, 15)].

(** ** Alignment scorer: [eval_diarization] *)

(** [s.rsplit(c, 1)] on a list of characters: the parts before and after the
    last [c], if there is one. *)
Fixpoint split_last (c : ascii) (s : list ascii) : option (list ascii * list ascii) :=
  match s with
  | [] => None
  | x :: rest =>
      match split_last c rest with
      | Some (before, after) => Some (x :: before, after)
      | None => if Ascii.eqb x c then Some ([], rest) else None
      end
  end.

(** [os.path.basename]. *)
Definition basename (path : string) : string :=
  match split_last "/"%char (list_ascii_of_string path) with
  | Some (_, name) => string_of_list_ascii name
  | None => path
  end.

(** [get_uniq_id_from_audio_path]: the base name without its last
    dot-separated part. *)
Definition get_uniq_id_from_audio_path (audio_file_path : string) : string :=
  match split_last "."%char (list_ascii_of_string (basename audio_file_path)) with
  | Some (stem, _) => string_of_list_ascii stem
  | None => EmptyString
  end.

(** [os.path.join(path, b)] on POSIX paths. *)
Definition os_path_join (path b : string) : string :=
  match b with
  | String "/"%char _ => b
  | _ =>
      match rev (list_ascii_of_string path) with
      | [] => b
      | "/"%char :: _ => (path ++ b)%string
      | _ :: _ => (path ++ "/" ++ b)%string
      end
  end.

(** [os.path.join(output_dir, 'pred_rttms', uniq_id + '.rttm')]. *)
Definition pred_rttm_path (output_dir uniq_id : string) : string :=
  os_path_join (os_path_join output_dir "pred_rttms") (uniq_id ++ ".rttm").

Section Scorer.

(** The collaborators imported from [nemo.collections.asr.parts.utils.speaker_utils],
    the file system and the global [audio_rttm_map].  The three functions
    can raise: [rttm_to_labels] reads a file, [labels_to_pyannote_object]
    parses the labels, [get_DER] divides by the total reference time. *)
Variable Annotation : Type.
Variable Metrics : Type.
Variable audio_rttm_map : string -> option string.
Variable path_exists : string -> bool.
Variable rttm_to_labels : string -> result (list turn).
Variable labels_to_pyannote_object : list turn -> result Annotation.
Variable get_DER : list Annotation -> list Annotation -> result Metrics.

(** Locals that live across iterations: [diar_result_labels_list], and
    [all_references] with [all_hypotheses], which are unbound before the
    first iteration. *)
Definition scorer_locals : Type :=
  (list (list turn) * option (list Annotation * list Annotation))%type.

(** The body of [for audio_file_path in audio_file_list]. *)
Definition eval_body (output_dir : string) (st : scorer_locals)
    (audio_file_path : string) : result scorer_locals :=
  let '(diar_result_labels_list, _) := st in
  let uniq_id := get_uniq_id_from_audio_path audio_file_path in
  match audio_rttm_map uniq_id with
  | None => Raise KeyError
  | Some rttm_file =>
      let all_references : list Annotation := [] in
      all_references <-
        (if path_exists rttm_file
         then ref_labels <- rttm_to_labels rttm_file ;;
              reference <- labels_to_pyannote_object ref_labels ;;
              Ok (all_references ++ [reference])
         else Ok []) ;;
      let all_hypotheses : list Annotation := [] in
      let pred_rttm := pred_rttm_path output_dir uniq_id in
      labels <- rttm_to_labels pred_rttm ;;
      let diar_result_labels_list := diar_result_labels_list ++ [labels] in
      hypothesis <- labels_to_pyannote_object labels ;;
      let all_hypotheses := all_hypotheses ++ [hypothesis] in
      Ok (diar_result_labels_list, Some (all_references, all_hypotheses))
  end.

Fixpoint eval_loop (output_dir : string) (audio_file_list : list string)
    (st : scorer_locals) : result scorer_locals :=
  match audio_file_list with
  | [] => Ok st
  | audio_file_path :: rest =>
      st' <- eval_body output_dir st audio_file_path ;;
      eval_loop output_dir rest st'
  end.

(** [eval_diarization]: the returned [diar_result_labels_list] and the
    metrics that are logged. *)
Definition eval_diarization (audio_file_list : list string) (output_dir : string)
    : result (list (list turn) * Metrics) :=
  '(diar_result_labels_list, scored) <- eval_loop output_dir audio_file_list ([], None) ;;
  match scored with
  | None => Raise NameError
  | Some (all_references, all_hypotheses) =>
      metrics <- get_DER all_references all_hypotheses ;;
      Ok (diar_result_labels_list, metrics)
  end.

End Scorer.

(** Sample collaborators for two recordings: an annotation is its list of
    turns, every reference file exists and every file is read, and the
    metrics record the two lists that [get_DER] receives. *)
Definition sample_rttm_map (uniq_id : string) : option string :=
  Some ("ref/" ++ uniq_id ++ ".rttm")%string.

Definition sample_rttm_to_labels (path : string) : list turn :=
  if String.eqb path "ref/one.rttm"
  then [ {| start_point := 0%float; end_point := 10%float; speaker := "ref_one" |} ]
  else if String.eqb path "ref/two.rttm"
  then [ {| start_point := 0%float; end_point := 10%float; speaker := "ref_two" |} ]
  else if String.eqb path "out/pred_rttms/one.rttm"
  then [ {| start_point := 0%float; end_point := 11%float; speaker := "hyp_one" |} ]
  else if String.eqb path "out/pred_rttms/two.rttm"
  then [ {| start_point := 0%float; end_point := 10%float; speaker := "hyp_two" |} ]
  else [].

Definition sample_eval (audio_file_list : list string)
    : result (list (list turn) * (list (list turn) * list (list turn))) :=
  eval_diarization (list turn) (list (list turn) * list (list turn))
    sample_rttm_map (fun _ => true) (fun path => Ok (sample_rttm_to_labels path))
    (fun labels => Ok labels)
    (fun all_references all_hypotheses => Ok (all_references, all_hypotheses))
    audio_file_list "out".

(** ** Auxiliary functions for the properties of the decoder *)

(** The tokens that the loop of lines 98-102 appends, given what [previous]
    holds. *)
Fixpoint collapse_tokens (blank previous : Z) (prediction : list Z) : list Z :=
  match prediction with
  | [] => []
  | p :: rest =>
      if WER.emits blank previous p
      then p :: collapse_tokens blank p rest
      else collapse_tokens blank p rest
  end.

(** [predictions_len[ind]] when lengths are given and in range. *)
Definition len_at (predictions_len : option (list nat)) (ind : nat) : option nat :=
  match predictions_len with
  | None => None
  | Some lens => Some (nth ind lens 0%nat)
  end.

(** ** Auxiliary notions for the properties of the silence scan *)

(** The frame from which the intervals of a run of the machine start. *)
Definition first_frame (st : silence_state) (frame : Z) : Z :=
  match st with
  | NOT_IN_SILENCE => frame
  | IN_SILENCE entry => entry
  end.

(** Two intervals with at least one frame between them. *)
Definition apart (a b : Z * Z) : Prop := snd a + 2 <= fst b.

(** The class of a frame, when the frame is one of [classes]. *)
Definition class_at (classes : list Z) (frame : Z) : option Z :=
  if frame <? 0 then None else nth_error classes (Z.to_nat frame).

(** An interval of a run of the machine starts where the open run was
    entered, or at a frame of the run whose class is the silence index. *)
Definition starts_in_silence (silence_index : Z) (st : silence_state) (frame : Z)
    (classes : list Z) (iv : Z * Z) : Prop :=
  match st with
  | IN_SILENCE entry => fst iv = entry
  | NOT_IN_SILENCE => False
  end
  \/ (frame <= fst iv
      /\ nth_error classes (Z.to_nat (fst iv - frame)) = Some silence_index).

(** ** Auxiliary functions for the properties of the word timer *)

(** A text cut at every space, as [str.split(' ')] cuts it; [cur] holds the
    characters of the piece being read. *)
Fixpoint split_acc (cur chars : list ascii) : list (list ascii) :=
  match chars with
  | [] => [cur]
  | c :: rest =>
      if Ascii.eqb c space
      then cur :: split_acc [] rest
      else split_acc (cur ++ [c]) rest
  end.

Definition split_spaces (trans : string) : list string :=
  map string_of_list_ascii (split_acc [] (list_ascii_of_string trans)).

(** ** Auxiliary functions for the properties of the voice-activity labels *)

(** The frames between which speech lies, given the non-speech intervals:
    from the end of every interval to the start of the next one, and to
    [n_probs] after the last one. *)
Definition label_frames (non_speech : list (Z * Z)) (n_probs : nat) : list (Z * Z) :=
  map (fun k =>
         (snd (nth k non_speech (0, 0)),
          if (S k =? length non_speech)%nat
          then Z.of_nat n_probs
          else fst (nth (S k) non_speech (0, 0))))
      (seq 0 (length non_speech)).

(** ** Auxiliary functions for the properties of the scorer's driver *)

(** The recording has an entry in [audio_rttm_map]. *)
Definition has_rttm_entry (audio_rttm_map : string -> option string)
    (audio_file_path : string) : bool :=
  match audio_rttm_map (get_uniq_id_from_audio_path audio_file_path) with
  | Some _ => true
  | None => false
  end.

(** What reading the predicted RTTM file of a recording gives. *)
Definition predicted_labels (rttm_to_labels : string -> result (list turn))
    (output_dir audio_file_path : string) : result (list turn) :=
  rttm_to_labels
    (pred_rttm_path output_dir (get_uniq_id_from_audio_path audio_file_path)).

(** ** Text normalization test dataset: [TextNormalizationTestDataset]

    From [nemo/collections/nlp/data/text_normalization/test_dataset.py].  The
    constants of the [constants] module and the functions of [utils] are not
    part of the sources: they are the variables of the section. *)

Module TextNormalizationTestDataset.

Section Dataset.

Variable SIL_WORD SELF_WORD PUNCT_TAG : string.
Variable SPECIAL_WORDS : list string.
Variable INST_BACKWARD INST_FORWARD : string.
Variable INST_DIRECTIONS : list string.
Variable TN_MODE ITN_MODE : string.
Variable basic_tokenize : string -> string -> list string.
Variable remove_puncts : string -> string.
Variable normalize_str : string -> string -> string.

(** [' '.join(words)]. *)
Definition join (words : list string) : string := String.concat " " words.

(** [s in l] for a list of strings. *)
Definition member (s : string) (l : list string) : bool :=
  existsb (String.eqb s) l.

(** [zip] of three lists. *)
Fixpoint zip3 {A B C : Type} (a : list A) (b : list B) (c : list C)
    : list (A * B * C) :=
  match a, b, c with
  | x :: a', y :: b', z :: c' => (x, y, z) :: zip3 a' b' c'
  | _, _, _ => []
  end.

(** Locals of the loop over the words of one instance (lines 57-70). *)
Record spans : Type := {
  processed_w_words : list string;
  processed_s_words : list string;
  processed_classes_tn : list string;
  processed_classes_itn : list string;
  processed_nb_spans_tn : nat;
  processed_nb_spans_itn : nat;
  w_span_starts : list nat;
  w_span_ends : list nat;
  processed_s_span_starts : list nat;
  processed_s_span_ends : list nat;
  w_word_idx : nat;
  s_word_idx : nat
}.

Definition no_spans : spans :=
  {| processed_w_words := []; processed_s_words := [];
     processed_classes_tn := []; processed_classes_itn := [];
     processed_nb_spans_tn := 0; processed_nb_spans_itn := 0;
     w_span_starts := []; w_span_ends := [];
     processed_s_span_starts := []; processed_s_span_ends := [];
     w_word_idx := 0; s_word_idx := 0 |}.

(** The body of [for cls, w_word, s_word in zip(classes, w_words, s_words)]
    (lines 72-89). *)
Definition word_body (lang : string) (st : spans) (item : string * string * string)
    : result spans :=
  let '(cls, w_word, s_word) := item in
  let starts := w_span_starts st ++ [w_word_idx st] in
  let w_idx := (w_word_idx st + length (basic_tokenize w_word lang))%nat in
  let ends := w_span_ends st ++ [w_idx] in
  let nb_tn := (processed_nb_spans_tn st + 1)%nat in
  if String.eqb s_word SIL_WORD
  then Ok {| processed_w_words := processed_w_words st;
             processed_s_words := processed_s_words st;
             processed_classes_tn := processed_classes_tn st ++ [PUNCT_TAG];
             processed_classes_itn := processed_classes_itn st;
             processed_nb_spans_tn := nb_tn;
             processed_nb_spans_itn := processed_nb_spans_itn st;
             w_span_starts := starts; w_span_ends := ends;
             processed_s_span_starts := processed_s_span_starts st;
             processed_s_span_ends := processed_s_span_ends st;
             w_word_idx := w_idx; s_word_idx := s_word_idx st |}
  else
    let s_words1 :=
      if String.eqb s_word SELF_WORD
      then processed_s_words st ++ [w_word]
      else processed_s_words st in
    let s_words2 :=
      if negb (member s_word SPECIAL_WORDS)
      then s_words1 ++ [s_word]
      else s_words1 in
    last <- py_last s_words2 ;;
    let s_idx := (s_word_idx st + length (basic_tokenize last lang))%nat in
    Ok {| processed_w_words := processed_w_words st ++ [w_word];
          processed_s_words := s_words2;
          processed_classes_tn := processed_classes_tn st ++ [cls];
          processed_classes_itn := processed_classes_itn st ++ [cls];
          processed_nb_spans_tn := nb_tn;
          processed_nb_spans_itn := (processed_nb_spans_itn st + 1)%nat;
          w_span_starts := starts; w_span_ends := ends;
          processed_s_span_starts := processed_s_span_starts st ++ [s_word_idx st];
          processed_s_span_ends := processed_s_span_ends st ++ [s_idx];
          w_word_idx := w_idx; s_word_idx := s_idx |}.

Fixpoint word_loop (lang : string) (items : list (string * string * string))
    (st : spans) : result spans :=
  match items with
  | [] => Ok st
  | item :: rest => st' <- word_body lang st item ;; word_loop lang rest st'
  end.

(** The attributes of the dataset, and the locals [input_words] and
    [output_words], which stay bound from one direction to the next. *)
Record dataset : Type := {
  directions : list string;
  inputs : list string;
  targets : list (list string);
  classes : list (list string);
  nb_spans : list nat;
  span_starts : list (list nat);
  span_ends : list (list nat);
  bound_words : option (list string * list string)
}.

Definition empty_dataset : dataset :=
  {| directions := []; inputs := []; targets := []; classes := []; nb_spans := [];
     span_starts := []; span_ends := []; bound_words := None |}.

(** Lines 110-117: tokenize the input and record the example. *)
Definition record_example (lang direction : string) (ds : dataset) : result dataset :=
  match bound_words ds with
  | None => Raise NameError
  | Some (input_words, output_words) =>
      let input_words := basic_tokenize (join input_words) lang in
      Ok {| directions := directions ds ++ [direction];
            inputs := inputs ds ++ [join input_words];
            targets := targets ds ++ [output_words];
            classes := classes ds; nb_spans := nb_spans ds;
            span_starts := span_starts ds; span_ends := span_ends ds;
            bound_words := Some (input_words, output_words) |}
  end.

(** The body of [for direction in constants.INST_DIRECTIONS] (lines 92-117). *)
Definition direction_body (mode lang : string) (w_words : list string) (sp : spans)
    (ds : dataset) (direction : string) : result dataset :=
  let backward := String.eqb direction INST_BACKWARD in
  if backward && String.eqb mode TN_MODE then Ok ds else
  let ds1 :=
    if backward
    then {| directions := directions ds; inputs := inputs ds; targets := targets ds;
            classes := classes ds ++ [processed_classes_itn sp];
            nb_spans := nb_spans ds ++ [processed_nb_spans_itn sp];
            span_starts := span_starts ds ++ [processed_s_span_starts sp];
            span_ends := span_ends ds ++ [processed_s_span_ends sp];
            bound_words := Some (processed_s_words sp, processed_w_words sp) |}
    else ds in
  let forward := String.eqb direction INST_FORWARD in
  if forward && String.eqb mode ITN_MODE then Ok ds1 else
  let ds2 :=
    if forward
    then {| directions := directions ds1; inputs := inputs ds1;
            targets := targets ds1;
            classes := classes ds1 ++ [processed_classes_tn sp];
            nb_spans := nb_spans ds1 ++ [processed_nb_spans_tn sp];
            span_starts := span_starts ds1 ++ [w_span_starts sp];
            span_ends := span_ends ds1 ++ [w_span_ends sp];
            bound_words := Some (w_words, processed_s_words sp) |}
    else ds1 in
  record_example lang direction ds2.

Fixpoint direction_loop (mode lang : string) (w_words : list string) (sp : spans)
    (dirs : list string) (ds : dataset) : result dataset :=
  match dirs with
  | [] => Ok ds
  | direction :: rest =>
      ds' <- direction_body mode lang w_words sp ds direction ;;
      direction_loop mode lang w_words sp rest ds'
  end.

(** The body of [for (classes, w_words, s_words) in insts]. *)
Definition instance_body (mode lang : string) (ds : dataset)
    (inst : list string * list string * list string) : result dataset :=
  let '(cls, w_words, s_words) := inst in
  sp <- word_loop lang (zip3 cls w_words s_words) no_spans ;;
  direction_loop mode lang w_words sp INST_DIRECTIONS ds.

Fixpoint instance_loop (mode lang : string)
    (insts : list (list string * list string * list string)) (ds : dataset)
    : result dataset :=
  match insts with
  | [] => Ok ds
  | inst :: rest =>
      ds' <- instance_body mode lang ds inst ;;
      instance_loop mode lang rest ds'
  end.

(** [__init__], from the instances that [read_data_file] returns. *)
Definition init (insts : list (list string * list string * list string))
    (mode lang : string) : result dataset :=
  instance_loop mode lang insts empty_dataset.

(** [self.examples]: the [zip] of the seven lists stops at the shortest. *)
Definition examples_count (ds : dataset) : nat :=
  Nat.min (length (directions ds))
    (Nat.min (length (inputs ds))
       (Nat.min (length (targets ds))
          (Nat.min (length (classes ds))
             (Nat.min (length (nb_spans ds))
                (Nat.min (length (span_starts ds)) (length (span_ends ds))))))).

(** [__len__]. *)
Definition len (ds : dataset) : nat := length (inputs ds).

(** [is_same]. *)
Definition is_same (pred target inst_dir lang : string) : nat :=
  let '(pred, target) :=
    if String.eqb inst_dir INST_BACKWARD
    then (remove_puncts pred, remove_puncts target)
    else (pred, target) in
  if String.eqb (normalize_str pred lang) (normalize_str target lang)
  then 1%nat else 0%nat.

(** What [compute_sent_accuracy] returns: the string ['NA'] or a number. *)
Inductive score : Type :=
| NA
| Accuracy (value : Q).

Fixpoint correct_count (lang : string) (items : list (string * string * string))
    (count : nat) : nat :=
  match items with
  | [] => count
  | (inst_dir, pred, target) :: rest =>
      correct_count lang rest (count + is_same pred target inst_dir lang)%nat
  end.

(** [compute_sent_accuracy]. *)
Definition compute_sent_accuracy (preds targets inst_directions : list string)
    (lang : string) : result score :=
  _ <- py_assert (length preds =? length targets)%nat ;;
  if (length targets =? 0)%nat then Ok NA else
  let count := correct_count lang (zip3 inst_directions preds targets) 0 in
  Ok (Accuracy (inject_Z (Z.of_nat count) / inject_Z (Z.of_nat (length targets)))).

(** What is asked of the constants for the properties below. *)
Definition constants_ok : Prop :=
  INST_DIRECTIONS = [INST_BACKWARD; INST_FORWARD]
  /\ INST_BACKWARD <> INST_FORWARD
  /\ SPECIAL_WORDS = [SIL_WORD; SELF_WORD]
  /\ TN_MODE <> ITN_MODE.

(** The number of examples that one instance adds in a mode. *)
Definition examples_per_instance (mode : string) : nat :=
  if String.eqb mode TN_MODE then 1%nat
  else if String.eqb mode ITN_MODE then 1%nat
  else 2%nat.

(** The seven lists of the dataset have the same length. *)
Definition aligned (ds : dataset) (n : nat) : Prop :=
  length (directions ds) = n /\ length (inputs ds) = n /\ length (targets ds) = n
  /\ length (classes ds) = n /\ length (nb_spans ds) = n
  /\ length (span_starts ds) = n /\ length (span_ends ds) = n.

(** Spans that follow one another from 0: every span starts where the one
    before ends. *)
Fixpoint chained (from : nat) (starts ends : list nat) : Prop :=
  match starts, ends with
  | [], [] => True
  | s :: starts', e :: ends' => s = from /\ (s <= e)%nat /\ chained e starts' ends'
  | _, _ => False
  end.

(** The classes, the span count and the span bounds of every example agree,
    and the spans of an example follow one another from 0. *)
Fixpoint all_spans_ok (cls : list (list string)) (nb : list nat)
    (starts ends : list (list nat)) : Prop :=
  match cls, nb, starts, ends with
  | [], [], [], [] => True
  | c :: cls', n :: nb', s :: starts', e :: ends' =>
      (length c = n /\ length s = n /\ length e = n /\ chained 0 s e)
      /\ all_spans_ok cls' nb' starts' ends'
  | _, _, _, _ => False
  end.

(** Spans that follow one another from [from] and stop at [final]. *)
Fixpoint chained_to (from : nat) (starts ends : list nat) (final : nat) : Prop :=
  match starts, ends with
  | [], [] => final = from
  | s :: starts', e :: ends' =>
      s = from /\ (s <= e)%nat /\ chained_to e starts' ends' final
  | _, _ => False
  end.

(** What the loop over the words of an instance keeps true of its locals. *)
Definition spans_inv (st : spans) : Prop :=
  length (processed_classes_tn st) = processed_nb_spans_tn st
  /\ length (w_span_starts st) = processed_nb_spans_tn st
  /\ length (w_span_ends st) = processed_nb_spans_tn st
  /\ chained_to 0 (w_span_starts st) (w_span_ends st) (w_word_idx st)
  /\ length (processed_classes_itn st) = processed_nb_spans_itn st
  /\ length (processed_s_span_starts st) = processed_nb_spans_itn st
  /\ length (processed_s_span_ends st) = processed_nb_spans_itn st
  /\ chained_to 0 (processed_s_span_starts st) (processed_s_span_ends st)
       (s_word_idx st)
  /\ length (processed_w_words st) = processed_nb_spans_itn st
  /\ length (processed_s_words st) = processed_nb_spans_itn st.

End Dataset.

End TextNormalizationTestDataset.

(** Sample values for the constants and the tokenizer, a sample instance,
    and the dataset and the sentence accuracy with them. *)
Definition sample_instance : list string * list string * list string :=
  (["PLAIN"; "DATE"; "PUNCT"], ["on"; "2021"; "."],
   ["<self>"; "twenty twenty one"; "sil"])%string.

Definition sample_dataset (insts : list (list string * list string * list string))
    (mode : string) : result TextNormalizationTestDataset.dataset :=
  TextNormalizationTestDataset.init "sil" "<self>" "PUNCT" ["sil"; "<self>"]%string
    "BACKWARD" "FORWARD" ["BACKWARD"; "FORWARD"]%string "tn" "itn"
    (fun text _ => split_spaces text) insts mode "en".

Definition sample_sent_accuracy (preds targets inst_directions : list string)
    : result TextNormalizationTestDataset.score :=
  TextNormalizationTestDataset.compute_sent_accuracy "BACKWARD"
    (fun text => text) (fun text _ => text) preds targets inst_directions "en".

(** ** Auxiliary functions for the properties of the transcript *)

(** The words of the transcript, without its headers. *)
Definition spoken_words (a : attribution) : list string :=
  flat_map (fun x => match x with Spoken w => [w] | Header _ _ _ => [] end)
           (string_out a).

(** The start and end times that [add_json_to_dict] computes for a window. *)
Definition json_times (p : params) (word_ts_stt_end : Z * Z) : float * float :=
  (py_round (offset p + float_of_int (fst word_ts_stt_end) * time_stride p)%float
            (round_float p),
   py_round (offset p + float_of_int (snd word_ts_stt_end) * time_stride p)%float
            (round_float p)).

(** * Properties *)

(** ** Shared lemmas *)

Lemma enumerate_from_app {A : Type} (start : nat) (l1 l2 : list A) :
  enumerate_from start (l1 ++ l2)
  = enumerate_from start l1 ++ enumerate_from (start + length l1) l2.
Proof.
  unfold enumerate_from.
  revert start; induction l1 as [|x l1 IH]; intros start; simpl.
  - rewrite Nat.add_0_r; reflexivity.
  - f_equal. rewrite IH. do 3 f_equal; lia.
Qed.

Lemma enumerate_from_cons {A : Type} (start : nat) (x : A) (l : list A) :
  enumerate_from start (x :: l) = (start, x) :: enumerate_from (S start) l.
Proof. reflexivity. Qed.

Lemma bind_ok {A B : Type} (a : A) (k : A -> result B) : bind (Ok a) k = k a.
Proof. reflexivity. Qed.

(** ** Frame decoder *)

Section DecoderFacts.

Variable blank : Z.

Lemma ctc_from_app (start : nat) (l1 l2 : list Z) (st : WER.loop_state) :
  WER.ctc_from blank start (l1 ++ l2) st
  = WER.ctc_from blank (start + length l1) l2 (WER.ctc_from blank start l1 st).
Proof.
  unfold WER.ctc_from. rewrite enumerate_from_app, fold_left_app. reflexivity.
Qed.

Lemma ctc_from_cons (start : nat) (p : Z) (l : list Z) (st : WER.loop_state) :
  WER.ctc_from blank start (p :: l) st
  = WER.ctc_from blank (S start) l (WER.ctc_step blank st (start, p)).
Proof. reflexivity. Qed.

Lemma ctc_collapse_snoc (prediction : list Z) (p : Z) :
  WER.ctc_collapse blank (prediction ++ [p])
  = WER.ctc_step blank (WER.ctc_collapse blank prediction) (length prediction, p).
Proof.
  unfold WER.ctc_collapse. rewrite ctc_from_app. reflexivity.
Qed.

Lemma ctc_collapse_previous (prediction : list Z) :
  snd (WER.ctc_collapse blank prediction)
  = WER.previous_at blank prediction (length prediction).
Proof.
  destruct prediction as [|x l] using rev_ind; [reflexivity|].
  rewrite ctc_collapse_snoc.
  destruct (WER.ctc_collapse blank l) as [[d t] prev]; simpl.
  rewrite length_app, Nat.add_comm; simpl.
  rewrite nth_middle.
  destruct (WER.emits blank prev x); reflexivity.
Qed.

Lemma emitted_frames_snoc (prediction : list Z) (p : Z) :
  WER.emitted_frames blank (prediction ++ [p])
  = WER.emitted_frames blank prediction
    ++ (if WER.emits blank (WER.previous_at blank prediction (length prediction)) p
        then [length prediction] else []).
Proof.
  unfold WER.emitted_frames.
  rewrite length_app, seq_app, filter_app; simpl.
  f_equal.
  - apply filter_ext_in. intros i Hi. apply in_seq in Hi.
    rewrite app_nth1 by lia.
    destruct i as [|j]; simpl; [reflexivity|].
    rewrite app_nth1 by lia. reflexivity.
  - rewrite nth_middle.
    replace (WER.previous_at blank (prediction ++ [p]) (length prediction))
      with (WER.previous_at blank prediction (length prediction)); [reflexivity|].
    destruct prediction as [|x l] using rev_ind; [reflexivity|].
    rewrite length_app, Nat.add_comm; simpl.
    rewrite nth_middle, app_nth1 by (rewrite length_app; simpl; lia).
    rewrite nth_middle. reflexivity.
Qed.

Lemma ctc_collapse_frames (prediction : list Z) :
  fst (WER.ctc_collapse blank prediction)
  = (map (fun i => nth i prediction blank) (WER.emitted_frames blank prediction),
     map Z.of_nat (WER.emitted_frames blank prediction)).
Proof.
  induction prediction as [|p l IH] using rev_ind; [reflexivity|].
  rewrite ctc_collapse_snoc, emitted_frames_snoc.
  pose proof (ctc_collapse_previous l) as Hprev.
  destruct (WER.ctc_collapse blank l) as [[d t] prev]; simpl in *.
  subst prev. injection IH as Hd Ht.
  assert (Hmap : map (fun i => nth i (l ++ [p]) blank) (WER.emitted_frames blank l)
                 = map (fun i => nth i l blank) (WER.emitted_frames blank l)).
  { apply map_ext_in. intros i Hi. unfold WER.emitted_frames in Hi.
    apply filter_In in Hi. destruct Hi as [Hi _]. apply in_seq in Hi.
    apply app_nth1. lia. }
  destruct (WER.emits blank (WER.previous_at blank l (length l)) p); simpl.
  - rewrite !map_app, Hmap; simpl. rewrite nth_middle. subst d t. reflexivity.
  - rewrite app_nil_r, Hmap. subst d t. reflexivity.
Qed.

End DecoderFacts.

Section ExpansionFacts.

Variable blank : Z.

Lemma ctc_from_blanks (n start : nat) (d t : list Z) (previous : Z) :
  WER.ctc_from blank start (repeat blank n) (d, t, previous)
  = (d, t, if (n =? 0)%nat then previous else blank).
Proof.
  revert start previous; induction n as [|n IH]; intros start previous; [reflexivity|].
  simpl repeat. rewrite ctc_from_cons.
  unfold WER.ctc_step, WER.emits. rewrite Z.eqb_refl, andb_false_r.
  rewrite IH. destruct n; reflexivity.
Qed.

Lemma emits_same (tok : Z) : tok <> blank -> WER.emits blank tok tok = false.
Proof.
  intros H. unfold WER.emits. rewrite Z.eqb_refl; simpl.
  apply Z.eqb_neq in H. rewrite H. reflexivity.
Qed.

Lemma ctc_from_held (tok : Z) (k start : nat) (d t : list Z) :
  tok <> blank ->
  WER.ctc_from blank start (repeat tok k) (d, t, tok) = (d, t, tok).
Proof.
  intros H. revert start; induction k as [|k IH]; intros start; [reflexivity|].
  simpl repeat. rewrite ctc_from_cons. unfold WER.ctc_step.
  rewrite emits_same by assumption. apply IH.
Qed.

Lemma ctc_from_run (r : WER.run) (start : nat) (d t : list Z) (previous : Z) :
  WER.token r <> blank ->
  (negb (WER.token r =? previous) || (0 <? WER.lead_blanks r)%nat) = true ->
  (previous = blank \/ 0 < WER.lead_blanks r \/ WER.token r <> previous)%nat ->
  WER.ctc_from blank start (WER.expand_run blank r) (d, t, previous)
  = (d ++ [WER.token r], t ++ [Z.of_nat (start + WER.lead_blanks r)], WER.token r).
Proof.
  intros Hnb _ Hsep. unfold WER.expand_run.
  rewrite ctc_from_app, ctc_from_blanks, repeat_length.
  simpl repeat. rewrite ctc_from_cons.
  assert (He : WER.emits blank
                 (if (WER.lead_blanks r =? 0)%nat then previous else blank)
                 (WER.token r) = true).
  { unfold WER.emits. apply Z.eqb_neq in Hnb. rewrite Hnb; simpl.
    rewrite andb_true_r.
    destruct (WER.lead_blanks r =? 0)%nat eqn:E.
    - apply Nat.eqb_eq in E.
      destruct Hsep as [Hp | [Hl | Hne]].
      + subst previous. rewrite Z.eqb_refl. apply orb_true_r.
      + lia.
      + apply Z.eqb_neq in Hne. rewrite Hne. reflexivity.
    - rewrite Z.eqb_refl. apply orb_true_r. }
  unfold WER.ctc_step at 1. rewrite He.
  apply ctc_from_held. apply Z.eqb_neq. apply Z.eqb_neq in Hnb. exact Hnb.
Qed.

Lemma ctc_from_runs (runs : list WER.run) (start : nat) (d t : list Z) (previous : Z) :
  WER.no_blank_token blank runs = true ->
  WER.separated previous runs = true ->
  fst (WER.ctc_from blank start (concat (map (WER.expand_run blank) runs))
         (d, t, previous))
  = (d ++ map WER.token runs, t ++ WER.run_starts start runs).
Proof.
  revert start d t previous.
  induction runs as [|r runs IH]; intros start d t previous Hnb Hsep.
  - simpl. rewrite !app_nil_r. reflexivity.
  - simpl in Hnb, Hsep. apply andb_prop in Hnb, Hsep.
    destruct Hnb as [Hr Hnb], Hsep as [Hs Hsep].
    apply negb_true_iff, Z.eqb_neq in Hr.
    simpl concat. rewrite ctc_from_app.
    rewrite (ctc_from_run r start d t previous Hr Hs).
    + rewrite IH by assumption. simpl.
      rewrite <- !app_assoc. simpl.
      unfold WER.expand_run. rewrite length_app, !repeat_length.
      replace (start + (WER.lead_blanks r + S (WER.extra_repeats r)))%nat
        with (start + WER.lead_blanks r + S (WER.extra_repeats r))%nat by lia.
      reflexivity.
    + apply orb_prop in Hs. destruct Hs as [Hs | Hs].
      * right; right. apply negb_true_iff, Z.eqb_neq in Hs. exact Hs.
      * right; left. apply Nat.ltb_lt in Hs. exact Hs.
Qed.

Lemma ctc_collapse_expand (runs : list WER.run) (trailing : nat) :
  WER.no_blank_token blank runs = true ->
  WER.separated blank runs = true ->
  fst (WER.ctc_collapse blank (WER.expand blank runs trailing))
  = (map WER.token runs, WER.run_starts 0 runs).
Proof.
  intros Hnb Hsep. unfold WER.ctc_collapse, WER.expand.
  rewrite ctc_from_app.
  pose proof (ctc_from_runs runs 0 [] [] blank Hnb Hsep) as H.
  destruct (WER.ctc_from blank 0 (concat (map (WER.expand_run blank) runs))
              ([], [], blank)) as [[d t] previous].
  rewrite ctc_from_blanks. simpl in *. exact H.
Qed.

Lemma run_starts_length (runs : list WER.run) (start : nat) :
  length (WER.run_starts start runs) = length runs.
Proof.
  revert start; induction runs as [|r runs IH]; intros start; simpl; [|rewrite IH];
    reflexivity.
Qed.

End ExpansionFacts.

Lemma firstn_of_repeat {A : Type} (x : A) (m n : nat) :
  firstn m (repeat x n) = repeat x (Nat.min m n).
Proof.
  revert n; induction m as [|m IH]; intros [|n]; simpl; try reflexivity.
  rewrite IH. reflexivity.
Qed.

Section TextFacts.

Variable self : WER.t.

Lemma ids_with_ts_loop_ok (tokens : list Z) :
  forall (before ts : list Z) (labels token_list : list string) (timestamp_list : list Z),
    WER.decode_ids_to_tokens self tokens = Ok labels ->
    forallb (fun c => negb (c =? WER.blank_id self)) tokens = true ->
    length ts = length tokens ->
    WER.ids_with_ts_loop self (before ++ ts) (enumerate_from (length before) tokens)
      token_list timestamp_list
    = Ok (token_list ++ labels, timestamp_list ++ ts).
Proof.
  induction tokens as [|c tokens IH];
    intros before ts labels token_list timestamp_list Hdec Hnb Hlen.
  - destruct ts; [|discriminate]. simpl in Hdec. injection Hdec as <-.
    simpl. rewrite !app_nil_r. reflexivity.
  - destruct ts as [|x ts]; [discriminate|].
    simpl in Hnb. apply andb_prop in Hnb. destruct Hnb as [Hc Hnb].
    rewrite enumerate_from_cons. simpl in Hdec |- *. rewrite Hc in Hdec |- *.
    destruct (WER.lookup_label self c) as [s|e]; [|discriminate].
    simpl in Hdec |- *.
    destruct (WER.decode_ids_to_tokens self tokens) as [rest|e] eqn:Hrest;
      [|discriminate].
    simpl in Hdec. injection Hdec as <-.
    unfold py_get. rewrite nth_error_app2, Nat.sub_diag by lia. simpl.
    replace (before ++ x :: ts) with ((before ++ [x]) ++ ts)
      by (rewrite <- app_assoc; reflexivity).
    replace (S (length before)) with (length (before ++ [x]))
      by (rewrite length_app; simpl; lia).
    rewrite (IH (before ++ [x]) ts rest) by (auto; simpl in Hlen; lia).
    rewrite <- !app_assoc. reflexivity.
Qed.

Lemma decode_tokens_to_str_with_ts_ok (tokens ts : list Z) (text : string) :
  WER.decode_tokens_to_str self tokens = Ok text ->
  forallb (fun c => negb (c =? WER.blank_id self)) tokens = true ->
  length ts = length tokens ->
  WER.decode_tokens_to_str_with_ts self tokens ts = Ok (text, ts).
Proof.
  intros Hdec Hnb Hlen.
  unfold WER.decode_tokens_to_str in Hdec.
  destruct (WER.decode_ids_to_tokens self tokens) as [labels|e] eqn:Hl; [|discriminate].
  simpl in Hdec. injection Hdec as <-.
  unfold WER.decode_tokens_to_str_with_ts, WER.decode_ids_to_tokens_with_ts, enumerate.
  pose proof (ids_with_ts_loop_ok tokens [] ts labels [] [] Hl Hnb Hlen) as Hloop.
  simpl in Hloop. rewrite Hloop.
  simpl. rewrite Hl. reflexivity.
Qed.

Lemma decode_one_all_blank (n : nat) (len : option nat) :
  WER.decode_one self (repeat (WER.blank_id self) n) len true
  = Ok (EmptyString, Some []).
Proof.
  unfold WER.decode_one.
  assert (H : forall l, (exists m, l = repeat (WER.blank_id self) m) ->
            WER.ctc_collapse (WER.blank_id self) l
            = ([], [], if (length l =? 0)%nat then WER.blank_id self
                       else WER.blank_id self)).
  { intros l [m ->]. unfold WER.ctc_collapse. rewrite ctc_from_blanks, repeat_length.
    destruct m; reflexivity. }
  destruct len as [m|].
  - rewrite H; [reflexivity|].
    exists (Nat.min m n). apply firstn_of_repeat.
  - rewrite H; [reflexivity|]. exists n; reflexivity.
Qed.

End TextFacts.

(** C2.  The frame decoder starts from [previous = blank]; reaching frame
    [i] with label [p], it appends [p] and the index [i] exactly when
    [(p <> previous or previous = blank) and p <> blank], and then holds
    [p] in [previous]; hence the emitted tokens and timestamps are those of
    the frames that pass this test, in order.  The sequence
    [5,5,0,0,7,7,7,0,5] with blank 0 gives tokens [5,7,5] at frames [0,4,8],
    and an all-blank input decodes to the empty text with no timestamp and
    no exception. *)
Theorem frame_decoder_greedy_collapse :
  (forall blank, WER.ctc_collapse blank [] = ([], [], blank))
  /\ (forall blank prediction p,
        WER.ctc_collapse blank (prediction ++ [p])
        = let '(decoded, timing, previous) := WER.ctc_collapse blank prediction in
          if (negb (p =? previous) || (previous =? blank)) && negb (p =? blank)
          then (decoded ++ [p], timing ++ [Z.of_nat (length prediction)], p)
          else (decoded, timing, p))
  /\ (forall blank prediction,
        WER.ctc_collapse blank prediction
        = (map (fun i => nth i prediction blank) (WER.emitted_frames blank prediction),
           map Z.of_nat (WER.emitted_frames blank prediction),
           WER.previous_at blank prediction (length prediction)))
  /\ WER.ctc_collapse 0 [5; 5; 0; 0; 7; 7; 7; 0; 5] = ([5; 7; 5], [0; 4; 8], 5)
  /\ (forall self n,
        WER.ctc_decoder_predictions_tensor self [repeat (WER.blank_id self) n] None true
        = Ok ([EmptyString], [Some []])).
Proof.
  split; [reflexivity|].
  split.
  { intros blank prediction p. rewrite ctc_collapse_snoc.
    destruct (WER.ctc_collapse blank prediction) as [[d t] previous].
    reflexivity. }
  split.
  { intros blank prediction.
    pose proof (ctc_collapse_frames blank prediction) as Hf.
    pose proof (ctc_collapse_previous blank prediction) as Hp.
    destruct (WER.ctc_collapse blank prediction) as [[d t] previous].
    simpl in Hf, Hp. injection Hf as -> ->. subst previous. reflexivity. }
  split; [reflexivity|].
  intros self n.
  unfold WER.ctc_decoder_predictions_tensor. simpl.
  rewrite decode_one_all_blank. reflexivity.
Qed.

(** C9.  Decoding an expansion of a hypothesis (every token, none of them
    the blank, repeated once or more, with at least one blank between two
    neighbouring runs of the same token, and any number of blanks elsewhere)
    gives back the tokens of the hypothesis and therefore its text, with one
    timestamp per token: the first frame of the token's run. *)
Theorem ctc_collapse_expansion (self : WER.t) (runs : list WER.run)
    (trailing : nat) (text : string) :
  WER.no_blank_token (WER.blank_id self) runs = true ->
  WER.separated (WER.blank_id self) runs = true ->
  WER.decode_tokens_to_str self (map WER.token runs) = Ok text ->
  fst (WER.ctc_collapse (WER.blank_id self) (WER.expand (WER.blank_id self) runs trailing))
  = (map WER.token runs, WER.run_starts 0 runs)
  /\ WER.decode_one self (WER.expand (WER.blank_id self) runs trailing) None true
     = Ok (text, Some (WER.run_starts 0 runs))
  /\ length (WER.run_starts 0 runs) = length (map WER.token runs).
Proof.
  intros Hnb Hsep Htext.
  pose proof (ctc_collapse_expand (WER.blank_id self) runs trailing Hnb Hsep) as Hc.
  assert (Hlen : length (WER.run_starts 0 runs) = length (map WER.token runs))
    by (rewrite run_starts_length, length_map; reflexivity).
  repeat split; try assumption.
  unfold WER.decode_one.
  destruct (WER.ctc_collapse (WER.blank_id self)
              (WER.expand (WER.blank_id self) runs trailing)) as [[d t] previous].
  simpl in Hc. injection Hc as -> ->.
  rewrite (decode_tokens_to_str_with_ts_ok self _ _ text Htext); [reflexivity| |exact Hlen].
  unfold WER.no_blank_token in Hnb. rewrite forallb_forall in Hnb |- *.
  intros c Hc. apply in_map_iff in Hc. destruct Hc as [r [<- Hr]]. apply Hnb, Hr.
Qed.

Lemma ctc_collapse_expansion_witness :
  WER.no_blank_token 3
    [ {| WER.lead_blanks := 1; WER.token := 0; WER.extra_repeats := 1 |};
      {| WER.lead_blanks := 0; WER.token := 1; WER.extra_repeats := 0 |};
      {| WER.lead_blanks := 2; WER.token := 1; WER.extra_repeats := 2 |} ] = true
  /\ WER.separated 3
       [ {| WER.lead_blanks := 1; WER.token := 0; WER.extra_repeats := 1 |};
         {| WER.lead_blanks := 0; WER.token := 1; WER.extra_repeats := 0 |};
         {| WER.lead_blanks := 2; WER.token := 1; WER.extra_repeats := 2 |} ] = true
  /\ WER.decode_tokens_to_str (WER.init ["a"; "b"; "c"]%string) [0; 1; 1]
     = Ok "abb"%string
  /\ WER.expand 3
       [ {| WER.lead_blanks := 1; WER.token := 0; WER.extra_repeats := 1 |};
         {| WER.lead_blanks := 0; WER.token := 1; WER.extra_repeats := 0 |};
         {| WER.lead_blanks := 2; WER.token := 1; WER.extra_repeats := 2 |} ] 1
     = [3; 0; 0; 1; 3; 3; 1; 1; 1; 3]
  /\ WER.decode_one (WER.init ["a"; "b"; "c"]%string)
       (WER.expand 3
          [ {| WER.lead_blanks := 1; WER.token := 0; WER.extra_repeats := 1 |};
            {| WER.lead_blanks := 0; WER.token := 1; WER.extra_repeats := 0 |};
            {| WER.lead_blanks := 2; WER.token := 1; WER.extra_repeats := 2 |} ] 1)
       None true
     = Ok ("abb"%string, Some [1; 3; 6]).
Proof.
  split; [reflexivity|]. split; [reflexivity|]. split; [reflexivity|].
  split; [reflexivity|].
  exact (proj1 (proj2 (ctc_collapse_expansion (WER.init ["a"; "b"; "c"]%string)
                         [ {| WER.lead_blanks := 1; WER.token := 0; WER.extra_repeats := 1 |};
                           {| WER.lead_blanks := 0; WER.token := 1; WER.extra_repeats := 0 |};
                           {| WER.lead_blanks := 2; WER.token := 1; WER.extra_repeats := 2 |} ]
                         1 "abb" eq_refl eq_refl eq_refl))).
Defined.

(** ** Word timer *)

Lemma spaces_loop_raises (trans : string) (timestamps : list Z)
    (chars : list (nat * ascii)) :
  forall spaces word_list stt_idx e,
    spaces_loop trans timestamps chars spaces word_list stt_idx = Raise e ->
    e = IndexError.
Proof.
  induction chars as [|[k s] chars IH]; intros spaces word_list stt_idx e H;
    simpl in H; [discriminate|].
  destruct (Ascii.eqb s space); [|eauto].
  unfold py_get in H.
  destruct (nth_error timestamps k); simpl in H; [|congruence].
  destruct (nth_error timestamps (k + 1)); simpl in H; [|congruence].
  eauto.
Qed.

(** C10.  [_get_spaces] asserts that the text and the timestamps are both
    non-empty and of the same length: it raises [AssertionError] exactly when
    that fails.  The empty hypothesis that the frame decoder returns for an
    all-blank sequence therefore stops the word timer with an assertion
    failure; no empty word list is returned.  In the body of
    [get_speech_labels_list] the word timer is reached once [softmax] has
    returned, that is for a [logit] with at least one entry; a [logit]
    without any entry stops [softmax] with [ValueError] before the word timer
    is called. *)
Theorem word_timer_asserts_nonempty_equal_length :
  (forall trans timestamps,
     _get_spaces trans timestamps = Raise AssertionError
     <-> ((0 <? String.length trans)%nat && (0 <? length timestamps)%nat
          && (String.length trans =? length timestamps)%nat) = false)
  /\ (forall self n,
        WER.decode_one self (repeat (WER.blank_id self) n) None true
        = Ok (EmptyString, Some []))
  /\ _get_spaces EmptyString [] = Raise AssertionError
  /\ (forall logit p,
        get_speech_labels_one EmptyString logit [] p
        = match concat logit with
          | [] => Raise ValueError
          | _ :: _ => Raise AssertionError
          end).
Proof.
  split; [|split; [|split]].
  - intros trans timestamps. unfold _get_spaces.
    destruct ((0 <? String.length trans)%nat && (0 <? length timestamps)%nat) eqn:H1;
      simpl; [|split; reflexivity].
    destruct (String.length trans =? length timestamps)%nat eqn:H2;
      simpl; [|split; reflexivity].
    split; [|discriminate].
    destruct (spaces_loop trans timestamps (enumerate (list_ascii_of_string trans))
                [] [] 0%nat) as [[[sp wl] stt]|e] eqn:Hl; simpl.
    + destruct ((stt <? String.length trans)%nat && _); discriminate.
    + apply spaces_loop_raises in Hl. subst e. discriminate.
  - intros self n. apply decode_one_all_blank.
  - reflexivity.
  - intros logit p. unfold get_speech_labels_one, softmax.
    destruct (concat logit); reflexivity.
Qed.

(** ** Silence segmenter *)

Section SilenceFacts.

Variable symbol_idx : Z.
Variable state_symbol : string.
Hypothesis state_symbol_set : state_symbol <> EmptyString.

Lemma silence_body_machine (spaces : list (Z * Z)) (idx_state : Z) (state : string)
    (st : silence_state) (idx class : Z) :
  stands_for state_symbol idx_state state st ->
  exists idx_state' state',
    silence_body symbol_idx state_symbol (spaces, idx_state, state) idx class
    = (spaces ++ snd (machine_step symbol_idx st idx class), idx_state', state')
    /\ stands_for state_symbol idx_state' state'
         (fst (machine_step symbol_idx st idx class)).
Proof.
  assert (Hne : String.eqb state_symbol EmptyString = false)
    by (apply String.eqb_neq; exact state_symbol_set).
  assert (Hne' : String.eqb EmptyString state_symbol = false)
    by (apply String.eqb_neq; congruence).
  intros H. destruct st as [|entry]; simpl in H.
  - subst state. unfold silence_body, machine_step. rewrite Hne'. simpl.
    destruct (class =? symbol_idx); simpl; rewrite app_nil_r;
      eexists; eexists; split; try reflexivity; simpl; auto.
  - destruct H as [-> ->]. unfold silence_body, machine_step.
    rewrite String.eqb_refl. simpl.
    destruct (negb (class =? 0) && negb (class =? symbol_idx)) eqn:E; simpl.
    + apply andb_prop in E. destruct E as [_ E]. apply negb_true_iff in E.
      rewrite E. eexists; eexists; split; [reflexivity|]. reflexivity.
    + rewrite Hne, app_nil_r. eexists; eexists; split; [reflexivity|].
      simpl; auto.
Qed.

Lemma silence_loop_machine (rows : list (list Q)) :
  forall (idx : Z) (spaces : list (Z * Z)) (idx_state : Z) (state : string)
         (st : silence_state),
    stands_for state_symbol idx_state state st ->
    ('(spaces', idx_state', state') <-
       silence_loop symbol_idx state_symbol rows idx (spaces, idx_state, state) ;;
     if String.eqb state' state_symbol
     then Ok (spaces' ++ [(idx_state', idx + Z.of_nat (length rows) - 1)])
     else Ok spaces')
    = (classes <- argmax_rows rows ;;
       Ok (spaces ++ machine_run symbol_idx st idx classes)).
Proof.
  induction rows as [|row rows IH]; intros idx spaces idx_state state st H.
  - simpl. destruct st as [|entry]; simpl in H.
    + subst state.
      replace (String.eqb EmptyString state_symbol) with false
        by (symmetry; apply String.eqb_neq; congruence).
      rewrite app_nil_r. reflexivity.
    + destruct H as [-> ->]. rewrite String.eqb_refl.
      replace (idx + 0 - 1) with (idx - 1) by lia. reflexivity.
  - cbn [silence_loop argmax_rows].
    destruct (np_argmax row) as [class|e]; [|reflexivity].
    rewrite !bind_ok.
    destruct (silence_body_machine spaces idx_state state st idx class H)
      as [idx_state' [state' [Hbody Hst]]].
    rewrite Hbody.
    replace (idx + Z.of_nat (length (row :: rows)) - 1)
      with (idx + 1 + Z.of_nat (length rows) - 1) by (simpl length; lia).
    rewrite (IH (idx + 1) _ idx_state' state' _ Hst).
    destruct (argmax_rows rows) as [classes|e]; [|reflexivity].
    simpl. destruct (machine_step symbol_idx st idx class) as [st' closed].
    simpl. rewrite <- app_assoc. reflexivity.
Qed.

Lemma silence_scan_machine (probs : list (list Q)) :
  _get_silence_timestamps probs symbol_idx state_symbol
  = match probs with
    | [] => Raise IndexError
    | _ :: _ =>
        classes <- argmax_rows probs ;;
        Ok (silence_machine symbol_idx classes)
    end.
Proof.
  destruct probs as [|row0 rest]; [reflexivity|].
  unfold _get_silence_timestamps. cbn [argmax_rows].
  destruct (np_argmax row0) as [first|e]; [|reflexivity].
  rewrite !bind_ok.
  pose proof (silence_loop_machine rest 1 [] 0
                (if first =? symbol_idx then state_symbol else EmptyString)
                (fst (machine_step symbol_idx NOT_IN_SILENCE 0 first))) as H.
  replace (Z.of_nat (length (row0 :: rest)) - 1) with (1 + Z.of_nat (length rest) - 1)
    by (simpl length; lia).
  rewrite H.
  - destruct (argmax_rows rest) as [classes|e]; [|reflexivity].
    unfold silence_machine. simpl.
    destruct (first =? symbol_idx); reflexivity.
  - simpl. destruct (first =? symbol_idx); simpl; auto.
Qed.

End SilenceFacts.

(** C4.  On every non-empty sequence of frames the scan of
    [_get_silence_timestamps] is the two-state machine: NOT_IN_SILENCE moves
    to IN_SILENCE, recording the frame, when the arg-max class is the silence
    index; IN_SILENCE closes the interval at the previous frame exactly when
    the arg-max class is neither 0 nor the silence index, so class 0 inside a
    run keeps it open; a run still open at the end is closed at the last
    frame. *)
Theorem silence_segmenter_two_state_scan (probs : list (list Q)) (symbol_idx : Z)
    (state_symbol : string) :
  state_symbol <> EmptyString ->
  _get_silence_timestamps probs symbol_idx state_symbol
  = match probs with
    | [] => Raise IndexError
    | _ :: _ =>
        classes <- argmax_rows probs ;;
        Ok (silence_machine symbol_idx classes)
    end
  /\ (forall entry frame rest,
        machine_run symbol_idx (IN_SILENCE entry) frame (0 :: rest)
        = machine_run symbol_idx (IN_SILENCE entry) (frame + 1) rest)
  /\ (forall entry frame class rest,
        class <> 0 -> class <> symbol_idx ->
        machine_run symbol_idx (IN_SILENCE entry) frame (class :: rest)
        = (entry, frame - 1) :: machine_run symbol_idx NOT_IN_SILENCE (frame + 1) rest)
  /\ (forall frame rest,
        machine_run symbol_idx NOT_IN_SILENCE frame (symbol_idx :: rest)
        = machine_run symbol_idx (IN_SILENCE frame) (frame + 1) rest)
  /\ (forall entry frame,
        machine_run symbol_idx (IN_SILENCE entry) frame [] = [(entry, frame - 1)]).
Proof.
  intros Hset. split; [apply silence_scan_machine; exact Hset|].
  split; [|split; [|split]].
  - intros entry frame rest. reflexivity.
  - intros entry frame class rest H0 Hs. simpl.
    apply Z.eqb_neq in H0, Hs. rewrite H0, Hs. reflexivity.
  - intros frame rest. simpl. rewrite Z.eqb_refl. reflexivity.
  - reflexivity.
Qed.

Lemma silence_segmenter_two_state_scan_witness :
  "blank"%string <> EmptyString
  /\ _get_silence_timestamps
       [one_hot 29 28; one_hot 29 0; one_hot 29 28; one_hot 29 5; one_hot 29 28]
       28 "blank"
     = Ok [(0, 2); (4, 4)].
Proof.
  split; [discriminate|].
  refine (eq_trans
            (proj1 (silence_segmenter_two_state_scan
                      [one_hot 29 28; one_hot 29 0; one_hot 29 28; one_hot 29 5;
                       one_hot 29 28] 28 "blank" _)) _);
    [discriminate | reflexivity].
Defined.

(** ** Word timer: boundaries and windows *)

Lemma get_nth_error (s : string) (n : nat) :
  String.get n s = nth_error (list_ascii_of_string s) n.
Proof.
  revert n; induction s as [|c s IH]; intros [|n]; simpl; auto.
Qed.

Lemma length_list_ascii (s : string) :
  length (list_ascii_of_string s) = String.length s.
Proof. induction s as [|c s IH]; simpl; congruence. Qed.

Lemma space_positions_In (chars : list ascii) :
  forall k pos,
    In pos (space_positions chars k) ->
    (k <= pos < k + length chars)%nat /\ nth_error chars (pos - k) = Some space.
Proof.
  induction chars as [|c chars IH]; intros k pos H; simpl in H; [contradiction|].
  destruct (Ascii.eqb c space) eqn:E.
  - destruct H as [<- | H].
    + apply Ascii.eqb_eq in E. subst c. rewrite Nat.sub_diag. simpl. split; [lia|auto].
    + apply IH in H. destruct H as [Hr Hn]. simpl. split; [lia|].
      replace (pos - k)%nat with (S (pos - S k)) by lia. exact Hn.
  - apply IH in H. destruct H as [Hr Hn]. simpl. split; [lia|].
    replace (pos - k)%nat with (S (pos - S k)) by lia. exact Hn.
Qed.

Lemma py_get_nth {A : Type} (l : list A) (i : nat) (d : A) :
  (i < length l)%nat -> py_get l i = Ok (nth i l d).
Proof.
  intros H. unfold py_get. rewrite (nth_error_nth' l d H). reflexivity.
Qed.

Section SpacesLoop.

Variable trans : string.
Variable timestamps : list Z.

Lemma spaces_loop_ok (chars : list ascii) :
  forall (before : list ascii) (spaces : list (Z * Z)) (word_list : list string)
         (stt_idx : nat),
    list_ascii_of_string trans = before ++ chars ->
    word_open (list_ascii_of_string trans) stt_idx (length before) ->
    (forall pos, In pos (space_positions chars (length before)) ->
                 (S pos < length timestamps)%nat) ->
    exists word_list' stt_idx',
      spaces_loop trans timestamps (enumerate_from (length before) chars)
        spaces word_list stt_idx
      = Ok (spaces ++ map (boundary timestamps) (space_positions chars (length before)),
            word_list', stt_idx')
      /\ length word_list'
         = (length word_list + length (space_positions chars (length before)))%nat
      /\ word_open (list_ascii_of_string trans) stt_idx' (length (before ++ chars)).
Proof.
  induction chars as [|s chars IH]; intros before spaces word_list stt_idx Hall Hopen Hts.
  - simpl. exists word_list, stt_idx. rewrite !app_nil_r, Nat.add_0_r. auto.
  - rewrite enumerate_from_cons. cbn [spaces_loop space_positions] in *.
    assert (Hall' : list_ascii_of_string trans = (before ++ [s]) ++ chars)
      by (rewrite <- app_assoc; exact Hall).
    assert (Hlen' : length (before ++ [s]) = S (length before))
      by (rewrite length_app; simpl; lia).
    assert (Hs : nth_error (list_ascii_of_string trans) (length before) = Some s)
      by (rewrite Hall, nth_error_app2, Nat.sub_diag by lia; reflexivity).
    replace (length (before ++ s :: chars)) with (length ((before ++ [s]) ++ chars))
      by (rewrite <- app_assoc; reflexivity).
    destruct (Ascii.eqb s space) eqn:E.
    + assert (Hk : (S (length before) < length timestamps)%nat)
        by (apply Hts; left; reflexivity).
      rewrite (py_get_nth timestamps (length before) 0) by lia.
      rewrite (py_get_nth timestamps (length before + 1) 0) by lia.
      rewrite !bind_ok.
      rewrite <- Hlen' in *.
      destruct (IH (before ++ [s])
                  (spaces ++ [(nth (length before) timestamps 0,
                               nth (length before + 1) timestamps 0 - 1)])
                  (word_list ++ [substring stt_idx (length before - stt_idx) trans])
                  (length before + 1)%nat Hall')
        as [wl' [stt' [Hloop [Hwl Hopen']]]].
      * apply Ascii.eqb_eq in E. subst s.
        rewrite Hlen'. unfold word_open. repeat split; [lia| |].
        -- intros i Hi. lia.
        -- right. replace (length before + 1 - 1)%nat with (length before) by lia.
           exact Hs.
      * intros pos Hpos. apply Hts. right. exact Hpos.
      * exists wl', stt'. rewrite Hloop. split; [|split].
        -- rewrite <- app_assoc. simpl. unfold boundary at 2.
           rewrite Nat.add_1_r. reflexivity.
        -- rewrite Hwl, length_app. simpl. lia.
        -- exact Hopen'.
    + rewrite <- Hlen' in *.
      destruct (IH (before ++ [s]) spaces word_list stt_idx Hall')
        as [wl' [stt' [Hloop [Hwl Hopen']]]].
      * destruct Hopen as [H1 [H2 H3]]. rewrite Hlen'.
        unfold word_open. repeat split; [lia| |exact H3].
        intros i Hi. destruct (Nat.eq_dec i (length before)) as [-> | Hne].
        -- rewrite Hs. intros Heq. injection Heq as ->.
           rewrite Ascii.eqb_refl in E. discriminate.
        -- apply H2. lia.
      * exact Hts.
      * exists wl', stt'. auto.
Qed.

End SpacesLoop.

Lemma nth_map_seq {A : Type} (f : nat -> A) (n i : nat) (d : A) :
  (i < n)%nat -> nth i (map f (seq 0 n)) d = f i.
Proof.
  intros H.
  rewrite (nth_indep _ d (f 0%nat)) by (rewrite length_map, length_seq; exact H).
  rewrite (map_nth f (seq 0 n) 0%nat i), seq_nth by exact H. reflexivity.
Qed.

Lemma py_last_nth {A : Type} (l : list A) (d : A) :
  (0 < length l)%nat -> py_last l = Ok (nth (length l - 1) l d).
Proof.
  intros H. unfold py_last.
  destruct l as [|x l] using rev_ind; [simpl in H; lia|].
  rewrite rev_app_distr. simpl.
  rewrite length_app. simpl.
  replace (length l + 1 - 1)%nat with (length l) by lia.
  rewrite nth_middle. reflexivity.
Qed.

Lemma last_char_nth (trans : string) (c : ascii) :
  last_char trans = Some c ->
  nth_error (list_ascii_of_string trans) (String.length trans - 1) = Some c.
Proof.
  unfold last_char. rewrite <- length_list_ascii.
  destruct (list_ascii_of_string trans) as [|x l] using rev_ind; [discriminate|].
  rewrite rev_app_distr. simpl. intros H. injection H as ->.
  rewrite length_app. simpl.
  rewrite nth_error_app2 by lia.
  replace (length l + 1 - 1 - length l)%nat with 0%nat by lia. reflexivity.
Qed.

Lemma no_space_at_end (trans : string) :
  (0 < String.length trans)%nat ->
  ends_with_space trans = false ->
  nth_error (list_ascii_of_string trans) (String.length trans - 1) <> Some space.
Proof.
  intros Hlen Hend. unfold ends_with_space in Hend.
  destruct (last_char trans) as [c|] eqn:Hc.
  - rewrite (last_char_nth trans c Hc). intros H. injection H as ->.
    rewrite Ascii.eqb_refl in Hend. discriminate.
  - unfold last_char in Hc. rewrite <- length_list_ascii in Hlen.
    destruct (list_ascii_of_string trans) as [|x l] using rev_ind;
      [simpl in Hlen; lia|].
    rewrite rev_app_distr in Hc. discriminate.
Qed.

Lemma get_spaces_ok (trans : string) (timestamps : list Z) :
  String.length trans = length timestamps ->
  (0 < String.length trans)%nat ->
  ends_with_space trans = false ->
  exists words,
    _get_spaces trans timestamps = Ok (boundaries trans timestamps, words)
    /\ length words = space_delimited_tokens trans.
Proof.
  intros Hlen Hpos Hend.
  pose proof (no_space_at_end trans Hpos Hend) as Hlast.
  unfold _get_spaces.
  replace ((0 <? String.length trans)%nat && (0 <? length timestamps)%nat) with true
    by (symmetry; apply andb_true_iff; split; apply Nat.ltb_lt; lia).
  replace (String.length trans =? length timestamps)%nat with true
    by (symmetry; apply Nat.eqb_eq; exact Hlen).
  simpl py_assert. rewrite !bind_ok.
  destruct (spaces_loop_ok trans timestamps (list_ascii_of_string trans) [] [] [] 0%nat)
    as [wl [stt [Hloop [Hwl Hopen]]]].
  - reflexivity.
  - unfold word_open. simpl. repeat split; [lia|intros; lia|auto].
  - intros pos Hin. apply space_positions_In in Hin. destruct Hin as [Hr Hn].
    simpl in Hr. rewrite Nat.sub_0_r in Hn. rewrite length_list_ascii in Hr.
    destruct (Nat.eq_dec pos (String.length trans - 1)) as [-> | Hne];
      [contradiction|lia].
  - simpl length in Hloop, Hwl, Hopen. unfold enumerate. rewrite Hloop, bind_ok.
    simpl app in *. rewrite length_list_ascii in Hopen.
    destruct Hopen as [H1 [H2 H3]].
    assert (Hstt : (stt < String.length trans)%nat).
    { destruct (Nat.eq_dec stt (String.length trans)) as [-> | Hne]; [|lia].
      destruct H3 as [H3 | H3]; [lia | contradiction]. }
    replace (stt <? String.length trans)%nat with true
      by (symmetry; apply Nat.ltb_lt; exact Hstt).
    rewrite get_nth_error.
    destruct (nth_error (list_ascii_of_string trans) stt) as [c|] eqn:Hc.
    + destruct (Ascii.eqb c space) eqn:E.
      * apply Ascii.eqb_eq in E. subst c. exfalso. apply (H2 stt); [lia|exact Hc].
      * simpl. eexists. split; [reflexivity|].
        rewrite length_app, Hwl. unfold space_delimited_tokens. simpl. lia.
    + apply nth_error_None in Hc. rewrite length_list_ascii in Hc. lia.
Qed.

Lemma word_timetamps_ok (timestamps : list Z) (_spaces : list (Z * Z)) (n_frames : Z) :
  (0 < length timestamps)%nat ->
  (0 < length _spaces)%nat ->
  exists wts,
    word_timetamps timestamps _spaces n_frames = Ok wts
    /\ length wts = S (length _spaces)
    /\ forall i, (i < length wts)%nat ->
         nth i wts (0, 0)
         = ((if (i =? 0)%nat then nth 0 timestamps 0
             else snd (nth (i - 1) _spaces (0, 0))),
            (if (i =? length _spaces)%nat then n_frames
             else fst (nth i _spaces (0, 0)))).
Proof.
  intros Hts Hsp. unfold word_timetamps.
  rewrite (py_get_nth timestamps 0 0 Hts), (py_get_nth _spaces 0 (0, 0) Hsp),
    (py_last_nth _spaces (0, 0) Hsp), !bind_ok.
  assert (Hmid : length (word_timetamps_middle _spaces) = (length _spaces - 1)%nat)
    by (unfold word_timetamps_middle; rewrite length_map, length_seq; reflexivity).
  eexists. split; [reflexivity|]. split.
  - simpl. rewrite length_app, Hmid. simpl. lia.
  - intros i Hi. simpl in Hi. rewrite length_app, Hmid in Hi. simpl in Hi.
    destruct i as [|i].
    + simpl. destruct (length _spaces) eqn:E; [lia|]. reflexivity.
    + change (S i =? 0)%nat with false. cbn [app nth].
      replace (S i - 1)%nat with i by lia.
      destruct (Nat.eq_dec (S i) (length _spaces)) as [Heq | Hne].
      * rewrite app_nth2 by lia. rewrite Hmid.
        replace (i - (length _spaces - 1))%nat with 0%nat by lia.
        replace (length _spaces - 1)%nat with i by lia.
        rewrite (proj2 (Nat.eqb_eq _ _) Heq). reflexivity.
      * rewrite app_nth1 by lia.
        rewrite (proj2 (Nat.eqb_neq _ _) Hne).
        unfold word_timetamps_middle.
        rewrite nth_map_seq by lia.
        rewrite Nat.add_1_r. reflexivity.
Qed.

Lemma spaces_loop_no_space (trans : string) (timestamps : list Z) (chars : list ascii) :
  forall k spaces word_list stt_idx,
    space_positions chars k = [] ->
    spaces_loop trans timestamps (enumerate_from k chars) spaces word_list stt_idx
    = Ok (spaces, word_list, stt_idx).
Proof.
  induction chars as [|s chars IH]; intros k spaces word_list stt_idx H; [reflexivity|].
  rewrite enumerate_from_cons. simpl in *.
  destruct (Ascii.eqb s space); [discriminate|]. apply IH, H.
Qed.

(** Without a space in the text the word timer never returns: when the
    earlier steps pass, [_spaces[0]] is out of range. *)
Lemma word_timer_one_word_fails (trans : string) (probs : list (list Q))
    (timestamps : list Z) (p : params) :
  space_positions (list_ascii_of_string trans) 0 = [] ->
  is_ok (get_speech_labels_one trans probs timestamps p) = false.
Proof.
  intros H. unfold get_speech_labels_one, _get_spaces.
  destruct (softmax probs) as [rows|e]; [|reflexivity]. rewrite bind_ok.
  destruct (py_assert _) as [[]|e]; [|reflexivity]. rewrite bind_ok.
  destruct (py_assert _) as [[]|e]; [|reflexivity]. rewrite bind_ok.
  unfold enumerate. rewrite spaces_loop_no_space by exact H. rewrite bind_ok.
  assert (Hw : forall n, word_timetamps timestamps [] n = Raise IndexError).
  { intros n. unfold word_timetamps, py_get.
    destruct (nth_error timestamps 0); reflexivity. }
  destruct ((0 <? String.length trans)%nat && _); rewrite bind_ok;
    (destruct (_get_silence_timestamps rows 28 "blank") as [blanks|e];
     [|reflexivity]); rewrite bind_ok;
    (destruct (get_speech_label_and_write_VAD_rttm _ _ p) as [labels|e];
     [|reflexivity]); rewrite bind_ok, Hw; reflexivity.
Qed.

(** C5.  A one-word hypothesis: [hi], decoded from 30 frames.  [_get_spaces]
    returns its single word and no boundary, the text has one
    space-delimited token, and the word timer then stops with [IndexError]
    at [_spaces[0]]: no word is returned and the count assertion is never
    reached. *)
Theorem word_timer_single_word_index_error :
  WER.decode_one (WER.init sample_vocabulary) (map Z.of_nat one_word_classes) None true
  = Ok ("hi"%string, Some [25; 27])
  /\ _get_spaces "hi" [25; 27] = Ok ([], ["hi"%string])
  /\ space_delimited_tokens "hi" = 1%nat
  /\ ends_with_space "hi" = false
  /\ word_timetamps [25; 27] [] 30 = Raise IndexError
  /\ get_speech_labels_one "hi" (frames_of one_word_classes) [25; 27] script_params
     = Raise IndexError.
Proof. repeat split; vm_compute; reflexivity. Qed.

(** C8, as the code has it.  For a text without a trailing space and with
    at least one space, timed by as many timestamps as it has characters: a
    space at position [k] gives the boundary [[timestamp[k], timestamp[k+1]-1]];
    word 0 runs from the first timestamp to the start of the first boundary;
    word [i] in between runs from the end of boundary [i-1] to the start of
    boundary [i]; the last word runs from the end of the last boundary to the
    number of frames [logit.shape[0]], one past the last frame index.  There
    are as many words as windows. *)
Theorem word_timer_windows (trans : string) (timestamps : list Z)
    (probs : list (list Q)) :
  String.length trans = length timestamps ->
  ends_with_space trans = false ->
  (0 < length (space_positions (list_ascii_of_string trans) 0))%nat ->
  exists words _spaces wts,
    _get_spaces trans timestamps = Ok (_spaces, words)
    /\ _spaces = map (fun k => (nth k timestamps 0, nth (S k) timestamps 0 - 1))
                     (space_positions (list_ascii_of_string trans) 0)
    /\ word_timetamps timestamps _spaces (Z.of_nat (length probs)) = Ok wts
    /\ length wts = S (length _spaces)
    /\ length words = length wts
    /\ forall i, (i < length wts)%nat ->
         nth i wts (0, 0)
         = ((if (i =? 0)%nat then nth 0 timestamps 0
             else snd (nth (i - 1) _spaces (0, 0))),
            (if (i =? length _spaces)%nat then Z.of_nat (length probs)
             else fst (nth i _spaces (0, 0)))).
Proof.
  intros Hlen Hend Hsp.
  assert (Hpos : (0 < String.length trans)%nat).
  { destruct (space_positions (list_ascii_of_string trans) 0) as [|k ks] eqn:E;
      [simpl in Hsp; lia|].
    assert (Hin : In k (space_positions (list_ascii_of_string trans) 0))
      by (rewrite E; left; reflexivity).
    apply space_positions_In in Hin. rewrite length_list_ascii in Hin. lia. }
  destruct (get_spaces_ok trans timestamps Hlen Hpos Hend) as [words [Hget Hwords]].
  assert (Hb : (0 < length (boundaries trans timestamps))%nat)
    by (unfold boundaries; rewrite length_map; exact Hsp).
  destruct (word_timetamps_ok timestamps (boundaries trans timestamps)
              (Z.of_nat (length probs))) as [wts [Hw [Hl Hn]]]; [lia|exact Hb|].
  exists words, (boundaries trans timestamps), wts.
  repeat split; try assumption.
  rewrite Hwords, Hl. unfold space_delimited_tokens, boundaries.
  rewrite length_map. reflexivity.
Qed.

Lemma word_timer_windows_witness :
  String.length "a b" = length [25; 27; 29]
  /\ ends_with_space "a b" = false
  /\ (0 < length (space_positions (list_ascii_of_string "a b") 0))%nat
  /\ exists words _spaces wts,
       _get_spaces "a b" [25; 27; 29] = Ok (_spaces, words)
       /\ word_timetamps [25; 27; 29] _spaces 30 = Ok wts
       /\ length words = length wts.
Proof.
  split; [reflexivity|]. split; [reflexivity|]. split; [simpl; lia|].
  destruct (word_timer_windows "a b" [25; 27; 29] (frames_of two_word_classes)
              eq_refl eq_refl) as [words [sp [wts [H1 [_ [H2 [_ [H3 _]]]]]]]];
    [simpl; lia|].
  exists words, sp, wts. split; [exact H1|]. split; [exact H2|exact H3].
Defined.

(** C8 as worded fails: in 30 frames the last frame index is 29, and the
    window of the last word of [a b] ends at 30. *)
Lemma word_timer_last_window_ends_past_final_frame :
  WER.decode_one (WER.init sample_vocabulary) (map Z.of_nat two_word_classes) None true
  = Ok ("a b"%string, Some [25; 27; 29])
  /\ length (frames_of two_word_classes) = 30%nat
  /\ exists tw,
       get_speech_labels_one "a b" (frames_of two_word_classes) [25; 27; 29]
         script_params = Ok tw
       /\ spaces_of tw = [(27, 28)]
       /\ word_ts tw = [(25, 27); (28, 30)]
       /\ last (word_ts tw) (0, 0)
          <> (snd (last (spaces_of tw) (0, 0)),
              Z.of_nat (length (frames_of two_word_classes)) - 1).
Proof.
  split; [vm_compute; reflexivity|]. split; [reflexivity|].
  eexists. split; [vm_compute; reflexivity|].
  split; [reflexivity|]. split; [reflexivity|].
  vm_compute. discriminate.
Qed.

(** ** Speaker attributor *)

Lemma py_get_ok {A : Type} (l : list A) (i : nat) (x : A) :
  py_get l i = Ok x -> nth_error l i = Some x.
Proof.
  unfold py_get. destruct (nth_error l i); [intros H; injection H as ->; reflexivity|].
  discriminate.
Qed.


Lemma speakers_of_add (st : attribution) (w : string) (ts : Z * Z) (spk : string)
    (p : params) (out : list piece) (pos : float) (i : nat) (cur : turn) :
  speakers_of {| string_out := out;
                 riva_words := add_json_to_dict (riva_words st) w ts spk p;
                 pos_prev := pos; idx := i; current := cur |}
  = speakers_of st ++ [spk].
Proof. unfold speakers_of, add_json_to_dict. simpl. rewrite map_app. reflexivity. Qed.

Section AttributionFacts.

Variable p : params.
Variable labels : list turn.
Variable words : list string.
Variable word_ts_list spaces : list (Z * Z).

Lemma gap_of_word (n : nat) (w gap : Z * Z) :
  nth_error word_ts_list n = Some w ->
  (if (n =? length spaces)%nat then Ok (snd w, snd w) else py_get spaces n) = Ok gap ->
  gap = gap_after word_ts_list spaces n.
Proof.
  intros Hw H. unfold gap_after.
  destruct (n =? length spaces)%nat.
  - injection H as <-. rewrite (nth_error_nth _ _ (0, 0) Hw). reflexivity.
  - apply py_get_ok in H. rewrite (nth_error_nth _ _ (0, 0) H). reflexivity.
Qed.

Lemma attribute_word_step (n : nat) (w : Z * Z) (st st' : attribution) :
  nth_error word_ts_list n = Some w ->
  attributed p labels word_ts_list spaces n st ->
  attribute_word p labels words spaces st n w = Ok st' ->
  attributed p labels word_ts_list spaces (S n) st'.
Proof.
  intros Hw [Hlen [Hidx [Hcur [Hpos [Hhead [Hspk Hin]]]]]] Hstep.
  unfold attribute_word in Hstep.
  destruct (if (n =? length spaces)%nat then Ok (snd w, snd w) else py_get spaces n)
    as [gap|e] eqn:Hgap; [|discriminate].
  apply (gap_of_word n w gap Hw) in Hgap. subst gap. rewrite bind_ok in Hstep.
  assert (Htest : (pos_prev st <? end_point (current st))%float
                  = (word_position p word_ts_list spaces n
                     <? end_point (nth (pointer_before p labels word_ts_list spaces n)
                                       labels no_turn))%float).
  { rewrite Hpos, <- Hidx, (nth_error_nth _ _ no_turn Hcur). reflexivity. }
  assert (Hold : forall spk j, (j < n)%nat ->
            nth j (speakers_of st ++ [spk]) EmptyString
            = speaker (nth (turn_pointer p labels word_ts_list spaces j) labels no_turn)).
  { intros spk j Hj. rewrite app_nth1; [apply Hspk, Hj|].
    unfold speakers_of. rewrite length_map. lia. }
  assert (Hnew : forall spk, nth n (speakers_of st ++ [spk]) EmptyString = spk).
  { intros spk. replace n with (length (speakers_of st)) at 1
      by (unfold speakers_of; rewrite length_map; exact Hlen).
    apply nth_middle. }
  unfold turn_pointer in *.
  destruct (pos_prev st <? end_point (current st))%float eqn:E.
  - destruct (py_get words n) as [wd|e]; [|discriminate].
    rewrite bind_ok in Hstep. injection Hstep as <-.
    assert (Hptr : pointer_before p labels word_ts_list spaces (S n) = idx st)
      by (cbn [pointer_before]; rewrite <- Htest, Hidx; reflexivity).
    unfold attributed, turn_pointer. rewrite speakers_of_add.
    cbn [riva_words idx current pos_prev].
    repeat split.
    + unfold add_json_to_dict. rewrite length_app, Hlen. simpl. lia.
    + symmetry. exact Hptr.
    + exact Hcur.
    + unfold headers_of, print_word in *. cbn [string_out].
      rewrite filter_app, length_app. simpl. lia.
    + intros j Hj. destruct (Nat.eq_dec j n) as [-> | Hne].
      * rewrite Hnew, Hptr, (nth_error_nth _ _ no_turn Hcur). reflexivity.
      * apply Hold. lia.
    + intros j Hj. destruct (Nat.eq_dec j n) as [-> | Hne]; [|apply Hin; lia].
      rewrite Hptr. apply nth_error_Some. congruence.
  - destruct (py_get labels (idx st + 1)) as [next|e] eqn:Hnext; [|discriminate].
    rewrite bind_ok in Hstep. apply py_get_ok in Hnext.
    destruct (py_get words n) as [wd|e]; [|discriminate].
    rewrite bind_ok in Hstep. injection Hstep as <-.
    assert (Hptr : pointer_before p labels word_ts_list spaces (S n)
                   = (idx st + 1)%nat)
      by (cbn [pointer_before]; rewrite <- Htest, Hidx, Nat.add_1_r; reflexivity).
    unfold attributed, turn_pointer. rewrite speakers_of_add.
    cbn [riva_words idx current pos_prev].
    repeat split.
    + unfold add_json_to_dict. rewrite length_app, Hlen. simpl. lia.
    + symmetry. exact Hptr.
    + exact Hnext.
    + unfold headers_of, print_word, print_time in *. cbn [string_out].
      rewrite !filter_app, !length_app. simpl. lia.
    + intros j Hj. destruct (Nat.eq_dec j n) as [-> | Hne].
      * rewrite Hnew, Hptr, (nth_error_nth _ _ no_turn Hnext). reflexivity.
      * apply Hold. lia.
    + intros j Hj. destruct (Nat.eq_dec j n) as [-> | Hne]; [|apply Hin; lia].
      rewrite Hptr. apply nth_error_Some. congruence.
Qed.

Lemma attribute_loop_attributed (rest : list (Z * Z)) :
  forall (done : list (Z * Z)) (st a : attribution),
    word_ts_list = done ++ rest ->
    attributed p labels word_ts_list spaces (length done) st ->
    attribute_loop p labels words spaces (enumerate_from (length done) rest) st = Ok a ->
    attributed p labels word_ts_list spaces (length word_ts_list) a.
Proof.
  induction rest as [|w rest IH]; intros done st a Hall Hst Hrun.
  - simpl in Hrun. injection Hrun as <-.
    replace (length word_ts_list) with (length done)
      by (rewrite Hall, app_nil_r; reflexivity).
    exact Hst.
  - rewrite enumerate_from_cons in Hrun. cbn [attribute_loop] in Hrun.
    destruct (attribute_word p labels words spaces st (length done) w) as [st'|e] eqn:Hw;
      [|discriminate].
    rewrite bind_ok in Hrun.
    assert (Hnth : nth_error word_ts_list (length done) = Some w)
      by (rewrite Hall, nth_error_app2, Nat.sub_diag by lia; reflexivity).
    pose proof (attribute_word_step (length done) w st st' Hnth Hst Hw) as Hst'.
    apply (IH (done ++ [w]) st' a).
    + rewrite <- app_assoc. exact Hall.
    + rewrite length_app, Nat.add_1_r. exact Hst'.
    + rewrite length_app, Nat.add_1_r. exact Hrun.
Qed.

Lemma run_attributed (a : attribution) :
  write_json_and_transcript labels words word_ts_list spaces p = Ok a ->
  attributed p labels word_ts_list spaces (length word_ts_list) a.
Proof.
  unfold write_json_and_transcript. intros H.
  destruct (py_get labels 0) as [first|e] eqn:Hfirst; [|discriminate].
  rewrite bind_ok in H. apply py_get_ok in Hfirst.
  refine (attribute_loop_attributed word_ts_list [] _ a eq_refl _ H).
  unfold attributed. cbn. repeat split; try assumption; intros; lia.
Qed.




End AttributionFacts.

Section AttributionProgress.

Variable p : params.
Variable labels : list turn.
Variable words : list string.
Variable word_ts_list spaces : list (Z * Z).







End AttributionProgress.

(** The comparison of line 374 is that of the binary64 numbers: with the
    parameters of the script the middle of the gap of frames 14-15 is
    [-0.18 + 14.5 * 0.02], which rounds to 0.10999999999999999, below the
    float that 0.11 reads as; the second word stays with the turn that ends
    at 0.11. *)
Lemma attribution_compares_binary64 :
  word_position script_params brief_word_ts brief_spaces 1 = 0.10999999999999999%float
  /\ (word_position script_params brief_word_ts brief_spaces 1 <? 0.11)%float = true
  /\ exists a,
       write_json_and_transcript brief_turn example_words brief_word_ts brief_spaces
         script_params = Ok a
       /\ speakers_of a = ["A"; "A"]%string
       /\ idx a = 0%nat.
Proof.
  split; [reflexivity|]. split; [reflexivity|].
  eexists. split; [reflexivity|]. split; reflexivity.
Qed.








(** ** Voice-activity labels *)

(** C6.  An utterance of 29 frames that begins with speech, [a bc]: the
    only non-speech interval is frames 3-27, the only speech label runs from
    frame 27 to frame 29, and frames 0, 1 and 2 lie in neither.  An utterance
    whose blank runs are all within the threshold has no non-speech interval,
    and [non_speech[-1]] raises [IndexError]. *)
Theorem vad_labels_leave_leading_speech_uncovered :
  WER.decode_one (WER.init sample_vocabulary) (map Z.of_nat leading_speech_classes)
    None true
  = Ok ("a bc"%string, Some [0; 1; 2; 28])
  /\ _get_silence_timestamps (frames_of leading_speech_classes) 28 "blank"
     = Ok [(3, 27)]
  /\ non_speech_of script_params [(3, 27)] = [(3, 27)]
  /\ (exists tw,
        get_speech_labels_one "a bc" (frames_of leading_speech_classes) [0; 1; 2; 28]
          script_params = Ok tw
        /\ speech_labels_of tw
           = [(to_seconds script_params 27, to_seconds script_params 29)]
        /\ forallb (fun frame =>
                      negb (in_non_speech [(3, 27)] frame)
                      && negb (in_speech script_params (speech_labels_of tw) frame))
                   [0; 1; 2] = true)
  /\ _get_silence_timestamps (frames_of short_blank_classes) 28 "blank" = Ok [(1, 1)]
  /\ non_speech_of script_params [(1, 1)] = []
  /\ get_speech_label_and_write_VAD_rttm 3 [] script_params = Raise IndexError.
Proof.
  split; [vm_compute; reflexivity|]. split; [vm_compute; reflexivity|].
  split; [reflexivity|]. split.
  - eexists. split; [vm_compute; reflexivity|]. split; vm_compute; reflexivity.
  - repeat split; vm_compute; reflexivity.
Qed.

(** The speech labels start at the end of a non-speech interval: none starts
    before the first one. *)
Lemma speech_labels_shape (n_probs : nat) (non_speech : list (Z * Z)) (p : params)
    (speech_labels : list (option Q * option Q)) :
  get_speech_label_and_write_VAD_rttm n_probs non_speech p = Ok speech_labels ->
  exists tail,
    speech_labels = speech_between p non_speech ++ tail
    /\ (length tail <= 1)%nat.
Proof.
  unfold get_speech_label_and_write_VAD_rttm.
  destruct (time_stride p =? 0)%float; [discriminate|].
  destruct (py_last non_speech) as [last|e]; [|discriminate].
  rewrite bind_ok.
  destruct (snd last <? Z.of_nat n_probs); intros H; injection H as <-.
  - eexists. split; [reflexivity|]. simpl. lia.
  - exists []. rewrite app_nil_r. split; [reflexivity|]. simpl. lia.
Qed.

(** ** Alignment scorer *)

Section ScorerFacts.

Variable Annotation : Type.
Variable Metrics : Type.
Variable audio_rttm_map : string -> option string.
Variable path_exists : string -> bool.
Variable rttm_to_labels : string -> result (list turn).
Variable labels_to_pyannote_object : list turn -> result Annotation.
Variable get_DER : list Annotation -> list Annotation -> result Metrics.

Lemma eval_loop_app (output_dir : string) (l1 l2 : list string)
    (st : scorer_locals Annotation) :
  eval_loop Annotation audio_rttm_map path_exists rttm_to_labels
     labels_to_pyannote_object output_dir (l1 ++ l2) st
  = (st' <- eval_loop Annotation audio_rttm_map path_exists rttm_to_labels
              labels_to_pyannote_object output_dir l1 st ;;
     eval_loop Annotation audio_rttm_map path_exists rttm_to_labels
       labels_to_pyannote_object output_dir l2 st').
Proof.
  revert st; induction l1 as [|x l1 IH]; intros st; [reflexivity|].
  cbn [eval_loop app].
  destruct (eval_body Annotation audio_rttm_map path_exists rttm_to_labels
     labels_to_pyannote_object output_dir st x) as [st'|e]; [|reflexivity].
  rewrite !bind_ok. apply IH.
Qed.

(** What one iteration leaves in [all_references] and [all_hypotheses] does
    not depend on what the iterations before left there. *)
Lemma eval_body_forgets (output_dir : string) (st1 st2 : scorer_locals Annotation)
    (f : string) (st1' : scorer_locals Annotation) :
  eval_body Annotation audio_rttm_map path_exists rttm_to_labels
     labels_to_pyannote_object output_dir st1 f = Ok st1' ->
  exists st2', eval_body Annotation audio_rttm_map path_exists rttm_to_labels
     labels_to_pyannote_object output_dir st2 f = Ok st2' /\ snd st2' = snd st1'.
Proof.
  unfold eval_body. destruct st1 as [d1 s1], st2 as [d2 s2].
  destruct (audio_rttm_map (get_uniq_id_from_audio_path f)) as [rttm|]; [|discriminate].
  destruct (if path_exists rttm then _ else _) as [refs|e]; [|discriminate].
  rewrite !bind_ok.
  destruct (rttm_to_labels _) as [labels|e]; [|discriminate].
  rewrite !bind_ok.
  destruct (labels_to_pyannote_object labels) as [hypothesis|e]; [|discriminate].
  rewrite !bind_ok.
  intros H. injection H as <-. eexists. split; reflexivity.
Qed.

(** The metrics of a batch are those of its last file scored alone. *)
Lemma eval_diarization_last_file (files : list string) (f output_dir : string)
    (labels : list (list turn)) (m : Metrics) :
  eval_diarization Annotation Metrics audio_rttm_map path_exists rttm_to_labels
    labels_to_pyannote_object get_DER (files ++ [f]) output_dir = Ok (labels, m) ->
  exists labels',
    eval_diarization Annotation Metrics audio_rttm_map path_exists rttm_to_labels
      labels_to_pyannote_object get_DER [f] output_dir = Ok (labels', m).
Proof.
  unfold eval_diarization. rewrite eval_loop_app.
  destruct (eval_loop Annotation audio_rttm_map path_exists rttm_to_labels
     labels_to_pyannote_object output_dir files ([], None)) as [st|e]; [|discriminate].
  rewrite bind_ok. cbn [eval_loop].
  destruct (eval_body Annotation audio_rttm_map path_exists rttm_to_labels
     labels_to_pyannote_object output_dir st f) as [[d s]|e] eqn:Hb; [|discriminate].
  destruct (eval_body_forgets output_dir st ([], None) f (d, s) Hb) as [[d' s'] [Hb' Hs]].
  rewrite Hb'. simpl in Hs. subst s'. rewrite !bind_ok.
  destruct s as [[refs hyps]|]; [|discriminate].
  destruct (get_DER refs hyps) as [metrics|e]; [|discriminate].
  rewrite !bind_ok.
  intros H. injection H as _ <-. eexists. reflexivity.
Qed.

End ScorerFacts.

(** C1.  A batch of two recordings: the labels of both are returned, but
    [get_DER] receives the reference and the hypothesis of the second one
    only, so the metrics reported for the batch are those of the second
    recording scored alone; an empty batch raises [NameError]. *)
Theorem eval_diarization_scores_last_file_only :
  get_uniq_id_from_audio_path "wav/one.wav" = "one"%string
  /\ sample_eval ["wav/one.wav"; "wav/two.wav"]%string
     = Ok ([sample_rttm_to_labels "out/pred_rttms/one.rttm";
            sample_rttm_to_labels "out/pred_rttms/two.rttm"],
           ([sample_rttm_to_labels "ref/two.rttm"],
            [sample_rttm_to_labels "out/pred_rttms/two.rttm"]))
  /\ option_map snd (match sample_eval ["wav/one.wav"; "wav/two.wav"]%string with
                     | Ok r => Some r | Raise _ => None end)
     = option_map snd (match sample_eval ["wav/two.wav"]%string with
                       | Ok r => Some r | Raise _ => None end)
  /\ sample_eval [] = Raise NameError.
Proof. repeat split; vm_compute; reflexivity. Qed.

(** * Further properties of the code *)

(** ** Frame decoder *)

Lemma filter_seq_sorted (f : nat -> bool) (n : nat) :
  forall start,
    StronglySorted lt (filter f (seq start n))
    /\ Forall (fun i => (start <= i < start + n)%nat) (filter f (seq start n)).
Proof.
  induction n as [|n IH]; intros start; simpl.
  - split; constructor.
  - destruct (IH (S start)) as [Hs Hb].
    assert (Hb' : Forall (fun i => (start <= i < start + S n)%nat)
                    (filter f (seq (S start) n))).
    { eapply Forall_impl; [|exact Hb]. simpl. intros i Hi. lia. }
    destruct (f start).
    + split.
      * constructor; [exact Hs|]. eapply Forall_impl; [|exact Hb]. simpl. intros; lia.
      * constructor; [lia|exact Hb'].
    + split; assumption.
Qed.

Lemma sorted_map_of_nat (l : list nat) :
  StronglySorted lt l -> StronglySorted Z.lt (map Z.of_nat l).
Proof.
  induction 1 as [|x l Hs IH Hx]; simpl; constructor; [exact IH|].
  apply Forall_map. eapply Forall_impl; [|exact Hx]. simpl. intros; lia.
Qed.

Lemma emitted_frames_facts (blank : Z) (prediction : list Z) :
  StronglySorted lt (WER.emitted_frames blank prediction)
  /\ Forall (fun i => (i < length prediction)%nat
                      /\ nth i prediction blank <> blank)
            (WER.emitted_frames blank prediction).
Proof.
  unfold WER.emitted_frames.
  destruct (filter_seq_sorted
              (fun i => WER.emits blank (WER.previous_at blank prediction i)
                          (nth i prediction blank)) (length prediction) 0) as [Hs Hb].
  split; [exact Hs|].
  apply Forall_forall. intros i Hi.
  rewrite Forall_forall in Hb. specialize (Hb i Hi).
  apply filter_In in Hi. destruct Hi as [_ He].
  unfold WER.emits in He. apply andb_prop in He. destruct He as [_ He].
  apply negb_true_iff, Z.eqb_neq in He. split; [lia|exact He].
Qed.

(** X1.  The timestamps that the decoder returns are strictly increasing
    frame indices below the number of frames, there is one per token, no
    token is the blank, and token [i] is the label of the frame at
    timestamp [i]. *)
Theorem ctc_collapse_timestamps_increasing (blank : Z) (prediction : list Z) :
  let '(decoded, timing, _) := WER.ctc_collapse blank prediction in
  length decoded = length timing
  /\ StronglySorted Z.lt timing
  /\ Forall (fun x => 0 <= x < Z.of_nat (length prediction)) timing
  /\ Forall (fun c => c <> blank) decoded
  /\ decoded = map (fun x => nth (Z.to_nat x) prediction blank) timing.
Proof.
  pose proof (ctc_collapse_frames blank prediction) as Hf.
  destruct (emitted_frames_facts blank prediction) as [Hs Hb].
  destruct (WER.ctc_collapse blank prediction) as [[d t] previous].
  simpl in Hf. injection Hf as -> ->.
  rewrite !length_map. split; [reflexivity|].
  split; [apply sorted_map_of_nat, Hs|].
  split; [|split].
  - apply Forall_map. eapply Forall_impl; [|exact Hb]. simpl. intros i [Hi _]. lia.
  - apply Forall_map. eapply Forall_impl; [|exact Hb]. simpl. intros i [_ Hi]. exact Hi.
  - rewrite map_map. apply map_ext. intros i. rewrite Nat2Z.id. reflexivity.
Qed.

Lemma ctc_from_tokens (blank : Z) (prediction : list Z) :
  forall start decoded timing previous,
    fst (fst (WER.ctc_from blank start prediction (decoded, timing, previous)))
    = decoded ++ collapse_tokens blank previous prediction.
Proof.
  induction prediction as [|p rest IH]; intros start decoded timing previous.
  - simpl. rewrite app_nil_r. reflexivity.
  - rewrite ctc_from_cons. unfold WER.ctc_step. simpl collapse_tokens.
    destruct (WER.emits blank previous p).
    + rewrite IH, <- app_assoc. reflexivity.
    + apply IH.
Qed.

Lemma emits_repeated (blank p : Z) : WER.emits blank p p = false.
Proof.
  unfold WER.emits. rewrite Z.eqb_refl. simpl.
  destruct (p =? blank); reflexivity.
Qed.

Lemma collapse_tokens_repeat (blank : Z) (l1 : list Z) :
  forall previous p l2,
    collapse_tokens blank previous (l1 ++ p :: p :: l2)
    = collapse_tokens blank previous (l1 ++ p :: l2).
Proof.
  induction l1 as [|x l1 IH]; intros previous p l2.
  - simpl. rewrite emits_repeated. reflexivity.
  - simpl. rewrite IH. reflexivity.
Qed.

(** X2.  Holding any frame for one more frame does not change the tokens
    that the decoder returns. *)
Theorem ctc_collapse_repeated_frame (blank : Z) (l1 l2 : list Z) (p : Z) :
  fst (fst (WER.ctc_collapse blank (l1 ++ p :: p :: l2)))
  = fst (fst (WER.ctc_collapse blank (l1 ++ p :: l2))).
Proof.
  unfold WER.ctc_collapse. rewrite !ctc_from_tokens. simpl.
  apply collapse_tokens_repeat.
Qed.

(** X3.  With the label map that [__init__] builds, [decode_ids_to_tokens]
    succeeds exactly when every id lies between 0 and [len(vocabulary)]; it
    then drops the ids equal to [len(vocabulary)], the blank, and returns the
    vocabulary entries of the others.  Any other id raises [KeyError]. *)
Theorem decode_ids_to_tokens_in_range (vocabulary : list string) (tokens : list Z) :
  WER.decode_ids_to_tokens (WER.init vocabulary) tokens
  = if forallb (fun c => (0 <=? c) && (c <=? Z.of_nat (length vocabulary))) tokens
    then Ok (map (fun c => nth (Z.to_nat c) vocabulary EmptyString)
                 (filter (fun c => negb (c =? Z.of_nat (length vocabulary))) tokens))
    else Raise KeyError.
Proof.
  induction tokens as [|c tokens IH]; [reflexivity|].
  cbn [WER.decode_ids_to_tokens forallb filter]. rewrite IH.
  change (WER.blank_id (WER.init vocabulary)) with (Z.of_nat (length vocabulary)).
  destruct (c =? Z.of_nat (length vocabulary)) eqn:Eb; cbn [negb].
  - apply Z.eqb_eq in Eb.
    replace ((0 <=? c) && (c <=? Z.of_nat (length vocabulary))) with true
      by (symmetry; apply andb_true_iff; split; apply Z.leb_le; lia).
    reflexivity.
  - apply Z.eqb_neq in Eb. unfold WER.lookup_label, WER.init. cbn [WER.labels_map].
    destruct (c <? 0) eqn:Eneg.
    + apply Z.ltb_lt in Eneg.
      replace (0 <=? c) with false by (symmetry; apply Z.leb_gt; lia).
      reflexivity.
    + apply Z.ltb_ge in Eneg.
      replace (0 <=? c) with true by (symmetry; apply Z.leb_le; lia).
      cbn [andb].
      destruct (c <=? Z.of_nat (length vocabulary)) eqn:Ele.
      * apply Z.leb_le in Ele.
        assert (Hlt : (Z.to_nat c < length vocabulary)%nat) by lia.
        rewrite (nth_error_nth' vocabulary EmptyString Hlt). rewrite bind_ok.
        destruct (forallb _ tokens); reflexivity.
      * apply Z.leb_gt in Ele.
        assert (Hge : (length vocabulary <= Z.to_nat c)%nat) by lia.
        apply nth_error_None in Hge. rewrite Hge. reflexivity.
Qed.

Lemma decode_ids_to_tokens_labels (vocabulary : list string) (tokens : list Z) :
  forall labels,
    WER.decode_ids_to_tokens (WER.init vocabulary) tokens = Ok labels ->
    Forall (fun c => c <> Z.of_nat (length vocabulary)) tokens ->
    length labels = length tokens /\ Forall (fun s => In s vocabulary) labels.
Proof.
  induction tokens as [|c tokens IH]; intros labels H Hnb.
  - injection H as <-. split; [reflexivity|constructor].
  - inversion Hnb as [|? ? Hc Hrest]; subst.
    cbn [WER.decode_ids_to_tokens] in H.
    change (WER.blank_id (WER.init vocabulary)) with (Z.of_nat (length vocabulary)) in H.
    apply Z.eqb_neq in Hc. rewrite Hc in H. cbn [negb] in H.
    unfold WER.lookup_label, WER.init in H. cbn [WER.labels_map] in H.
    destruct (c <? 0); [discriminate|].
    destruct (nth_error vocabulary (Z.to_nat c)) as [s|] eqn:Hs; [|discriminate].
    rewrite bind_ok in H.
    destruct (WER.decode_ids_to_tokens
                {| WER.blank_id := Z.of_nat (length vocabulary);
                   WER.labels_map := fun c0 =>
                     if c0 <? 0 then None else nth_error vocabulary (Z.to_nat c0) |}
                tokens) as [rest|e] eqn:Hr; [|discriminate].
    rewrite bind_ok in H. injection H as <-.
    destruct (IH rest Hr Hrest) as [Hl Hin].
    split; [simpl; congruence|].
    constructor; [eapply nth_error_In, Hs|exact Hin].
Qed.

Lemma string_length_append (s1 s2 : string) :
  String.length (s1 ++ s2) = (String.length s1 + String.length s2)%nat.
Proof. induction s1 as [|c s1 IH]; simpl; [|rewrite IH]; reflexivity. Qed.

Lemma concat_single_chars (labels : list string) :
  Forall (fun s => String.length s = 1%nat) labels ->
  String.length (String.concat EmptyString labels) = length labels.
Proof.
  induction 1 as [|s l Hs Hl IH]; [reflexivity|].
  destruct l as [|s' l'].
  - simpl. exact Hs.
  - change (String.concat EmptyString (s :: s' :: l'))
      with (s ++ EmptyString ++ String.concat EmptyString (s' :: l'))%string.
    rewrite !string_length_append, IH, Hs. reflexivity.
Qed.

(** X4.  With a vocabulary of one-character labels, the text that the
    decoder returns has exactly as many characters as timestamps, and the
    timestamps are those of the collapse; so on the decoder's output the word
    timer's assertions fail only for the empty text. *)
Theorem decode_one_text_matches_timestamps (vocabulary : list string)
    (prediction : list Z) (len : option nat) (text : string) (ts : list Z) :
  Forall (fun s => String.length s = 1%nat) vocabulary ->
  WER.decode_one (WER.init vocabulary) prediction len true = Ok (text, Some ts) ->
  String.length text = length ts
  /\ ts = snd (fst (WER.ctc_collapse (Z.of_nat (length vocabulary))
                      (match len with Some n => firstn n prediction
                                    | None => prediction end)))
  /\ (_get_spaces text ts = Raise AssertionError <-> text = EmptyString).
Proof.
  intros Hvoc H. unfold WER.decode_one in H.
  change (WER.blank_id (WER.init vocabulary)) with (Z.of_nat (length vocabulary)) in H.
  set (cut := match len with Some n => firstn n prediction | None => prediction end) in *.
  pose proof (ctc_collapse_frames (Z.of_nat (length vocabulary)) cut) as Hf.
  destruct (emitted_frames_facts (Z.of_nat (length vocabulary)) cut) as [_ Hb].
  destruct (WER.ctc_collapse (Z.of_nat (length vocabulary)) cut) as [[d t] previous].
  simpl in Hf. injection Hf as Hd Ht.
  assert (Hnb : Forall (fun c => c <> Z.of_nat (length vocabulary)) d).
  { rewrite Hd. apply Forall_map. eapply Forall_impl; [|exact Hb].
    simpl. intros i [_ Hi]. exact Hi. }
  assert (Hlen : length t = length d) by (rewrite Hd, Ht, !length_map; reflexivity).
  destruct (WER.decode_tokens_to_str_with_ts (WER.init vocabulary) d t)
    as [[text' ts']|e] eqn:Hdec; [|discriminate].
  rewrite bind_ok in H. injection H as -> ->.
  unfold WER.decode_tokens_to_str_with_ts in Hdec.
  destruct (WER.decode_ids_to_tokens (WER.init vocabulary) d) as [labels|e] eqn:Hl.
  - destruct (decode_ids_to_tokens_labels vocabulary d labels Hl Hnb) as [Hll Hin].
    assert (Hstr : WER.decode_tokens_to_str (WER.init vocabulary) d
                   = Ok (String.concat EmptyString labels))
      by (unfold WER.decode_tokens_to_str; rewrite Hl; reflexivity).
    assert (Hnb' : forallb (fun c => negb (c =? WER.blank_id (WER.init vocabulary))) d
                   = true).
    { apply forallb_forall. intros c Hc. rewrite Forall_forall in Hnb.
      apply negb_true_iff, Z.eqb_neq, Hnb, Hc. }
    pose proof (decode_tokens_to_str_with_ts_ok (WER.init vocabulary) d t _
                  Hstr Hnb' Hlen) as Hok.
    unfold WER.decode_tokens_to_str_with_ts in Hok. rewrite Hl in Hok.
    rewrite Hok in Hdec. injection Hdec as <- <-.
    assert (Htl : String.length (String.concat EmptyString labels) = length t).
    { rewrite concat_single_chars; [congruence|].
      eapply Forall_impl; [|exact Hin]. simpl. intros s Hs.
      rewrite Forall_forall in Hvoc. apply Hvoc, Hs. }
    split; [exact Htl|]. split; [reflexivity|].
    unfold _get_spaces. rewrite <- Htl, Nat.eqb_refl, andb_diag.
    destruct (String.concat EmptyString labels) as [|c rest] eqn:Etext.
    + split; reflexivity.
    + cbn [String.length Nat.ltb Nat.leb py_assert bind].
      split; [|discriminate].
      destruct (spaces_loop _ _ _ _ _ _) as [[[sp wl] stt]|e] eqn:Hloop.
      * cbn [bind]. destruct (_ && _); discriminate.
      * apply spaces_loop_raises in Hloop. subst e. discriminate.
  - destruct (WER.decode_ids_to_tokens_with_ts (WER.init vocabulary) d t)
      as [[a b]|e']; discriminate.
Qed.

Lemma sample_vocabulary_single_chars :
  Forall (fun s => String.length s = 1%nat) sample_vocabulary.
Proof. unfold sample_vocabulary. apply Forall_map, Forall_forall. reflexivity. Qed.

Lemma decode_one_text_matches_timestamps_witness :
  Forall (fun s => String.length s = 1%nat) sample_vocabulary
  /\ WER.decode_one (WER.init sample_vocabulary) (map Z.of_nat two_word_classes)
       None true = Ok ("a b"%string, Some [25; 27; 29])
  /\ String.length "a b" = length [25; 27; 29].
Proof.
  split; [exact sample_vocabulary_single_chars|].
  split; [vm_compute; reflexivity|].
  refine (proj1 (decode_one_text_matches_timestamps sample_vocabulary
                   (map Z.of_nat two_word_classes) None "a b" [25; 27; 29]
                   sample_vocabulary_single_chars _)).
  vm_compute. reflexivity.
Defined.

(** X5.  Called without [return_timestamps], the decoder never returns a
    hypothesis for a non-empty batch: line 107 passes two arguments to the
    one-argument [decode_tokens_to_str], which is a [TypeError] (or the
    length list is empty and [predictions_len[0]] is an [IndexError]
    first). *)
Theorem ctc_decoder_without_timestamps_raises (self : WER.t) (prediction : list Z)
    (rest : list (list Z)) (predictions_len : option (list nat)) :
  WER.ctc_decoder_predictions_tensor self (prediction :: rest) predictions_len false
  = match predictions_len with
    | Some [] => Raise IndexError
    | _ => Raise TypeError
    end.
Proof.
  unfold WER.ctc_decoder_predictions_tensor, enumerate.
  rewrite enumerate_from_cons. cbn [WER.batch_loop].
  assert (H : forall len, WER.decode_one self prediction len false = Raise TypeError).
  { intros len. unfold WER.decode_one.
    destruct (WER.ctc_collapse _ _) as [[d t] previous]. reflexivity. }
  destruct predictions_len as [[|n lens]|]; cbn; rewrite ?H; reflexivity.
Qed.

Lemma batch_loop_items (self : WER.t) (predictions_len : option (list nat))
    (predictions : list (list Z)) :
  forall start hyps tss,
    WER.batch_loop self (enumerate_from start predictions) predictions_len true
    = Ok (hyps, tss) ->
    length hyps = length predictions
    /\ length tss = length predictions
    /\ forall i, (i < length predictions)%nat ->
         WER.decode_one self (nth i predictions []) (len_at predictions_len (start + i))
           true
         = Ok (nth i hyps EmptyString, nth i tss None).
Proof.
  induction predictions as [|x rest IH]; intros start hyps tss H.
  - injection H as <- <-. repeat split. intros i Hi. simpl in Hi. lia.
  - rewrite enumerate_from_cons in H. cbn [WER.batch_loop] in H.
    assert (Hlen : exists len,
               match predictions_len with
               | None => Ok None
               | Some lens => n <- py_get lens start ;; Ok (Some n)
               end = Ok len /\ len = len_at predictions_len start).
    { destruct predictions_len as [lens|]; [|exists None; split; reflexivity].
      destruct (py_get lens start) as [n|e] eqn:Hn; [|discriminate].
      exists (Some n). split; [reflexivity|]. simpl. f_equal.
      apply py_get_ok in Hn. symmetry. apply nth_error_nth, Hn. }
    destruct Hlen as [len [Hl ->]]. rewrite Hl, bind_ok in H.
    destruct (WER.decode_one self x (len_at predictions_len start) true)
      as [[h t]|e] eqn:Hx; [|discriminate].
    rewrite bind_ok in H.
    destruct (WER.batch_loop self (enumerate_from (S start) rest) predictions_len true)
      as [[hs ts]|e] eqn:Hrest; [|discriminate].
    rewrite bind_ok in H. injection H as <- <-.
    destruct (IH (S start) hs ts Hrest) as [H1 [H2 H3]].
    simpl length. repeat split; try congruence.
    intros [|i] Hi.
    + rewrite Nat.add_0_r. exact Hx.
    + simpl nth. replace (start + S i)%nat with (S start + i)%nat by lia.
      apply H3. simpl in Hi. lia.
Qed.

(** X6.  With [return_timestamps] the decoder treats the predictions of a
    batch one by one: it returns one text and one timestamp list per
    prediction, in order, each the decoding of that prediction cut to its own
    length. *)
Theorem ctc_decoder_batch_items (self : WER.t) (predictions : list (list Z))
    (predictions_len : option (list nat)) (hyps : list string)
    (tss : list (option (list Z))) :
  WER.ctc_decoder_predictions_tensor self predictions predictions_len true
  = Ok (hyps, tss) ->
  length hyps = length predictions
  /\ length tss = length predictions
  /\ forall i, (i < length predictions)%nat ->
       WER.decode_one self (nth i predictions []) (len_at predictions_len i) true
       = Ok (nth i hyps EmptyString, nth i tss None).
Proof.
  intros H. apply (batch_loop_items self predictions_len predictions 0 hyps tss H).
Qed.

Lemma ctc_decoder_batch_items_witness :
  WER.ctc_decoder_predictions_tensor (WER.init sample_vocabulary)
    [map Z.of_nat two_word_classes; map Z.of_nat one_word_classes]
    (Some [30; 26]%nat) true
  = Ok (["a b"; "h"]%string, [Some [25; 27; 29]; Some [25]])
  /\ WER.decode_one (WER.init sample_vocabulary) (map Z.of_nat one_word_classes)
       (Some 26%nat) true
     = Ok ("h"%string, Some [25]).
Proof.
  assert (H : WER.ctc_decoder_predictions_tensor (WER.init sample_vocabulary)
                [map Z.of_nat two_word_classes; map Z.of_nat one_word_classes]
                (Some [30; 26]%nat) true
              = Ok (["a b"; "h"]%string, [Some [25; 27; 29]; Some [25]]))
    by (vm_compute; reflexivity).
  split; [exact H|].
  exact (proj2 (proj2 (ctc_decoder_batch_items _ _ _ _ _ H)) 1%nat
           (Nat.lt_succ_diag_r 1)).
Defined.

(** ** Silence segmenter *)

Section MachineFacts.

Variable symbol_idx : Z.

Lemma machine_run_shape (classes : list Z) :
  forall st frame,
    first_frame st frame <= frame ->
    (st <> NOT_IN_SILENCE -> first_frame st frame < frame) ->
    Forall (fun iv => first_frame st frame <= fst iv
                      /\ fst iv <= snd iv
                      /\ snd iv <= frame + Z.of_nat (length classes) - 1)
           (machine_run symbol_idx st frame classes)
    /\ StronglySorted apart (machine_run symbol_idx st frame classes).
Proof.
  induction classes as [|c classes IH]; intros st frame Hle Hlt.
  - destruct st as [|entry]; simpl.
    + split; constructor.
    + assert (entry < frame) by (apply Hlt; discriminate).
      split; repeat constructor; simpl; lia.
  - cbn [machine_run length]. rewrite Nat2Z.inj_succ.
    destruct st as [|entry]; cbn [machine_step first_frame] in *.
    + destruct (c =? symbol_idx).
      * destruct (IH (IN_SILENCE frame) (frame + 1)) as [Hb Hs];
          [simpl; lia | simpl; lia |].
        cbn [app first_frame] in *. split; [|exact Hs].
        eapply Forall_impl; [|exact Hb]. cbn beta. intros iv ?. lia.
      * destruct (IH NOT_IN_SILENCE (frame + 1)) as [Hb Hs];
          [simpl; lia | intros H; contradiction |].
        cbn [app first_frame] in *. split; [|exact Hs].
        eapply Forall_impl; [|exact Hb]. cbn beta. intros iv ?. lia.
    + assert (Hef : entry < frame) by (apply Hlt; discriminate).
      destruct (negb (c =? 0) && negb (c =? symbol_idx)).
      * destruct (IH NOT_IN_SILENCE (frame + 1)) as [Hb Hs];
          [simpl; lia | intros H; contradiction |].
        cbn [app first_frame] in *. split.
        -- constructor; [cbn [fst snd]; lia|].
           eapply Forall_impl; [|exact Hb]. cbn beta. intros iv ?. lia.
        -- constructor; [exact Hs|].
           eapply Forall_impl; [|exact Hb]. unfold apart. cbn beta.
           cbn [fst snd]. intros iv ?. lia.
      * destruct (IH (IN_SILENCE entry) (frame + 1)) as [Hb Hs];
          [simpl; lia | simpl; lia |].
        cbn [app first_frame] in *. split; [|exact Hs].
        eapply Forall_impl; [|exact Hb]. cbn beta. intros iv ?. lia.
Qed.

End MachineFacts.

Lemma argmax_rows_length (rows : list (list Q)) :
  forall classes, argmax_rows rows = Ok classes -> length classes = length rows.
Proof.
  induction rows as [|row rows IH]; intros classes H.
  - injection H as <-. reflexivity.
  - cbn [argmax_rows] in H. destruct (np_argmax row) as [c|e]; [|discriminate].
    rewrite bind_ok in H. destruct (argmax_rows rows) as [cs|e]; [|discriminate].
    rewrite bind_ok in H. injection H as <-. simpl. f_equal. apply IH. reflexivity.
Qed.

Lemma silence_scan_classes (probs : list (list Q)) (symbol_idx : Z)
    (state_symbol : string) (intervals : list (Z * Z)) :
  state_symbol <> EmptyString ->
  _get_silence_timestamps probs symbol_idx state_symbol = Ok intervals ->
  exists classes,
    argmax_rows probs = Ok classes
    /\ length classes = length probs
    /\ intervals = silence_machine symbol_idx classes.
Proof.
  intros Hset H. rewrite (silence_scan_machine symbol_idx state_symbol Hset) in H.
  destruct probs as [|row rest]; [discriminate|].
  destruct (argmax_rows (row :: rest)) as [classes|e] eqn:Hc; [|discriminate].
  rewrite bind_ok in H. injection H as <-.
  exists classes. repeat split. apply argmax_rows_length, Hc.
Qed.

Lemma silence_intervals_ordered_aux (probs : list (list Q)) (symbol_idx : Z)
    (state_symbol : string) (intervals : list (Z * Z)) :
  state_symbol <> EmptyString ->
  _get_silence_timestamps probs symbol_idx state_symbol = Ok intervals ->
  Forall (fun iv => 0 <= fst iv /\ fst iv <= snd iv
                    /\ snd iv < Z.of_nat (length probs)) intervals
  /\ StronglySorted apart intervals.
Proof.
  intros Hset H.
  destruct (silence_scan_classes probs symbol_idx state_symbol intervals Hset H)
    as [classes [_ [Hlen ->]]].
  destruct (machine_run_shape symbol_idx classes NOT_IN_SILENCE 0) as [Hb Hs];
    [simpl; lia | intros Hc; contradiction |].
  split; [|exact Hs].
  eapply Forall_impl; [|exact Hb]. simpl. intros iv ?. lia.
Qed.

(** X7.  The intervals that the silence scan returns lie inside the frame
    range, each has its start at or before its end, and they come in
    increasing order with at least one frame between the end of one and the
    start of the next. *)
Theorem silence_intervals_ordered (probs : list (list Q)) (symbol_idx : Z)
    (state_symbol : string) (intervals : list (Z * Z)) :
  state_symbol <> EmptyString ->
  _get_silence_timestamps probs symbol_idx state_symbol = Ok intervals ->
  Forall (fun iv => 0 <= fst iv /\ fst iv <= snd iv
                    /\ snd iv < Z.of_nat (length probs)) intervals
  /\ StronglySorted apart intervals.
Proof. apply silence_intervals_ordered_aux. Qed.

Lemma silence_intervals_ordered_witness :
  "blank"%string <> EmptyString
  /\ _get_silence_timestamps
       [one_hot 29 28; one_hot 29 0; one_hot 29 28; one_hot 29 5; one_hot 29 28]
       28 "blank" = Ok [(0, 2); (4, 4)]
  /\ StronglySorted apart [(0, 2); (4, 4)].
Proof.
  assert (Hne : "blank"%string <> EmptyString) by discriminate.
  split; [exact Hne|]. split; [vm_compute; reflexivity|].
  refine (proj2 (silence_intervals_ordered
                   [one_hot 29 28; one_hot 29 0; one_hot 29 28; one_hot 29 5;
                    one_hot 29 28] 28 "blank" [(0, 2); (4, 4)] Hne _)).
  vm_compute. reflexivity.
Defined.

Section MachineCoverage.

Variable symbol_idx : Z.

Lemma machine_run_open (classes : list Z) :
  forall entry frame,
    exists e tail,
      machine_run symbol_idx (IN_SILENCE entry) frame classes = (entry, e) :: tail
      /\ frame - 1 <= e.
Proof.
  induction classes as [|c classes IH]; intros entry frame.
  - exists (frame - 1), []. split; [reflexivity|lia].
  - cbn [machine_run machine_step].
    destruct (negb (c =? 0) && negb (c =? symbol_idx)).
    + eexists; eexists. split; [reflexivity|lia].
    + destruct (IH entry (frame + 1)) as [e [tail [H He]]].
      exists e, tail. split; [exact H|lia].
Qed.

Lemma nth_error_shift (c : Z) (rest : list Z) (frame f : Z) :
  frame + 1 <= f ->
  nth_error (c :: rest) (Z.to_nat (f - frame))
  = nth_error rest (Z.to_nat (f - (frame + 1))).
Proof.
  intros H. replace (Z.to_nat (f - frame)) with (S (Z.to_nat (f - (frame + 1))))
    by lia. reflexivity.
Qed.

Lemma in_non_speech_app (l1 l2 : list (Z * Z)) (f : Z) :
  in_non_speech (l1 ++ l2) f = in_non_speech l1 f || in_non_speech l2 f.
Proof. unfold in_non_speech. apply existsb_app. Qed.

Lemma not_in_later_intervals (intervals : list (Z * Z)) (lo f : Z) :
  Forall (fun iv => lo <= fst iv) intervals -> f < lo ->
  in_non_speech intervals f = false.
Proof.
  intros H Hf. unfold in_non_speech.
  induction H as [|iv l Hiv Hl IH]; [reflexivity|].
  simpl. rewrite IH. replace (fst iv <=? f) with false
    by (symmetry; apply Z.leb_gt; lia). reflexivity.
Qed.

Lemma machine_run_from (classes : list Z) (st : silence_state) (frame : Z) :
  first_frame st frame <= frame ->
  (st <> NOT_IN_SILENCE -> first_frame st frame < frame) ->
  Forall (fun iv => first_frame st frame <= fst iv)
         (machine_run symbol_idx st frame classes).
Proof.
  intros H1 H2.
  destruct (machine_run_shape symbol_idx classes st frame H1 H2) as [Hb _].
  eapply Forall_impl; [|exact Hb]. cbn beta. intros iv ?. lia.
Qed.

Lemma machine_run_complete (classes : list Z) :
  forall st frame f,
    first_frame st frame <= frame ->
    frame <= f ->
    nth_error classes (Z.to_nat (f - frame)) = Some symbol_idx ->
    in_non_speech (machine_run symbol_idx st frame classes) f = true.
Proof.
  induction classes as [|c classes IH]; intros st frame f Hst Hf Hc.
  - destruct (Z.to_nat (f - frame)); discriminate.
  - cbn [machine_run].
    destruct (Z.eq_dec f frame) as [-> | Hne].
    + rewrite Z.sub_diag in Hc. simpl in Hc. injection Hc as ->.
      assert (Hcover : forall entry, entry <= frame ->
                in_non_speech
                  (machine_run symbol_idx (IN_SILENCE entry) (frame + 1) classes) frame
                = true).
      { intros entry He.
        destruct (machine_run_open classes entry (frame + 1)) as [e [tail [-> Hge]]].
        unfold in_non_speech. simpl.
        replace (entry <=? frame) with true by (symmetry; apply Z.leb_le; lia).
        replace (frame <=? e) with true by (symmetry; apply Z.leb_le; lia).
        reflexivity. }
      destruct st as [|entry]; cbn [machine_step first_frame] in *.
      * rewrite Z.eqb_refl. simpl app. apply Hcover. lia.
      * rewrite Z.eqb_refl, andb_false_r. simpl app. apply Hcover. exact Hst.
    + rewrite nth_error_shift in Hc by lia.
      destruct (machine_step symbol_idx st frame c) as [st' closed] eqn:Hstep.
      rewrite in_non_speech_app.
      rewrite (IH st' (frame + 1) f); [apply orb_true_r| |lia|exact Hc].
      destruct st as [|entry]; cbn [machine_step first_frame] in *.
      * destruct (c =? symbol_idx); injection Hstep as <- _; simpl; lia.
      * destruct (negb (c =? 0) && negb (c =? symbol_idx));
          injection Hstep as <- _; simpl; lia.
Qed.

Lemma machine_run_sound (classes : list Z) :
  forall st frame f,
    first_frame st frame <= frame ->
    (st <> NOT_IN_SILENCE -> first_frame st frame < frame) ->
    frame <= f ->
    in_non_speech (machine_run symbol_idx st frame classes) f = true ->
    nth_error classes (Z.to_nat (f - frame)) = Some symbol_idx
    \/ nth_error classes (Z.to_nat (f - frame)) = Some 0.
Proof.
  induction classes as [|c classes IH]; intros st frame f H1 H2 Hf Hin.
  - exfalso. destruct st as [|entry]; simpl in Hin; [discriminate|].
    replace (f <=? frame - 1) with false in Hin by (symmetry; apply Z.leb_gt; lia).
    rewrite andb_false_r in Hin. discriminate.
  - cbn [machine_run] in Hin.
    assert (Hclosed : forall entry, entry < frame ->
              in_non_speech [(entry, frame - 1)] f = false).
    { intros entry He. unfold in_non_speech. simpl.
      replace (f <=? frame - 1) with false by (symmetry; apply Z.leb_gt; lia).
      rewrite andb_false_r. reflexivity. }
    destruct (Z.eq_dec f frame) as [-> | Hne].
    + rewrite Z.sub_diag. simpl nth_error.
      destruct st as [|entry]; cbn [machine_step first_frame] in *.
      * destruct (c =? symbol_idx) eqn:E; [apply Z.eqb_eq in E; left; congruence|].
        simpl app in Hin.
        rewrite (not_in_later_intervals _ (frame + 1) frame) in Hin;
          [discriminate| |lia].
        apply (machine_run_from classes NOT_IN_SILENCE (frame + 1));
          [simpl; lia|intros H; contradiction].
      * assert (Hef : entry < frame) by (apply H2; discriminate).
        destruct (negb (c =? 0) && negb (c =? symbol_idx)) eqn:E.
        -- rewrite in_non_speech_app, (Hclosed entry Hef) in Hin. simpl in Hin.
           rewrite (not_in_later_intervals _ (frame + 1) frame) in Hin;
             [discriminate| |lia].
           apply (machine_run_from classes NOT_IN_SILENCE (frame + 1));
             [simpl; lia|intros H; contradiction].
        -- apply andb_false_iff in E.
           destruct E as [E | E]; apply negb_false_iff, Z.eqb_eq in E;
             [right|left]; congruence.
    + rewrite nth_error_shift by lia.
      destruct st as [|entry]; cbn [machine_step first_frame] in *.
      * destruct (c =? symbol_idx); simpl app in Hin;
          (eapply IH; [| |lia|exact Hin]); simpl; try lia;
          intros H; try contradiction; lia.
      * assert (Hef : entry < frame) by (apply H2; discriminate).
        destruct (negb (c =? 0) && negb (c =? symbol_idx)).
        -- rewrite in_non_speech_app, (Hclosed entry Hef) in Hin. simpl in Hin.
           eapply IH; [| |lia|exact Hin]; simpl; try lia.
           intros H; contradiction.
        -- simpl app in Hin. eapply IH; [| |lia|exact Hin]; simpl; lia.
Qed.

Lemma machine_run_starts (classes : list Z) :
  forall st frame,
    Forall (starts_in_silence symbol_idx st frame classes)
           (machine_run symbol_idx st frame classes).
Proof.
  induction classes as [|c classes IH]; intros st frame.
  - destruct st as [|entry]; simpl; [constructor|].
    constructor; [left; reflexivity|constructor].
  - cbn [machine_run].
    assert (Hshift : forall st' iv,
              starts_in_silence symbol_idx st' (frame + 1) classes iv ->
              (match st' with IN_SILENCE entry => fst iv = entry
                            | NOT_IN_SILENCE => False end)
              \/ (frame <= fst iv
                  /\ nth_error (c :: classes) (Z.to_nat (fst iv - frame))
                     = Some symbol_idx)).
    { intros st' iv [H | [H1 H2]]; [left; exact H|right].
      split; [lia|]. rewrite nth_error_shift by lia. exact H2. }
    destruct st as [|entry]; cbn [machine_step].
    + destruct (c =? symbol_idx) eqn:E; simpl app.
      * apply Z.eqb_eq in E. subst c.
        eapply Forall_impl; [|apply (IH (IN_SILENCE frame) (frame + 1))].
        intros iv H. apply Hshift in H. right.
        destruct H as [H | H]; [|exact H].
        rewrite H, Z.sub_diag. split; [lia|reflexivity].
      * eapply Forall_impl; [|apply (IH NOT_IN_SILENCE (frame + 1))].
        intros iv H. apply Hshift in H. right.
        destruct H as [H | H]; [contradiction|exact H].
    + destruct (negb (c =? 0) && negb (c =? symbol_idx)); simpl app.
      * constructor; [left; reflexivity|].
        eapply Forall_impl; [|apply (IH NOT_IN_SILENCE (frame + 1))].
        intros iv H. apply Hshift in H. right.
        destruct H as [H | H]; [contradiction|exact H].
      * eapply Forall_impl; [|apply (IH (IN_SILENCE entry) (frame + 1))].
        intros iv H. apply Hshift in H. exact H.
Qed.

End MachineCoverage.

(** X8.  The intervals of the silence scan and the arg-max class of every
    frame: a frame whose class is the silence index lies in one of the
    intervals; a frame inside an interval has the silence index or 0 as its
    class; and every interval starts at a frame whose class is the silence
    index. *)
Theorem silence_intervals_cover_silence (probs : list (list Q)) (symbol_idx : Z)
    (state_symbol : string) (intervals : list (Z * Z)) :
  state_symbol <> EmptyString ->
  _get_silence_timestamps probs symbol_idx state_symbol = Ok intervals ->
  exists classes,
    argmax_rows probs = Ok classes
    /\ (forall f, class_at classes f = Some symbol_idx ->
                  in_non_speech intervals f = true)
    /\ (forall f, in_non_speech intervals f = true ->
                  class_at classes f = Some symbol_idx \/ class_at classes f = Some 0)
    /\ Forall (fun iv => class_at classes (fst iv) = Some symbol_idx) intervals.
Proof.
  intros Hset H.
  destruct (silence_scan_classes probs symbol_idx state_symbol intervals Hset H)
    as [classes [Hc [_ ->]]].
  exists classes. split; [exact Hc|]. unfold silence_machine, class_at.
  assert (Hfrom : Forall (fun iv => 0 <= fst iv)
                    (machine_run symbol_idx NOT_IN_SILENCE 0 classes)).
  { apply (machine_run_from symbol_idx classes NOT_IN_SILENCE 0);
      [simpl; lia|intros Hn; contradiction]. }
  split; [|split].
  - intros f Hf. destruct (f <? 0) eqn:E; [discriminate|]. apply Z.ltb_ge in E.
    apply machine_run_complete; [simpl; lia|lia|].
    rewrite Z.sub_0_r. exact Hf.
  - intros f Hf. destruct (f <? 0) eqn:E.
    + apply Z.ltb_lt in E.
      rewrite (not_in_later_intervals _ 0 f Hfrom E) in Hf. discriminate.
    + apply Z.ltb_ge in E.
      pose proof (machine_run_sound symbol_idx classes NOT_IN_SILENCE 0 f) as Hs.
      rewrite Z.sub_0_r in Hs. apply Hs; [simpl; lia|intros Hn; contradiction|lia|exact Hf].
  - pose proof (machine_run_starts symbol_idx classes NOT_IN_SILENCE 0) as Hs.
    apply Forall_forall. intros iv Hiv.
    rewrite Forall_forall in Hs, Hfrom. specialize (Hs iv Hiv). specialize (Hfrom iv Hiv).
    destruct Hs as [[] | [_ Hs]]. rewrite Z.sub_0_r in Hs.
    replace (fst iv <? 0) with false by (symmetry; apply Z.ltb_ge; lia). exact Hs.
Qed.

Lemma silence_intervals_cover_silence_witness :
  "blank"%string <> EmptyString
  /\ _get_silence_timestamps
       [one_hot 29 28; one_hot 29 0; one_hot 29 28; one_hot 29 5; one_hot 29 28]
       28 "blank" = Ok [(0, 2); (4, 4)]
  /\ exists classes,
       argmax_rows [one_hot 29 28; one_hot 29 0; one_hot 29 28; one_hot 29 5;
                    one_hot 29 28] = Ok classes
       /\ Forall (fun iv => class_at classes (fst iv) = Some 28) [(0, 2); (4, 4)].
Proof.
  assert (Hne : "blank"%string <> EmptyString) by discriminate.
  assert (Hrun : _get_silence_timestamps
                   [one_hot 29 28; one_hot 29 0; one_hot 29 28; one_hot 29 5;
                    one_hot 29 28] 28 "blank" = Ok [(0, 2); (4, 4)])
    by (vm_compute; reflexivity).
  split; [exact Hne|]. split; [exact Hrun|].
  destruct (silence_intervals_cover_silence _ 28 "blank" _ Hne Hrun)
    as [classes [Hc [_ [_ Hs]]]].
  exists classes. split; [exact Hc|exact Hs].
Defined.

(** ** Voice-activity labels *)

Lemma sorted_filter {A : Type} (R : A -> A -> Prop) (f : A -> bool) (l : list A) :
  StronglySorted R l -> StronglySorted R (filter f l).
Proof.
  induction 1 as [|x l Hs IH Hx]; simpl; [constructor|].
  destruct (f x); [|exact IH].
  constructor; [exact IH|].
  apply Forall_forall. intros y Hy. apply filter_In in Hy.
  rewrite Forall_forall in Hx. apply Hx, Hy.
Qed.

Lemma sorted_adjacent {A : Type} (R : A -> A -> Prop) (d : A) (l : list A) :
  StronglySorted R l ->
  forall i, (S i < length l)%nat -> R (nth i l d) (nth (S i) l d).
Proof.
  induction 1 as [|x l Hs IH Hx]; intros i Hi; [simpl in Hi; lia|].
  destruct i as [|i].
  - simpl. destruct l as [|y l]; [simpl in Hi; lia|].
    inversion Hx; assumption.
  - simpl in Hi. apply (IH i). lia.
Qed.

(** X9.  When the time stride is not zero and at least one blank run is
    wider than the threshold, the voice-activity step succeeds on the
    intervals of the silence scan and returns exactly one speech label per
    kept non-speech interval: the test of the last interval against
    [len(probs)] always passes.  Label [k] prints the times of the end frame
    of interval [k] and of the start frame of interval [k+1], or of
    [len(probs)] for the last one, and the first of these two frames is
    strictly below the second. *)
Theorem vad_one_label_per_interval (probs : list (list Q)) (p : params)
    (blanks : list (Z * Z)) :
  (time_stride p =? 0)%float = false ->
  _get_silence_timestamps probs 28 "blank" = Ok blanks ->
  non_speech_of p blanks <> [] ->
  exists speech_labels,
    get_speech_label_and_write_VAD_rttm (length probs) (non_speech_of p blanks) p
    = Ok speech_labels
    /\ length speech_labels = length (non_speech_of p blanks)
    /\ speech_labels
       = map (fun frames => (to_seconds p (fst frames), to_seconds p (snd frames)))
             (label_frames (non_speech_of p blanks) (length probs))
    /\ Forall (fun frames => fst frames < snd frames)
              (label_frames (non_speech_of p blanks) (length probs)).
Proof.
  intros Hstride Hscan Hne.
  assert (Hblank : "blank"%string <> EmptyString) by discriminate.
  destruct (silence_intervals_ordered_aux probs 28 "blank" blanks Hblank Hscan)
    as [Hb Hs].
  set (ns := non_speech_of p blanks) in *.
  assert (Hbns : Forall (fun iv => 0 <= fst iv /\ fst iv <= snd iv
                                   /\ snd iv < Z.of_nat (length probs)) ns).
  { apply Forall_forall. intros iv Hiv. apply filter_In in Hiv.
    rewrite Forall_forall in Hb. apply Hb, Hiv. }
  assert (Hsns : StronglySorted apart ns) by (apply sorted_filter, Hs).
  assert (Hlen : (0 < length ns)%nat)
    by (destruct ns; [contradiction|simpl; lia]).
  unfold get_speech_label_and_write_VAD_rttm. rewrite Hstride.
  rewrite (py_last_nth ns (0, 0) Hlen), bind_ok.
  assert (Hlast : snd (nth (length ns - 1) ns (0, 0)) < Z.of_nat (length probs)).
  { rewrite Forall_forall in Hbns.
    apply (Hbns (nth (length ns - 1) ns (0, 0))), nth_In. lia. }
  replace (snd (nth (length ns - 1) ns (0, 0)) <? Z.of_nat (length probs)) with true
    by (symmetry; apply Z.ltb_lt; exact Hlast).
  eexists. split; [reflexivity|].
  assert (Hm : exists m, length ns = S m) by (exists (length ns - 1)%nat; lia).
  destruct Hm as [m Hm].
  split; [|split].
  - unfold speech_between. rewrite length_app, length_map, length_seq. simpl. lia.
  - unfold speech_between, label_frames. rewrite Hm.
    replace (S m - 1)%nat with m by lia.
    rewrite seq_S, !map_app. cbn [Nat.add map fst snd]. f_equal.
    + rewrite map_map. apply map_ext_in. intros k Hk. apply in_seq in Hk.
      replace (S k =? S m)%nat with false by (symmetry; apply Nat.eqb_neq; lia).
      rewrite Nat.add_1_r. reflexivity.
    + rewrite Nat.eqb_refl. reflexivity.
  - unfold label_frames. apply Forall_map, Forall_forall.
    intros k Hk. apply in_seq in Hk. cbn [fst snd].
    destruct (S k =? length ns)%nat eqn:E.
    + apply Nat.eqb_eq in E. replace k with (length ns - 1)%nat by lia. exact Hlast.
    + apply Nat.eqb_neq in E.
      pose proof (sorted_adjacent apart (0, 0) ns Hsns k) as Ha.
      unfold apart in Ha. specialize (Ha ltac:(lia)). lia.
Qed.

Lemma vad_one_label_per_interval_witness :
  (time_stride script_params =? 0)%float = false
  /\ _get_silence_timestamps (frames_of two_word_classes) 28 "blank"
     = Ok [(0, 24); (26, 28)]
  /\ non_speech_of script_params [(0, 24); (26, 28)] <> []
  /\ exists speech_labels,
       get_speech_label_and_write_VAD_rttm (length (frames_of two_word_classes))
         (non_speech_of script_params [(0, 24); (26, 28)]) script_params
       = Ok speech_labels
       /\ length speech_labels = 1%nat.
Proof.
  assert (H1 : (time_stride script_params =? 0)%float = false) by reflexivity.
  assert (H2 : _get_silence_timestamps (frames_of two_word_classes) 28 "blank"
               = Ok [(0, 24); (26, 28)]) by (vm_compute; reflexivity).
  assert (H3 : non_speech_of script_params [(0, 24); (26, 28)] <> [])
    by discriminate.
  split; [exact H1|]. split; [exact H2|]. split; [exact H3|].
  destruct (vad_one_label_per_interval (frames_of two_word_classes) script_params
              [(0, 24); (26, 28)] H1 H2 H3) as [labels [Hl [Hn _]]].
  exists labels. split; [exact Hl|exact Hn].
Defined.

(** ** Word timer *)

Lemma substring_list (s : string) :
  forall n m,
    list_ascii_of_string (substring n m s)
    = firstn m (skipn n (list_ascii_of_string s)).
Proof.
  induction s as [|c s IH]; intros n m.
  - destruct n, m; reflexivity.
  - destruct n as [|n].
    + destruct m as [|m]; [reflexivity|]. simpl. rewrite IH. reflexivity.
    + simpl. apply IH.
Qed.

Lemma substring_of_list (trans : string) (n m : nat) :
  substring n m trans
  = string_of_list_ascii (firstn m (skipn n (list_ascii_of_string trans))).
Proof.
  rewrite <- substring_list. symmetry. apply string_of_list_ascii_of_string.
Qed.

Lemma split_acc_nonempty (chars cur : list ascii) : split_acc cur chars <> [].
Proof.
  revert cur; induction chars as [|c chars IH]; intros cur; simpl; [discriminate|].
  destruct (Ascii.eqb c space); [discriminate|apply IH].
Qed.

Lemma string_of_list_ascii_append (a b : list ascii) :
  string_of_list_ascii (a ++ b)
  = (string_of_list_ascii a ++ string_of_list_ascii b)%string.
Proof. induction a as [|x a IH]; simpl; [|rewrite IH]; reflexivity. Qed.

Lemma concat_split_acc (chars : list ascii) :
  forall cur,
    String.concat " " (map string_of_list_ascii (split_acc cur chars))
    = string_of_list_ascii (cur ++ chars).
Proof.
  induction chars as [|c chars IH]; intros cur.
  - simpl. rewrite app_nil_r. reflexivity.
  - simpl split_acc. destruct (Ascii.eqb c space) eqn:E.
    + apply Ascii.eqb_eq in E. subst c.
      pose proof (split_acc_nonempty chars []) as Hne.
      specialize (IH []).
      destruct (split_acc [] chars) as [|w ws]; [contradiction|].
      cbn [map] in *.
      change (String.concat " " (string_of_list_ascii cur
                                   :: string_of_list_ascii w
                                   :: map string_of_list_ascii ws))
        with (string_of_list_ascii cur ++ " "
              ++ String.concat " " (string_of_list_ascii w
                                      :: map string_of_list_ascii ws))%string.
      rewrite IH. simpl app. rewrite string_of_list_ascii_append. reflexivity.
    + rewrite IH, <- app_assoc. reflexivity.
Qed.

Lemma space_positions_none (chars : list ascii) (k : nat) :
  space_positions chars k = [] <-> Forall (fun c => c <> space) chars.
Proof.
  revert k; induction chars as [|c chars IH]; intros k; simpl.
  - split; constructor.
  - destruct (Ascii.eqb c space) eqn:E.
    + apply Ascii.eqb_eq in E. split; [discriminate|].
      intros H. inversion H. contradiction.
    + apply Ascii.eqb_neq in E. rewrite IH. split.
      * intros H. constructor; assumption.
      * intros H. inversion H. assumption.
Qed.

Lemma split_acc_no_space (chars : list ascii) :
  forall cur,
    Forall (fun c => c <> space) cur ->
    Forall (fun w => Forall (fun c => c <> space) w) (split_acc cur chars).
Proof.
  induction chars as [|c chars IH]; intros cur Hcur; simpl.
  - constructor; [exact Hcur|constructor].
  - destruct (Ascii.eqb c space) eqn:E.
    + constructor; [exact Hcur|]. apply IH. constructor.
    + apply IH. apply Forall_app. split; [exact Hcur|].
      constructor; [|constructor]. apply Ascii.eqb_neq, E.
Qed.

Section SpacesWords.

Variable trans : string.
Variable timestamps : list Z.

Lemma spaces_loop_words (chars : list ascii) :
  forall (before : list ascii) (spaces spaces' : list (Z * Z))
         (word_list word_list' : list string) (stt_idx stt_idx' : nat),
    list_ascii_of_string trans = before ++ chars ->
    (stt_idx <= length before)%nat ->
    spaces_loop trans timestamps (enumerate_from (length before) chars)
      spaces word_list stt_idx = Ok (spaces', word_list', stt_idx') ->
    word_list' ++ [substring stt_idx' (String.length trans - stt_idx') trans]
    = word_list ++ map string_of_list_ascii (split_acc (skipn stt_idx before) chars).
Proof.
  induction chars as [|c chars IH];
    intros before spaces spaces' wl wl' stt stt' Hall Hstt Hloop.
  - simpl in Hloop. injection Hloop as _ <- <-. simpl. f_equal. f_equal.
    rewrite substring_of_list, Hall, app_nil_r. f_equal.
    apply firstn_all2. rewrite length_skipn, <- length_list_ascii, Hall, app_nil_r.
    lia.
  - rewrite enumerate_from_cons in Hloop. cbn [spaces_loop] in Hloop.
    assert (Hall' : list_ascii_of_string trans = (before ++ [c]) ++ chars)
      by (rewrite <- app_assoc; exact Hall).
    assert (Hlen' : length (before ++ [c]) = S (length before))
      by (rewrite length_app; simpl; lia).
    simpl split_acc. destruct (Ascii.eqb c space) eqn:E.
    + destruct (py_get timestamps (length before)) as [a|e]; [|discriminate].
      destruct (py_get timestamps (length before + 1)) as [b|e]; [|discriminate].
      rewrite !bind_ok in Hloop.
      rewrite Nat.add_1_r, <- Hlen' in Hloop.
      apply (IH (before ++ [c])) in Hloop; [|exact Hall'|lia].
      rewrite Hloop, <- app_assoc. f_equal. simpl. f_equal.
      * rewrite substring_of_list, Hall. f_equal.
        rewrite skipn_app.
        replace (stt - length before)%nat with 0%nat by lia. simpl skipn.
        rewrite firstn_app, length_skipn.
        replace (length before - stt - (length before - stt))%nat with 0%nat by lia.
        simpl firstn. rewrite app_nil_r. apply firstn_all2.
        rewrite length_skipn. lia.
      * rewrite skipn_all2 by lia. reflexivity.
    + rewrite <- Hlen' in Hloop.
      apply (IH (before ++ [c])) in Hloop; [|exact Hall'|lia].
      rewrite Hloop. do 3 f_equal.
      rewrite skipn_app. replace (stt - length before)%nat with 0%nat by lia.
      reflexivity.
Qed.

End SpacesWords.

Lemma split_acc_length (chars : list ascii) :
  forall cur k,
    length (split_acc cur chars) = S (length (space_positions chars k)).
Proof.
  induction chars as [|c chars IH]; intros cur k; simpl; [reflexivity|].
  destruct (Ascii.eqb c space); simpl; [f_equal|]; apply IH.
Qed.

Lemma get_spaces_words (trans : string) (timestamps : list Z)
    (spaces : list (Z * Z)) (words : list string) :
  _get_spaces trans timestamps = Ok (spaces, words) ->
  words = split_spaces trans
  \/ (exists last, words ++ [last] = split_spaces trans).
Proof.
  unfold _get_spaces. intros H.
  destruct (py_assert _) as [[]|e]; [|discriminate]. rewrite bind_ok in H.
  destruct (py_assert _) as [[]|e]; [|discriminate]. rewrite bind_ok in H.
  destruct (spaces_loop trans timestamps (enumerate (list_ascii_of_string trans))
              [] [] 0%nat) as [[[sp wl] stt]|e] eqn:Hloop; [|discriminate].
  rewrite bind_ok in H.
  pose proof (spaces_loop_words trans timestamps (list_ascii_of_string trans)
                [] [] sp [] wl 0%nat stt eq_refl (Nat.le_refl _) Hloop) as Hw.
  simpl in Hw. fold (split_spaces trans) in Hw.
  destruct ((stt <? String.length trans)%nat && _); injection H as _ <-.
  - left. exact Hw.
  - right. eexists. exact Hw.
Qed.

(** X10.  On a non-empty text without a trailing space, timed by as many
    timestamps as it has characters, [_get_spaces] returns the text cut at
    every space, as [trans.split(' ')] would: no word holds a space, there is
    one word more than boundaries, and joining the words with single spaces
    gives the text back. *)
Theorem get_spaces_splits_text (trans : string) (timestamps : list Z) :
  String.length trans = length timestamps ->
  (0 < String.length trans)%nat ->
  ends_with_space trans = false ->
  exists spaces words,
    _get_spaces trans timestamps = Ok (spaces, words)
    /\ words = split_spaces trans
    /\ length words = S (length spaces)
    /\ Forall (fun w => Forall (fun c => c <> space) (list_ascii_of_string w)) words
    /\ String.concat " " words = trans.
Proof.
  intros Hlen Hpos Hend.
  destruct (get_spaces_ok trans timestamps Hlen Hpos Hend) as [words [Hget Hcount]].
  assert (Hsplit : length (split_spaces trans) = space_delimited_tokens trans).
  { unfold split_spaces, space_delimited_tokens.
    rewrite length_map. apply split_acc_length. }
  assert (Hw : words = split_spaces trans).
  { destruct (get_spaces_words trans timestamps _ words Hget) as [H | [last H]];
      [exact H|].
    apply (f_equal (@length string)) in H. rewrite length_app in H. simpl in H. lia. }
  exists (boundaries trans timestamps), words.
  split; [exact Hget|]. split; [exact Hw|]. split; [|split].
  - rewrite Hcount. unfold space_delimited_tokens, boundaries.
    rewrite length_map. reflexivity.
  - rewrite Hw. unfold split_spaces. apply Forall_map.
    eapply Forall_impl; [|apply split_acc_no_space; constructor].
    intros w Hwd. rewrite list_ascii_of_string_of_list_ascii. exact Hwd.
  - rewrite Hw. unfold split_spaces. rewrite concat_split_acc. simpl.
    apply string_of_list_ascii_of_string.
Qed.

Lemma get_spaces_splits_text_witness :
  String.length "a b" = length [25; 27; 29]
  /\ (0 < String.length "a b")%nat
  /\ ends_with_space "a b" = false
  /\ exists spaces words,
       _get_spaces "a b" [25; 27; 29] = Ok (spaces, words)
       /\ String.concat " " words = "a b"%string.
Proof.
  split; [reflexivity|]. split; [simpl; lia|]. split; [reflexivity|].
  destruct (get_spaces_splits_text "a b" [25; 27; 29] eq_refl
              (Nat.lt_0_succ 2) eq_refl) as [sp [words [H1 [_ [_ [_ H2]]]]]].
  exists sp, words. split; [exact H1|exact H2].
Defined.

Lemma space_positions_complete (chars : list ascii) :
  forall k i,
    nth_error chars i = Some space -> In (k + i)%nat (space_positions chars k).
Proof.
  induction chars as [|c chars IH]; intros k i H; [destruct i; discriminate|].
  destruct i as [|i]; simpl in H |- *.
  - injection H as ->. rewrite Ascii.eqb_refl, Nat.add_0_r. left. reflexivity.
  - replace (k + S i)%nat with (S k + i)%nat by lia.
    destruct (Ascii.eqb c space); [right|]; apply IH, H.
Qed.

Lemma spaces_loop_in_range (trans : string) (timestamps : list Z)
    (chars : list ascii) :
  forall k spaces word_list stt_idx r,
    spaces_loop trans timestamps (enumerate_from k chars) spaces word_list stt_idx
    = Ok r ->
    forall pos, In pos (space_positions chars k) -> (S pos < length timestamps)%nat.
Proof.
  induction chars as [|c chars IH]; intros k spaces wl stt r H pos Hin;
    [contradiction|].
  rewrite enumerate_from_cons in H. cbn [spaces_loop] in H. simpl in Hin.
  destruct (Ascii.eqb c space).
  - destruct (py_get timestamps k) as [a|e]; [|discriminate].
    destruct (py_get timestamps (k + 1)) as [b|e] eqn:Hb; [|discriminate].
    rewrite !bind_ok in H. destruct Hin as [<- | Hin].
    + apply py_get_ok in Hb.
      assert (Hs : nth_error timestamps (k + 1) <> None) by congruence.
      apply nth_error_Some in Hs. lia.
    + rewrite Nat.add_1_r in H. eapply IH; eassumption.
  - eapply IH; eassumption.
Qed.

Lemma get_spaces_trailing_space (trans : string) (timestamps : list Z) :
  String.length trans = length timestamps ->
  ends_with_space trans = true ->
  _get_spaces trans timestamps = Raise IndexError.
Proof.
  intros Hlen Hend.
  assert (Hlast : nth_error (list_ascii_of_string trans) (String.length trans - 1)
                  = Some space).
  { unfold ends_with_space in Hend.
    destruct (last_char trans) as [c|] eqn:Hc; [|discriminate].
    apply Ascii.eqb_eq in Hend. subst c. apply last_char_nth, Hc. }
  assert (Hpos : (0 < String.length trans)%nat).
  { assert (Hs : nth_error (list_ascii_of_string trans) (String.length trans - 1)
                 <> None) by congruence.
    apply nth_error_Some in Hs. rewrite length_list_ascii in Hs. lia. }
  unfold _get_spaces.
  replace ((0 <? String.length trans)%nat && (0 <? length timestamps)%nat) with true
    by (symmetry; apply andb_true_iff; split; apply Nat.ltb_lt; lia).
  replace (String.length trans =? length timestamps)%nat with true
    by (symmetry; apply Nat.eqb_eq; exact Hlen).
  simpl py_assert. rewrite !bind_ok. unfold enumerate.
  destruct (spaces_loop trans timestamps
              (enumerate_from 0 (list_ascii_of_string trans)) [] [] 0%nat)
    as [r|e] eqn:Hloop.
  - exfalso.
    pose proof (spaces_loop_in_range trans timestamps _ 0%nat [] [] 0%nat r Hloop
                  (String.length trans - 1)%nat
                  (space_positions_complete _ 0%nat _ Hlast)) as Hr.
    lia.
  - apply spaces_loop_raises in Hloop. subst e. reflexivity.
Qed.

(** X11.  A text that ends with a space, timed by as many timestamps as it
    has characters, makes [_get_spaces] raise [IndexError]: the boundary of
    the last space reads [timestamps[k+1]] past the end. *)
Theorem get_spaces_trailing_space_raises (trans : string) (timestamps : list Z) :
  String.length trans = length timestamps ->
  ends_with_space trans = true ->
  _get_spaces trans timestamps = Raise IndexError.
Proof. apply get_spaces_trailing_space. Qed.

Lemma get_spaces_trailing_space_raises_witness :
  String.length "a " = length [25; 27]
  /\ ends_with_space "a " = true
  /\ _get_spaces "a " [25; 27] = Raise IndexError.
Proof.
  split; [reflexivity|]. split; [reflexivity|].
  exact (get_spaces_trailing_space_raises "a " [25; 27] eq_refl eq_refl).
Defined.

Lemma silence_scan_raises (probs : list (list Q)) (symbol_idx : Z) (e : exn) :
  _get_silence_timestamps probs symbol_idx "blank" = Raise e ->
  e = IndexError \/ e = ValueError.
Proof.
  rewrite (silence_scan_machine symbol_idx "blank") by discriminate.
  destruct probs as [|row rest]; [intros H; injection H as <-; left; reflexivity|].
  assert (Hrows : forall rows e', argmax_rows rows = Raise e' -> e' = ValueError).
  { induction rows as [|r rows IH]; intros e' H; [discriminate|].
    cbn [argmax_rows] in H. destruct r as [|x r]; simpl in H; [congruence|].
    destruct (argmax_rows rows) as [cs|e0]; [discriminate|].
    simpl in H. injection H as <-. apply IH. reflexivity. }
  destruct (argmax_rows (row :: rest)) as [cs|e0] eqn:Hc; [discriminate|].
  intros H. injection H as <-. right. eapply Hrows, Hc.
Qed.

Lemma vad_raises (n_probs : nat) (non_speech : list (Z * Z)) (p : params) (e : exn) :
  get_speech_label_and_write_VAD_rttm n_probs non_speech p = Raise e ->
  e = ZeroDivisionError \/ e = IndexError.
Proof.
  unfold get_speech_label_and_write_VAD_rttm.
  destruct (time_stride p =? 0)%float; [intros H; injection H as <-; auto|].
  unfold py_last. destruct (rev non_speech) as [|x l].
  - intros H. injection H as <-. auto.
  - rewrite bind_ok. destruct (snd x <? Z.of_nat n_probs); discriminate.
Qed.

Lemma word_timetamps_result (timestamps : list Z) (_spaces : list (Z * Z))
    (n_frames : Z) :
  match word_timetamps timestamps _spaces n_frames with
  | Ok wts => length wts = S (length _spaces)
  | Raise e => e = IndexError
  end.
Proof.
  unfold word_timetamps, py_get, py_last.
  destruct (nth_error timestamps 0) as [t0|]; [|reflexivity]. rewrite bind_ok.
  destruct _spaces as [|s0 rest]; [reflexivity|].
  cbn [nth_error]. rewrite bind_ok.
  destruct (rev (s0 :: rest)) as [|sl l] eqn:Hrev.
  - apply (f_equal (@length (Z * Z))) in Hrev. rewrite length_rev in Hrev. discriminate.
  - rewrite bind_ok. simpl. rewrite length_app. unfold word_timetamps_middle.
    rewrite length_map, length_seq. simpl. lia.
Qed.

(** X12.  The body of the loop of [get_speech_labels_list] raises
    [AssertionError] only at the entry of [_get_spaces]: exactly when
    [softmax] has returned, the [logit] having at least one entry, and the
    text or the timestamps are empty or differ in length.  The count
    assertion at the end of the loop body (line 489) never fails. *)
Theorem word_timer_count_assertion_never_fails (trans : string)
    (logit : list (list Q)) (timestamps : list Z) (p : params) :
  get_speech_labels_one trans logit timestamps p = Raise AssertionError
  <-> (concat logit <> []
       /\ ((0 <? String.length trans)%nat && (0 <? length timestamps)%nat
           && (String.length trans =? length timestamps)%nat) = false).
Proof.
  unfold get_speech_labels_one, softmax.
  destruct (concat logit) as [|x rest]; [split; [discriminate|intros [H _]; congruence]|].
  rewrite bind_ok. set (probs := logit).
  split.
  - intros H. split; [discriminate|].
    destruct ((0 <? String.length trans)%nat && (0 <? length timestamps)%nat
              && (String.length trans =? length timestamps)%nat) eqn:Hc;
      [exfalso|reflexivity].
    apply andb_prop in Hc. destruct Hc as [Hc Heq]. apply andb_prop in Hc.
    destruct Hc as [Hpos _]. apply Nat.ltb_lt in Hpos. apply Nat.eqb_eq in Heq.
    destruct (ends_with_space trans) eqn:Hend.
    + rewrite (get_spaces_trailing_space trans timestamps Heq Hend) in H. discriminate.
    + destruct (get_spaces_ok trans timestamps Heq Hpos Hend) as [words [Hget Hcount]].
      rewrite Hget, bind_ok in H.
      destruct (_get_silence_timestamps probs 28 "blank") as [blanks|e] eqn:Hs.
      2:{ apply silence_scan_raises in Hs. simpl in H. destruct Hs; congruence. }
      rewrite bind_ok in H.
      destruct (get_speech_label_and_write_VAD_rttm (length probs)
                  (non_speech_of p blanks) p) as [labels|e] eqn:Hv.
      2:{ apply vad_raises in Hv. simpl in H. destruct Hv; congruence. }
      rewrite bind_ok in H.
      pose proof (word_timetamps_result timestamps (boundaries trans timestamps)
                    (Z.of_nat (length probs))) as Hw.
      destruct (word_timetamps timestamps (boundaries trans timestamps)
                  (Z.of_nat (length probs))) as [wts|e].
      * rewrite bind_ok in H.
        replace (length words =? length wts)%nat with true in H; [discriminate|].
        symmetry. apply Nat.eqb_eq. rewrite Hcount, Hw.
        unfold space_delimited_tokens, boundaries. rewrite length_map. reflexivity.
      * simpl in H. congruence.
  - intros [_ Hc]. unfold _get_spaces.
    destruct ((0 <? String.length trans)%nat && (0 <? length timestamps)%nat);
      [|reflexivity].
    simpl in Hc. rewrite Hc. reflexivity.
Qed.

Lemma sorted_nth {A : Type} (R : A -> A -> Prop) (d : A) (l : list A) :
  StronglySorted R l ->
  forall i j, (i < j < length l)%nat -> R (nth i l d) (nth j l d).
Proof.
  induction 1 as [|x l Hs IH Hx]; intros i j Hij; [simpl in Hij; lia|].
  destruct j as [|j]; [lia|]. destruct i as [|i].
  - simpl. rewrite Forall_forall in Hx. apply Hx, nth_In. simpl in Hij. lia.
  - simpl. apply IH. simpl in Hij. lia.
Qed.

Lemma timestamps_le (timestamps : list Z) (i j : nat) :
  StronglySorted Z.lt timestamps ->
  (i <= j < length timestamps)%nat ->
  nth i timestamps 0 <= nth j timestamps 0.
Proof.
  intros Hs Hij. destruct (Nat.eq_dec i j) as [-> | Hne]; [lia|].
  pose proof (sorted_nth Z.lt 0 timestamps Hs i j). lia.
Qed.

Lemma space_positions_sorted (chars : list ascii) :
  forall k, StronglySorted lt (space_positions chars k).
Proof.
  induction chars as [|c chars IH]; intros k; simpl; [constructor|].
  destruct (Ascii.eqb c space); [|apply IH].
  constructor; [apply IH|].
  apply Forall_forall. intros pos Hpos. apply space_positions_In in Hpos. lia.
Qed.

Lemma space_positions_inner (trans : string) (pos : nat) :
  ends_with_space trans = false ->
  In pos (space_positions (list_ascii_of_string trans) 0) ->
  (S pos < String.length trans)%nat.
Proof.
  intros Hend Hin. apply space_positions_In in Hin. destruct Hin as [Hr Hn].
  simpl in Hr. rewrite Nat.sub_0_r in Hn. rewrite length_list_ascii in Hr.
  assert (Hpos : (0 < String.length trans)%nat) by lia.
  pose proof (no_space_at_end trans Hpos Hend) as Hlast.
  destruct (Nat.eq_dec pos (String.length trans - 1)) as [-> | Hne];
    [contradiction|lia].
Qed.

Lemma nth_map_default {A B : Type} (f : A -> B) (l : list A) (i : nat) (d : A)
    (d' : B) :
  (i < length l)%nat -> nth i (map f l) d' = f (nth i l d).
Proof.
  intros H. rewrite (nth_indep _ d' (f d)) by (rewrite length_map; exact H).
  apply map_nth.
Qed.

(** X13.  When the timestamps are strictly increasing and below the number
    of frames, as the decoder produces them, the timing windows of the words
    are well formed and in order: every window starts at or before its end,
    and ends at or before the start of the next one. *)
Theorem word_windows_ordered (trans : string) (timestamps : list Z) (n_frames : Z) :
  String.length trans = length timestamps ->
  ends_with_space trans = false ->
  (0 < length (space_positions (list_ascii_of_string trans) 0))%nat ->
  StronglySorted Z.lt timestamps ->
  Forall (fun x => x < n_frames) timestamps ->
  exists wts,
    word_timetamps timestamps (boundaries trans timestamps) n_frames = Ok wts
    /\ Forall (fun w => fst w <= snd w) wts
    /\ forall i, (S i < length wts)%nat ->
         snd (nth i wts (0, 0)) <= fst (nth (S i) wts (0, 0)).
Proof.
  intros Hlen Hend Hsp Hsorted Hbound.
  set (P := space_positions (list_ascii_of_string trans) 0) in *.
  assert (HP : forall i, (i < length P)%nat -> (S (nth i P 0%nat) < length timestamps)%nat).
  { intros i Hi. rewrite <- Hlen. apply space_positions_inner; [exact Hend|].
    apply nth_In, Hi. }
  assert (HPs : forall i j, (i < j < length P)%nat -> (nth i P 0 < nth j P 0)%nat).
  { intros i j Hij. apply (sorted_nth lt 0%nat P); [|exact Hij].
    apply space_positions_sorted. }
  assert (Hb : forall i, (i < length P)%nat ->
             nth i (boundaries trans timestamps) (0, 0)
             = (nth (nth i P 0%nat) timestamps 0,
                nth (S (nth i P 0%nat)) timestamps 0 - 1)).
  { intros i Hi. unfold boundaries. fold P.
    rewrite (nth_map_default _ P i 0%nat) by exact Hi. reflexivity. }
  assert (Hbl : length (boundaries trans timestamps) = length P)
    by (unfold boundaries; rewrite length_map; reflexivity).
  assert (Hub : forall k, (k < length timestamps)%nat -> nth k timestamps 0 < n_frames).
  { intros k Hk. rewrite Forall_forall in Hbound. apply Hbound, nth_In, Hk. }
  destruct (word_timetamps_ok timestamps (boundaries trans timestamps) n_frames)
    as [wts [Hw [Hl Hn]]]; [specialize (HP 0%nat Hsp); lia | lia |].
  exists wts. split; [exact Hw|]. rewrite Hbl in *. split.
  - apply Forall_forall. intros w Hin.
    destruct (In_nth wts w (0, 0) Hin) as [i [Hi <-]].
    rewrite (Hn i Hi). cbn [fst snd].
    destruct (Nat.eqb_spec i 0) as [-> | Hi0].
    + replace (0 =? length P)%nat with false by (symmetry; apply Nat.eqb_neq; lia).
      rewrite (Hb 0%nat Hsp). cbn [fst].
      apply timestamps_le; [exact Hsorted|]. specialize (HP 0%nat Hsp). lia.
    + rewrite (Hb (i - 1)%nat) by lia. cbn [snd].
      destruct (Nat.eqb_spec i (length P)) as [-> | Him].
      * specialize (HP (length P - 1)%nat ltac:(lia)).
        specialize (Hub _ HP). lia.
      * rewrite (Hb i) by lia. cbn [fst].
        assert (nth (S (nth (i - 1) P 0%nat)) timestamps 0
                <= nth (nth i P 0%nat) timestamps 0).
        { apply timestamps_le; [exact Hsorted|].
          specialize (HPs (i - 1)%nat i ltac:(lia)).
          specialize (HP i ltac:(lia)). lia. }
        lia.
  - intros i Hi. rewrite (Hn i) by lia. rewrite (Hn (S i) Hi). cbn [fst snd].
    replace (i =? length P)%nat with false by (symmetry; apply Nat.eqb_neq; lia).
    change (S i =? 0)%nat with false. cbn iota.
    replace (S i - 1)%nat with i by lia.
    rewrite (Hb i) by lia. cbn [fst snd].
    pose proof (sorted_nth Z.lt 0 timestamps Hsorted (nth i P 0%nat)
                  (S (nth i P 0%nat))) as Hlt.
    specialize (HP i ltac:(lia)). specialize (Hlt ltac:(lia)). lia.
Qed.

Lemma word_windows_ordered_witness :
  String.length "a b" = length [25; 27; 29]
  /\ ends_with_space "a b" = false
  /\ StronglySorted Z.lt [25; 27; 29]
  /\ Forall (fun x => x < 30) [25; 27; 29]
  /\ exists wts,
       word_timetamps [25; 27; 29] (boundaries "a b" [25; 27; 29]) 30 = Ok wts
       /\ Forall (fun w => fst w <= snd w) wts.
Proof.
  assert (Hs : StronglySorted Z.lt [25; 27; 29])
    by (repeat constructor; lia).
  assert (Hb : Forall (fun x => x < 30) [25; 27; 29])
    by (repeat constructor; lia).
  split; [reflexivity|]. split; [reflexivity|]. split; [exact Hs|]. split; [exact Hb|].
  destruct (word_windows_ordered "a b" [25; 27; 29] 30 eq_refl eq_refl
              (Nat.lt_0_succ 0) Hs Hb) as [wts [H1 [H2 _]]].
  exists wts. split; [exact H1|exact H2].
Defined.

(** ** Speaker attributor *)

Lemma pointer_before_step (p : params) (labels : list turn)
    (word_ts_list spaces : list (Z * Z)) (j : nat) :
  (pointer_before p labels word_ts_list spaces j
   <= pointer_before p labels word_ts_list spaces (S j)
   <= S (pointer_before p labels word_ts_list spaces j))%nat.
Proof.
  cbn [pointer_before]. destruct (_ <? _)%float; lia.
Qed.

Lemma pointer_before_le (p : params) (labels : list turn)
    (word_ts_list spaces : list (Z * Z)) (j : nat) :
  (pointer_before p labels word_ts_list spaces j <= j)%nat.
Proof.
  induction j as [|j IH]; [simpl; lia|].
  pose proof (pointer_before_step p labels word_ts_list spaces j). lia.
Qed.

(** X14.  In a run of the speaker attributor that succeeds, the speakers
    given to the words follow the turn list in order: word after word the
    turn index stays or moves on by one, never back, it starts at the first
    or the second turn, and it ends at a turn of the list; the transcript
    holds one header more than the index of the last turn used. *)
Theorem attribution_follows_turns (p : params) (labels : list turn)
    (words : list string) (word_ts_list spaces : list (Z * Z)) (a : attribution) :
  write_json_and_transcript labels words word_ts_list spaces p = Ok a ->
  exists turns_used,
    length turns_used = length word_ts_list
    /\ speakers_of a = map (fun i => speaker (nth i labels no_turn)) turns_used
    /\ (nth 0 turns_used 0 <= 1)%nat
    /\ (forall j, (S j < length turns_used)%nat ->
          (nth j turns_used 0 <= nth (S j) turns_used 0 <= S (nth j turns_used 0))%nat)
    /\ Forall (fun i => (i <= idx a)%nat) turns_used
    /\ (idx a <= length word_ts_list)%nat
    /\ (idx a < length labels)%nat
    /\ headers_of a = S (idx a).
Proof.
  intros Hrun.
  destruct (run_attributed p labels words word_ts_list spaces a Hrun)
    as [Hlen [Hidx [Hcur [_ [Hhead [Hspk _]]]]]].
  set (n := length word_ts_list) in *.
  set (tp := turn_pointer p labels word_ts_list spaces) in *.
  assert (Hmono : forall i j, (i <= j)%nat ->
            (pointer_before p labels word_ts_list spaces i
             <= pointer_before p labels word_ts_list spaces j)%nat).
  { intros i j Hij. induction Hij as [|j Hij IH]; [lia|].
    pose proof (pointer_before_step p labels word_ts_list spaces j). lia. }
  exists (map tp (seq 0 n)).
  assert (Hl : length (map tp (seq 0 n)) = n) by (rewrite length_map, length_seq; reflexivity).
  assert (Hnth : forall j, (j < n)%nat -> nth j (map tp (seq 0 n)) 0%nat = tp j).
  { intros j Hj. apply nth_map_seq, Hj. }
  split; [exact Hl|]. split; [|split; [|split; [|split; [|split; [|split]]]]].
  - apply (nth_ext _ _ EmptyString EmptyString).
    + unfold speakers_of. rewrite !length_map, length_seq. exact Hlen.
    + intros j Hj. unfold speakers_of in Hj. rewrite length_map, Hlen in Hj.
      rewrite (Hspk j Hj).
      rewrite (nth_map_default _ (map tp (seq 0 n)) j 0%nat) by lia.
      rewrite (Hnth j Hj). reflexivity.
  - destruct n as [|n']; [simpl; lia|].
    rewrite (Hnth 0%nat) by lia. unfold tp, turn_pointer.
    pose proof (pointer_before_step p labels word_ts_list spaces 0). simpl in *. lia.
  - intros j Hj. rewrite Hl in Hj. rewrite !Hnth by lia. unfold tp, turn_pointer.
    apply pointer_before_step.
  - apply Forall_forall. intros i Hi. apply in_map_iff in Hi.
    destruct Hi as [j [<- Hj]]. apply in_seq in Hj. rewrite Hidx.
    unfold tp, turn_pointer. apply Hmono. lia.
  - rewrite Hidx. apply pointer_before_le.
  - apply nth_error_Some. congruence.
  - exact Hhead.
Qed.

Lemma attribution_follows_turns_witness :
  exists a,
    write_json_and_transcript short_turns example_words example_word_ts
      example_spaces unit_params = Ok a
    /\ (idx a < length short_turns)%nat
    /\ headers_of a = S (idx a).
Proof.
  assert (H : exists a,
             write_json_and_transcript short_turns example_words example_word_ts
               example_spaces unit_params = Ok a)
    by (eexists; reflexivity).
  destruct H as [a Ha]. exists a. split; [exact Ha|].
  destruct (attribution_follows_turns unit_params short_turns example_words
              example_word_ts example_spaces a Ha)
    as [used [_ [_ [_ [_ [_ [_ [H1 H2]]]]]]]].
  split; [exact H1|exact H2].
Defined.

(** ** Recording names and the scorer's driver *)

Lemma list_ascii_of_string_append (s1 s2 : string) :
  list_ascii_of_string (s1 ++ s2)
  = list_ascii_of_string s1 ++ list_ascii_of_string s2.
Proof. induction s1 as [|c s1 IH]; simpl; [|rewrite IH]; reflexivity. Qed.

Lemma split_last_absent (c : ascii) (s : list ascii) :
  Forall (fun x => x <> c) s -> split_last c s = None.
Proof.
  induction 1 as [|x s Hx Hs IH]; [reflexivity|].
  simpl. rewrite IH. apply Ascii.eqb_neq in Hx. rewrite Hx. reflexivity.
Qed.

Lemma split_last_found (c : ascii) (before after : list ascii) :
  Forall (fun x => x <> c) after ->
  split_last c (before ++ c :: after) = Some (before, after).
Proof.
  intros H. induction before as [|x before IH]; simpl.
  - rewrite (split_last_absent c after H), Ascii.eqb_refl. reflexivity.
  - rewrite IH. reflexivity.
Qed.

Lemma basename_of_path (dir name : string) :
  Forall (fun x => x <> "/"%char) (list_ascii_of_string name) ->
  basename (dir ++ "/" ++ name) = name /\ basename name = name.
Proof.
  intros H. unfold basename. split.
  - rewrite list_ascii_of_string_append. simpl list_ascii_of_string.
    rewrite (split_last_found _ _ _ H).
    apply string_of_list_ascii_of_string.
  - rewrite (split_last_absent _ _ H). reflexivity.
Qed.

(** X15.  The unique id of a recording is its file name without the
    directory and without the last extension: for a path [dir/stem.ext], and
    for [stem.ext] alone, it is [stem], which may itself hold dots. *)
Theorem uniq_id_of_path (dir stem ext : string) :
  Forall (fun x => x <> "/"%char) (list_ascii_of_string stem) ->
  Forall (fun x => x <> "/"%char /\ x <> "."%char) (list_ascii_of_string ext) ->
  get_uniq_id_from_audio_path (dir ++ "/" ++ stem ++ "." ++ ext) = stem
  /\ get_uniq_id_from_audio_path (stem ++ "." ++ ext) = stem.
Proof.
  intros Hstem Hext.
  assert (Hname : Forall (fun x => x <> "/"%char)
                    (list_ascii_of_string (stem ++ "." ++ ext))).
  { rewrite list_ascii_of_string_append. apply Forall_app. split; [exact Hstem|].
    simpl. constructor; [discriminate|].
    eapply Forall_impl; [|exact Hext]. simpl. intros x [Hx _]. exact Hx. }
  assert (Hdot : Forall (fun x => x <> "."%char) (list_ascii_of_string ext)).
  { eapply Forall_impl; [|exact Hext]. simpl. intros x [_ Hx]. exact Hx. }
  destruct (basename_of_path dir (stem ++ "." ++ ext) Hname) as [H1 H2].
  unfold get_uniq_id_from_audio_path. rewrite H1, H2.
  rewrite list_ascii_of_string_append. simpl list_ascii_of_string.
  rewrite (split_last_found _ _ _ Hdot).
  split; apply string_of_list_ascii_of_string.
Qed.

Lemma uniq_id_of_path_witness :
  Forall (fun x => x <> "/"%char) (list_ascii_of_string "en.0638")
  /\ Forall (fun x => x <> "/"%char /\ x <> "."%char) (list_ascii_of_string "wav")
  /\ get_uniq_id_from_audio_path "/disk2/audio/en.0638.wav" = "en.0638"%string.
Proof.
  assert (H1 : Forall (fun x => x <> "/"%char) (list_ascii_of_string "en.0638"))
    by (repeat constructor; discriminate).
  assert (H2 : Forall (fun x => x <> "/"%char /\ x <> "."%char)
                 (list_ascii_of_string "wav"))
    by (repeat constructor; discriminate).
  split; [exact H1|]. split; [exact H2|].
  exact (proj1 (uniq_id_of_path "/disk2/audio" "en.0638" "wav" H1 H2)).
Defined.

(** X16.  A recording whose file name has no dot gets the empty unique id,
    whatever the name is. *)
Theorem uniq_id_without_extension (dir name : string) :
  Forall (fun x => x <> "/"%char /\ x <> "."%char) (list_ascii_of_string name) ->
  get_uniq_id_from_audio_path (dir ++ "/" ++ name) = EmptyString
  /\ get_uniq_id_from_audio_path name = EmptyString.
Proof.
  intros H.
  assert (Hs : Forall (fun x => x <> "/"%char) (list_ascii_of_string name))
    by (eapply Forall_impl; [|exact H]; simpl; intros x [Hx _]; exact Hx).
  assert (Hd : Forall (fun x => x <> "."%char) (list_ascii_of_string name))
    by (eapply Forall_impl; [|exact H]; simpl; intros x [_ Hx]; exact Hx).
  destruct (basename_of_path dir name Hs) as [H1 H2].
  unfold get_uniq_id_from_audio_path.
  rewrite H1, H2, (split_last_absent _ _ Hd). split; reflexivity.
Qed.

Lemma uniq_id_without_extension_witness :
  Forall (fun x => x <> "/"%char /\ x <> "."%char) (list_ascii_of_string "session7")
  /\ get_uniq_id_from_audio_path "audio/session7" = EmptyString.
Proof.
  assert (H : Forall (fun x => x <> "/"%char /\ x <> "."%char)
                (list_ascii_of_string "session7"))
    by (repeat constructor; discriminate).
  split; [exact H|].
  exact (proj1 (uniq_id_without_extension "audio" "session7" H)).
Defined.

Section ScorerLabels.

Variable Annotation : Type.
Variable Metrics : Type.
Variable audio_rttm_map : string -> option string.
Variable path_exists : string -> bool.
Variable rttm_to_labels : string -> result (list turn).
Variable labels_to_pyannote_object : list turn -> result Annotation.
Variable get_DER : list Annotation -> list Annotation -> result Metrics.

Lemma eval_body_labels (output_dir : string) (done : list (list turn))
    (scored : option (list Annotation * list Annotation)) (f : string) :
  match eval_body Annotation audio_rttm_map path_exists rttm_to_labels
          labels_to_pyannote_object output_dir (done, scored) f with
  | Ok (labels, scored') =>
      has_rttm_entry audio_rttm_map f = true
      /\ (exists read,
            labels = done ++ [read]
            /\ predicted_labels rttm_to_labels output_dir f = Ok read)
      /\ scored' <> None
  | Raise e =>
      (e = KeyError /\ has_rttm_entry audio_rttm_map f = false)
      \/ (exists path, rttm_to_labels path = Raise e)
      \/ (exists labels, labels_to_pyannote_object labels = Raise e)
  end.
Proof.
  unfold eval_body, has_rttm_entry, predicted_labels.
  destruct (audio_rttm_map (get_uniq_id_from_audio_path f)) as [rttm|];
    [|left; split; reflexivity].
  assert (Href : match (if path_exists rttm
                        then ref_labels <- rttm_to_labels rttm ;;
                             reference <- labels_to_pyannote_object ref_labels ;;
                             Ok ([] ++ [reference])
                        else Ok [])
                 with
                 | Ok _ => True
                 | Raise e =>
                     (exists path, rttm_to_labels path = Raise e)
                     \/ (exists labels, labels_to_pyannote_object labels = Raise e)
                 end).
  { destruct (path_exists rttm); [|exact I].
    destruct (rttm_to_labels rttm) as [ref_labels|e] eqn:H1;
      [|left; exists rttm; exact H1].
    rewrite bind_ok.
    destruct (labels_to_pyannote_object ref_labels) as [reference|e] eqn:H2;
      [exact I|right; exists ref_labels; exact H2]. }
  destruct (if path_exists rttm then _ else _) as [refs|e]; [|right; exact Href].
  rewrite bind_ok.
  destruct (rttm_to_labels
              (pred_rttm_path output_dir (get_uniq_id_from_audio_path f)))
    as [labels|e] eqn:Hpred; [|right; left; eexists; exact Hpred].
  rewrite bind_ok.
  destruct (labels_to_pyannote_object labels) as [hypothesis|e] eqn:Hhyp;
    [|right; right; exists labels; exact Hhyp].
  rewrite bind_ok. split; [reflexivity|]. split; [|discriminate].
  exists labels. split; reflexivity.
Qed.

Lemma eval_loop_labels (output_dir : string) (files : list string) :
  forall (done : list (list turn))
         (scored : option (list Annotation * list Annotation)),
    match eval_loop Annotation audio_rttm_map path_exists rttm_to_labels
            labels_to_pyannote_object output_dir files (done, scored) with
    | Ok (labels, scored') =>
        forallb (has_rttm_entry audio_rttm_map) files = true
        /\ (exists read,
              labels = done ++ read
              /\ map (predicted_labels rttm_to_labels output_dir) files = map Ok read)
        /\ (files = [] -> scored' = scored)
        /\ (files <> [] -> scored' <> None)
    | Raise e =>
        (e = KeyError /\ forallb (has_rttm_entry audio_rttm_map) files = false)
        \/ (exists path, rttm_to_labels path = Raise e)
        \/ (exists labels, labels_to_pyannote_object labels = Raise e)
    end.
Proof.
  induction files as [|f files IH]; intros done scored.
  - simpl. split; [reflexivity|]. split; [|split; congruence].
    exists []. rewrite app_nil_r. split; reflexivity.
  - cbn [eval_loop forallb map].
    pose proof (eval_body_labels output_dir done scored f) as Hb.
    destruct (eval_body Annotation audio_rttm_map path_exists rttm_to_labels
                labels_to_pyannote_object output_dir (done, scored) f)
      as [[labels1 scored1]|e].
    + destruct Hb as [B1 [[read1 [B2 B3]] B4]]. rewrite bind_ok, B1. cbn [andb].
      specialize (IH labels1 scored1).
      destruct (eval_loop Annotation audio_rttm_map path_exists rttm_to_labels
                  labels_to_pyannote_object output_dir files (labels1, scored1))
        as [[all_labels scored']|e]; [|exact IH].
      destruct IH as [H1 [[read [H2 H3]] [H4 H5]]]. split; [exact H1|]. split.
      * exists (read1 :: read). split.
        -- rewrite H2, B2, <- app_assoc. reflexivity.
        -- cbn [map]. rewrite H3, B3. reflexivity.
      * split; [discriminate|]. intros _.
        destruct files as [|g files]; [rewrite H4 by reflexivity; exact B4|].
        apply H5. discriminate.
    + cbn [bind].
      destruct Hb as [[He Hf]|Hb]; [|right; exact Hb].
      left. split; [exact He|]. rewrite Hf. reflexivity.
Qed.

(** X17.  When [eval_diarization] returns, the list of recordings is not
    empty, every recording has an entry in [audio_rttm_map], the returned
    labels are what [rttm_to_labels] read from the predicted file of every
    recording, in the order of the list, and [get_DER] has returned the
    metrics.  An empty list makes it raise [NameError].  Every failure is
    that [NameError], the [KeyError] of a recording without an entry, or an
    exception that [rttm_to_labels], [labels_to_pyannote_object] or
    [get_DER] raised. *)
Theorem eval_diarization_labels (audio_file_list : list string) (output_dir : string) :
  match eval_diarization Annotation Metrics audio_rttm_map path_exists rttm_to_labels
          labels_to_pyannote_object get_DER audio_file_list output_dir with
  | Ok (labels, metrics) =>
      audio_file_list <> []
      /\ forallb (has_rttm_entry audio_rttm_map) audio_file_list = true
      /\ map (predicted_labels rttm_to_labels output_dir) audio_file_list = map Ok labels
      /\ (exists all_references all_hypotheses,
            get_DER all_references all_hypotheses = Ok metrics)
  | Raise e =>
      (e = NameError /\ audio_file_list = [])
      \/ (e = KeyError /\ forallb (has_rttm_entry audio_rttm_map) audio_file_list = false)
      \/ (exists path, rttm_to_labels path = Raise e)
      \/ (exists labels, labels_to_pyannote_object labels = Raise e)
      \/ (exists all_references all_hypotheses,
            get_DER all_references all_hypotheses = Raise e)
  end
  /\ eval_diarization Annotation Metrics audio_rttm_map path_exists rttm_to_labels
       labels_to_pyannote_object get_DER [] output_dir = Raise NameError.
Proof.
  split; [|reflexivity].
  unfold eval_diarization.
  pose proof (eval_loop_labels output_dir audio_file_list [] None) as H.
  destruct (eval_loop Annotation audio_rttm_map path_exists rttm_to_labels
              labels_to_pyannote_object output_dir audio_file_list ([], None))
    as [[labels scored]|e].
  - destruct H as [H1 [[read [H2 H3]] [H4 H5]]]. rewrite bind_ok.
    simpl in H2. subst read.
    destruct scored as [[refs hyps]|].
    + destruct (get_DER refs hyps) as [metrics|e] eqn:Hder.
      * rewrite bind_ok. split; [|split; [exact H1|split; [exact H3|]]].
        -- intros ->. specialize (H4 eq_refl). discriminate.
        -- exists refs, hyps. exact Hder.
      * right. right. right. right. exists refs, hyps. exact Hder.
    + left. split; [reflexivity|].
      destruct audio_file_list as [|f files]; [reflexivity|].
      exfalso. apply H5; [discriminate|reflexivity].
  - cbn [bind].
    destruct H as [H|[H|H]];
      [right; left; exact H | right; right; left; exact H
       | right; right; right; left; exact H].
Qed.

End ScorerLabels.

(** ** Text normalization test dataset *)

Lemma py_last_snoc {A : Type} (l : list A) (x : A) : py_last (l ++ [x]) = Ok x.
Proof. unfold py_last. rewrite rev_app_distr. reflexivity. Qed.

Section DatasetFacts.

Import TextNormalizationTestDataset.

Variable SIL_WORD SELF_WORD PUNCT_TAG : string.
Variable SPECIAL_WORDS : list string.
Variable INST_BACKWARD INST_FORWARD : string.
Variable INST_DIRECTIONS : list string.
Variable TN_MODE ITN_MODE : string.
Variable basic_tokenize : string -> string -> list string.

Hypothesis constants :
  constants_ok SIL_WORD SELF_WORD SPECIAL_WORDS INST_BACKWARD INST_FORWARD
    INST_DIRECTIONS TN_MODE ITN_MODE.

Local Notation "'WORD_BODY'" :=
  (word_body SIL_WORD SELF_WORD PUNCT_TAG SPECIAL_WORDS basic_tokenize).
Local Notation "'WORD_LOOP'" :=
  (word_loop SIL_WORD SELF_WORD PUNCT_TAG SPECIAL_WORDS basic_tokenize).
Local Notation "'DIRECTION_BODY'" :=
  (direction_body INST_BACKWARD INST_FORWARD TN_MODE ITN_MODE basic_tokenize).
Local Notation "'DIRECTION_LOOP'" :=
  (direction_loop INST_BACKWARD INST_FORWARD TN_MODE ITN_MODE basic_tokenize).
Local Notation "'INSTANCE_LOOP'" :=
  (instance_loop SIL_WORD SELF_WORD PUNCT_TAG SPECIAL_WORDS INST_BACKWARD
     INST_FORWARD INST_DIRECTIONS TN_MODE ITN_MODE basic_tokenize).

Lemma chained_to_snoc (starts : list nat) :
  forall from ends final e,
    chained_to from starts ends final ->
    (final <= e)%nat ->
    chained_to from (starts ++ [final]) (ends ++ [e]) e.
Proof.
  induction starts as [|s starts IH]; intros from ends final e Hc Hle.
  - destruct ends; [|contradiction]. simpl in *. subst. auto.
  - destruct ends as [|x ends]; [contradiction|].
    destruct Hc as [Hs [Hsx Hc]]. simpl. repeat split; try assumption.
    apply (IH x ends final e Hc Hle).
Qed.

Lemma chained_to_chained (starts : list nat) :
  forall from ends final, chained_to from starts ends final -> chained from starts ends.
Proof.
  induction starts as [|s starts IH]; intros from ends final Hc.
  - destruct ends; [exact I|contradiction].
  - destruct ends as [|x ends]; [contradiction|].
    destruct Hc as [Hs [Hsx Hc]]. simpl. repeat split; try assumption.
    apply (IH x ends final Hc).
Qed.

Lemma word_body_inv (lang : string) (st : spans)
    (item : string * string * string) :
  spans_inv st ->
  exists st', WORD_BODY lang st item = Ok st' /\ spans_inv st'.
Proof.
  destruct constants as [_ [_ [Hspecial _]]].
  intros [H1 [H2 [H3 [H4 [H5 [H6 [H7 [H8 [H9 H10]]]]]]]]].
  destruct item as [[cls w_word] s_word]. unfold word_body.
  assert (Hw : chained_to 0 (w_span_starts st ++ [w_word_idx st])
                 (w_span_ends st
                  ++ [(w_word_idx st + length (basic_tokenize w_word lang))%nat])
                 (w_word_idx st + length (basic_tokenize w_word lang))%nat)
    by (apply chained_to_snoc; [exact H4|lia]).
  destruct (String.eqb s_word SIL_WORD) eqn:Esil.
  - eexists. split; [reflexivity|]. unfold spans_inv. cbn.
    rewrite !length_app. cbn. repeat split; try lia; assumption.
  - assert (Hs2 : exists x,
              (if negb (member s_word SPECIAL_WORDS)
               then (if String.eqb s_word SELF_WORD
                     then processed_s_words st ++ [w_word]
                     else processed_s_words st) ++ [s_word]
               else (if String.eqb s_word SELF_WORD
                     then processed_s_words st ++ [w_word]
                     else processed_s_words st))
              = processed_s_words st ++ [x]).
    { rewrite Hspecial. unfold member. cbn [existsb]. rewrite Esil.
      destruct (String.eqb s_word SELF_WORD); cbn; eexists; reflexivity. }
    destruct Hs2 as [x Hx]. rewrite Hx, py_last_snoc, bind_ok.
    eexists. split; [reflexivity|]. unfold spans_inv. cbn.
    rewrite !length_app. cbn. repeat split; try lia; try assumption.
    apply chained_to_snoc; [exact H8|lia].
Qed.

Lemma word_loop_inv (lang : string) (items : list (string * string * string)) :
  forall st,
    spans_inv st ->
    exists st', WORD_LOOP lang items st = Ok st' /\ spans_inv st'.
Proof.
  induction items as [|item items IH]; intros st Hst.
  - exists st. split; [reflexivity|exact Hst].
  - cbn [word_loop].
    destruct (word_body_inv lang st item Hst) as [st1 [H1 Hst1]].
    rewrite H1, bind_ok. apply IH, Hst1.
Qed.

Lemma all_spans_ok_snoc (cls : list (list string)) :
  forall nb starts ends c n s e,
    all_spans_ok cls nb starts ends ->
    length c = n -> length s = n -> length e = n -> chained 0 s e ->
    all_spans_ok (cls ++ [c]) (nb ++ [n]) (starts ++ [s]) (ends ++ [e]).
Proof.
  induction cls as [|c0 cls IH]; intros nb starts ends c n s e H Hc Hs He Hch.
  - destruct nb, starts, ends; try contradiction. simpl. auto.
  - destruct nb as [|n0 nb], starts as [|s0 starts], ends as [|e0 ends];
      try contradiction.
    destruct H as [H0 H]. simpl. split; [exact H0|].
    apply IH; assumption.
Qed.

Lemma direction_loop_good (mode lang : string) (w_words : list string) (sp : spans)
    (ds : dataset) (n : nat) :
  spans_inv sp ->
  aligned ds n ->
  all_spans_ok (classes ds) (nb_spans ds) (span_starts ds) (span_ends ds) ->
  exists ds',
    DIRECTION_LOOP mode lang w_words sp INST_DIRECTIONS ds = Ok ds'
    /\ aligned ds' (n + examples_per_instance TN_MODE ITN_MODE mode)
    /\ all_spans_ok (classes ds') (nb_spans ds') (span_starts ds') (span_ends ds').
Proof.
  destruct constants as [Hdirs [Hbf [_ Hmode]]].
  intros [H1 [H2 [H3 [H4 [H5 [H6 [H7 [H8 [H9 H10]]]]]]]]]
         [A1 [A2 [A3 [A4 [A5 [A6 A7]]]]]] Hok.
  rewrite Hdirs. cbn [direction_loop]. unfold direction_body, examples_per_instance.
  rewrite !String.eqb_refl.
  replace (String.eqb INST_BACKWARD INST_FORWARD) with false
    by (symmetry; apply String.eqb_neq; exact Hbf).
  replace (String.eqb INST_FORWARD INST_BACKWARD) with false
    by (symmetry; apply String.eqb_neq; congruence).
  apply chained_to_chained in H4, H8.
  destruct (String.eqb mode TN_MODE) eqn:Etn.
  - apply String.eqb_eq in Etn.
    replace (String.eqb mode ITN_MODE) with false
      by (symmetry; apply String.eqb_neq; congruence).
    cbn [andb negb bind]. unfold record_example. cbn.
    destruct (bound_words ds) as [[iw ow]|];
      (eexists; split; [reflexivity|]; cbn; split;
       [unfold aligned; cbn; rewrite !length_app; cbn; repeat split; lia
       |apply all_spans_ok_snoc; assumption]).
  - cbn [andb negb bind]. unfold record_example at 2. cbn [bound_words]. cbn [bind].
    destruct (String.eqb mode ITN_MODE) eqn:Eitn.
    + cbn. eexists. split; [reflexivity|]. cbn. split.
      * unfold aligned. cbn. rewrite !length_app. cbn. repeat split; lia.
      * apply all_spans_ok_snoc; assumption.
    + cbn. eexists. split; [reflexivity|]. cbn. split.
      * unfold aligned. cbn. rewrite !length_app. cbn. repeat split; lia.
      * apply all_spans_ok_snoc; try assumption.
        apply all_spans_ok_snoc; assumption.
Qed.

Lemma spans_inv_start : spans_inv no_spans.
Proof. unfold spans_inv, no_spans. cbn. repeat split; reflexivity. Qed.

Lemma instance_loop_good (mode lang : string)
    (insts : list (list string * list string * list string)) :
  forall ds n,
    aligned ds n ->
    all_spans_ok (classes ds) (nb_spans ds) (span_starts ds) (span_ends ds) ->
    exists ds',
      INSTANCE_LOOP mode lang insts ds = Ok ds'
      /\ aligned ds' (n + length insts * examples_per_instance TN_MODE ITN_MODE mode)
      /\ all_spans_ok (classes ds') (nb_spans ds') (span_starts ds') (span_ends ds').
Proof.
  induction insts as [|[[cls w_words] s_words] insts IH]; intros ds n Ha Hok.
  - exists ds. split; [reflexivity|]. simpl. rewrite Nat.add_0_r. auto.
  - cbn [instance_loop]. unfold instance_body.
    destruct (word_loop_inv lang (zip3 cls w_words s_words) no_spans spans_inv_start)
      as [sp [Hsp Hinv]].
    rewrite Hsp, bind_ok.
    destruct (direction_loop_good mode lang w_words sp ds n Hinv Ha Hok)
      as [ds1 [Hd [Ha1 Hok1]]].
    rewrite Hd, bind_ok.
    destruct (IH ds1 _ Ha1 Hok1) as [ds2 [Hl [Ha2 Hok2]]].
    exists ds2. split; [exact Hl|]. split; [|exact Hok2].
    replace (n + length ((cls, w_words, s_words) :: insts)
                 * examples_per_instance TN_MODE ITN_MODE mode)%nat
      with (n + examples_per_instance TN_MODE ITN_MODE mode
            + length insts * examples_per_instance TN_MODE ITN_MODE mode)%nat
      by (simpl; lia).
    exact Ha2.
Qed.

End DatasetFacts.

(** X18.  With the two directions BACKWARD and FORWARD and the special words
    [sil] and [<self>], building the dataset never fails: every instance
    gives one example in mode [tn] or [itn] and two in any other mode, and
    the seven lists of the dataset have that same length, so that the [zip]
    of [self.examples] drops nothing and [__len__] counts the examples. *)
Theorem dataset_examples_aligned (SIL_WORD SELF_WORD PUNCT_TAG : string)
    (SPECIAL_WORDS : list string) (INST_BACKWARD INST_FORWARD : string)
    (INST_DIRECTIONS : list string) (TN_MODE ITN_MODE : string)
    (basic_tokenize : string -> string -> list string)
    (insts : list (list string * list string * list string)) (mode lang : string) :
  TextNormalizationTestDataset.constants_ok SIL_WORD SELF_WORD SPECIAL_WORDS
    INST_BACKWARD INST_FORWARD INST_DIRECTIONS TN_MODE ITN_MODE ->
  exists ds,
    TextNormalizationTestDataset.init SIL_WORD SELF_WORD PUNCT_TAG SPECIAL_WORDS
      INST_BACKWARD INST_FORWARD INST_DIRECTIONS TN_MODE ITN_MODE basic_tokenize
      insts mode lang = Ok ds
    /\ TextNormalizationTestDataset.aligned ds
         (length insts
          * TextNormalizationTestDataset.examples_per_instance TN_MODE ITN_MODE mode)
    /\ TextNormalizationTestDataset.examples_count ds
       = TextNormalizationTestDataset.len ds.
Proof.
  intros Hc. unfold TextNormalizationTestDataset.init.
  destruct (instance_loop_good SIL_WORD SELF_WORD PUNCT_TAG SPECIAL_WORDS
              INST_BACKWARD INST_FORWARD INST_DIRECTIONS TN_MODE ITN_MODE
              basic_tokenize Hc mode lang insts
              TextNormalizationTestDataset.empty_dataset 0)
    as [ds [Hl [Ha _]]].
  - unfold TextNormalizationTestDataset.aligned. cbn. repeat split; reflexivity.
  - exact I.
  - exists ds. split; [exact Hl|]. split; [exact Ha|].
    destruct Ha as [A1 [A2 [A3 [A4 [A5 [A6 A7]]]]]].
    unfold TextNormalizationTestDataset.examples_count,
      TextNormalizationTestDataset.len.
    rewrite A1, A2, A3, A4, A5, A6, A7, !Nat.min_id. reflexivity.
Qed.

(** X19.  In the dataset that [__init__] builds, every example has as many
    classes, span starts and span ends as its [nb_spans] says, and its spans
    follow one another: the first starts at token 0, each one ends at or
    after its start, and the next starts where it ends. *)
Theorem dataset_spans_chained (SIL_WORD SELF_WORD PUNCT_TAG : string)
    (SPECIAL_WORDS : list string) (INST_BACKWARD INST_FORWARD : string)
    (INST_DIRECTIONS : list string) (TN_MODE ITN_MODE : string)
    (basic_tokenize : string -> string -> list string)
    (insts : list (list string * list string * list string)) (mode lang : string)
    (ds : TextNormalizationTestDataset.dataset) :
  TextNormalizationTestDataset.constants_ok SIL_WORD SELF_WORD SPECIAL_WORDS
    INST_BACKWARD INST_FORWARD INST_DIRECTIONS TN_MODE ITN_MODE ->
  TextNormalizationTestDataset.init SIL_WORD SELF_WORD PUNCT_TAG SPECIAL_WORDS
    INST_BACKWARD INST_FORWARD INST_DIRECTIONS TN_MODE ITN_MODE basic_tokenize
    insts mode lang = Ok ds ->
  TextNormalizationTestDataset.all_spans_ok
    (TextNormalizationTestDataset.classes ds)
    (TextNormalizationTestDataset.nb_spans ds)
    (TextNormalizationTestDataset.span_starts ds)
    (TextNormalizationTestDataset.span_ends ds).
Proof.
  intros Hc Hinit. unfold TextNormalizationTestDataset.init in Hinit.
  destruct (instance_loop_good SIL_WORD SELF_WORD PUNCT_TAG SPECIAL_WORDS
              INST_BACKWARD INST_FORWARD INST_DIRECTIONS TN_MODE ITN_MODE
              basic_tokenize Hc mode lang insts
              TextNormalizationTestDataset.empty_dataset 0)
    as [ds' [Hl [_ Hok]]].
  - unfold TextNormalizationTestDataset.aligned. cbn. repeat split; reflexivity.
  - exact I.
  - rewrite Hl in Hinit. injection Hinit as <-. exact Hok.
Qed.

Lemma sample_constants_ok :
  TextNormalizationTestDataset.constants_ok "sil" "<self>" ["sil"; "<self>"]%string
    "BACKWARD" "FORWARD" ["BACKWARD"; "FORWARD"]%string "tn" "itn".
Proof.
  unfold TextNormalizationTestDataset.constants_ok.
  repeat split; try reflexivity; discriminate.
Qed.

Lemma dataset_examples_aligned_witness :
  TextNormalizationTestDataset.constants_ok "sil" "<self>" ["sil"; "<self>"]%string
    "BACKWARD" "FORWARD" ["BACKWARD"; "FORWARD"]%string "tn" "itn"
  /\ exists ds,
       sample_dataset [sample_instance] "joint" = Ok ds
       /\ TextNormalizationTestDataset.len ds = 2%nat
       /\ TextNormalizationTestDataset.examples_count ds = 2%nat.
Proof.
  split; [exact sample_constants_ok|].
  destruct (dataset_examples_aligned "sil" "<self>" "PUNCT" ["sil"; "<self>"]%string
              "BACKWARD" "FORWARD" ["BACKWARD"; "FORWARD"]%string "tn" "itn"
              (fun text _ => split_spaces text) [sample_instance] "joint" "en"
              sample_constants_ok) as [ds [Hinit [Ha He]]].
  exists ds. split; [exact Hinit|].
  destruct Ha as [_ [A2 _]].
  unfold TextNormalizationTestDataset.len in *. rewrite He.
  split; exact A2.
Defined.

Lemma dataset_spans_chained_witness :
  exists ds,
    sample_dataset [sample_instance] "joint" = Ok ds
    /\ TextNormalizationTestDataset.span_starts ds = [[0; 1]; [0; 1; 2]]%nat
    /\ TextNormalizationTestDataset.span_ends ds = [[1; 4]; [1; 2; 3]]%nat
    /\ TextNormalizationTestDataset.all_spans_ok
         (TextNormalizationTestDataset.classes ds)
         (TextNormalizationTestDataset.nb_spans ds)
         (TextNormalizationTestDataset.span_starts ds)
         (TextNormalizationTestDataset.span_ends ds).
Proof.
  eexists. split; [vm_compute; reflexivity|].
  split; [reflexivity|]. split; [reflexivity|].
  apply (dataset_spans_chained "sil" "<self>" "PUNCT" ["sil"; "<self>"]%string
           "BACKWARD" "FORWARD" ["BACKWARD"; "FORWARD"]%string "tn" "itn"
           (fun text _ => split_spaces text) [sample_instance] "joint" "en" _
           sample_constants_ok).
  vm_compute. reflexivity.
Defined.

Section SentenceAccuracy.

Import TextNormalizationTestDataset.

Variable INST_BACKWARD : string.
Variable remove_puncts : string -> string.
Variable normalize_str : string -> string -> string.

Lemma is_same_le (pred target inst_dir lang : string) :
  (is_same INST_BACKWARD remove_puncts normalize_str pred target inst_dir lang <= 1)%nat.
Proof.
  unfold is_same. destruct (String.eqb inst_dir INST_BACKWARD);
    destruct (String.eqb _ _); lia.
Qed.

Lemma is_same_refl (text inst_dir lang : string) :
  is_same INST_BACKWARD remove_puncts normalize_str text text inst_dir lang = 1%nat.
Proof.
  unfold is_same. destruct (String.eqb inst_dir INST_BACKWARD);
    rewrite String.eqb_refl; reflexivity.
Qed.

Lemma correct_count_le (lang : string) (items : list (string * string * string)) :
  forall count,
    (count <= correct_count INST_BACKWARD remove_puncts normalize_str lang items count
     <= count + length items)%nat.
Proof.
  induction items as [|[[d pr] t] items IH]; intros count; simpl; [lia|].
  pose proof (is_same_le pr t d lang).
  specialize (IH (count + is_same INST_BACKWARD remove_puncts normalize_str pr t d lang)%nat).
  lia.
Qed.

Lemma zip3_length_le {A B C : Type} (a : list A) (b : list B) (c : list C) :
  (length (zip3 a b c) <= length c)%nat.
Proof.
  revert b c; induction a as [|x a IH]; intros [|y b] [|z c]; simpl; try lia.
  specialize (IH b c). lia.
Qed.

Lemma correct_count_exact (lang : string) (dirs targets : list string) :
  forall count,
    correct_count INST_BACKWARD remove_puncts normalize_str lang
      (zip3 dirs targets targets) count
    = (count + Nat.min (length dirs) (length targets))%nat.
Proof.
  revert targets; induction dirs as [|d dirs IH]; intros [|t targets] count;
    simpl; try lia.
  rewrite IH, is_same_refl. lia.
Qed.

Lemma ratio_bounds (c n : nat) :
  (0 < n)%nat -> (c <= n)%nat ->
  (0 <= inject_Z (Z.of_nat c) / inject_Z (Z.of_nat n)
   /\ inject_Z (Z.of_nat c) / inject_Z (Z.of_nat n) <= 1)%Q.
Proof.
  intros Hn Hc.
  assert (Hpos : (0 < inject_Z (Z.of_nat n))%Q)
    by (change 0%Q with (inject_Z 0); rewrite <- Zlt_Qlt; lia).
  split.
  - apply Qle_shift_div_l; [exact Hpos|]. rewrite Qmult_0_l.
    change 0%Q with (inject_Z 0). rewrite <- Zle_Qle. lia.
  - apply Qle_shift_div_r; [exact Hpos|]. rewrite Qmult_1_l.
    rewrite <- Zle_Qle. lia.
Qed.

End SentenceAccuracy.

(** X20.  [compute_sent_accuracy] raises [AssertionError] exactly when the
    predictions and the targets differ in number, returns ['NA'] exactly when
    both are empty, and otherwise returns a number between 0 and 1. *)
Theorem sent_accuracy_outcomes (INST_BACKWARD : string)
    (remove_puncts : string -> string) (normalize_str : string -> string -> string)
    (preds targets inst_directions : list string) (lang : string) :
  match TextNormalizationTestDataset.compute_sent_accuracy INST_BACKWARD
          remove_puncts normalize_str preds targets inst_directions lang with
  | Raise e => e = AssertionError /\ length preds <> length targets
  | Ok TextNormalizationTestDataset.NA => preds = [] /\ targets = []
  | Ok (TextNormalizationTestDataset.Accuracy value) =>
      length preds = length targets /\ targets <> []
      /\ (0 <= value)%Q /\ (value <= 1)%Q
  end.
Proof.
  unfold TextNormalizationTestDataset.compute_sent_accuracy.
  destruct (length preds =? length targets)%nat eqn:E; simpl.
  - apply Nat.eqb_eq in E.
    destruct targets as [|t targets].
    + destruct preds; [split; reflexivity|discriminate].
    + cbn [length Nat.eqb]. split; [exact E|]. split; [discriminate|].
      apply ratio_bounds; [simpl; lia|].
      pose proof (correct_count_le INST_BACKWARD remove_puncts normalize_str lang
                    (TextNormalizationTestDataset.zip3 inst_directions preds
                       (t :: targets)) 0).
      pose proof (zip3_length_le inst_directions preds (t :: targets)).
      simpl length in *. lia.
  - apply Nat.eqb_neq in E. split; [reflexivity|exact E].
Qed.

(** X21.  When the predictions are the targets themselves, every scored pair
    counts as correct: the accuracy is 1 if there is a direction for every
    target, and it is the share of targets that have a direction
    otherwise, because the [zip] stops at the shortest list. *)
Theorem sent_accuracy_of_exact_predictions (INST_BACKWARD : string)
    (remove_puncts : string -> string) (normalize_str : string -> string -> string)
    (targets inst_directions : list string) (lang : string) :
  targets <> [] ->
  exists value,
    TextNormalizationTestDataset.compute_sent_accuracy INST_BACKWARD remove_puncts
      normalize_str targets targets inst_directions lang
    = Ok (TextNormalizationTestDataset.Accuracy value)
    /\ (value == inject_Z (Z.of_nat (Nat.min (length inst_directions) (length targets)))
                 / inject_Z (Z.of_nat (length targets)))%Q
    /\ ((length targets <= length inst_directions)%nat -> (value == 1)%Q).
Proof.
  intros Hne. unfold TextNormalizationTestDataset.compute_sent_accuracy.
  rewrite Nat.eqb_refl. simpl py_assert. rewrite bind_ok.
  destruct targets as [|t targets]; [contradiction|].
  cbn [length Nat.eqb]. rewrite correct_count_exact. cbn [Nat.add].
  eexists. split; [reflexivity|]. split; [reflexivity|].
  intros Hle. rewrite Nat.min_r by exact Hle.
  apply Qmult_inv_r. intros H.
  change 0%Q with (inject_Z 0) in H. apply (proj1 (inject_Z_injective _ _)) in H.
  simpl length in H. lia.
Qed.

Lemma sent_accuracy_of_exact_predictions_witness :
  ["a"; "b"]%string <> []
  /\ exists value,
       sample_sent_accuracy ["a"; "b"]%string ["a"; "b"]%string ["FORWARD"]%string
       = Ok (TextNormalizationTestDataset.Accuracy value)
       /\ (value == 1 # 2)%Q.
Proof.
  split; [discriminate|].
  destruct (sent_accuracy_of_exact_predictions "BACKWARD" (fun text => text)
              (fun text _ => text) ["a"; "b"]%string ["FORWARD"]%string "en")
    as [value [H1 [H2 _]]]; [discriminate|].
  exists value. split; [exact H1|]. rewrite H2. reflexivity.
Defined.

(** ** Transcript and JSON entries *)

Lemma firstn_succ_snoc {A : Type} (l : list A) :
  forall n x, nth_error l n = Some x -> firstn (S n) l = firstn n l ++ [x].
Proof.
  induction l as [|y l IH]; intros n x H; [destruct n; discriminate|].
  destruct n as [|n]; simpl in H.
  - injection H as ->. reflexivity.
  - change (firstn (S (S n)) (y :: l)) with (y :: firstn (S n) l).
    rewrite (IH n x H). reflexivity.
Qed.

Section TranscriptFacts.

Variable p : params.
Variable labels : list turn.
Variable words : list string.
Variable word_ts_list spaces : list (Z * Z).

Lemma attribute_word_keeps (n : nat) (w : Z * Z) (st st' : attribution) :
  nth_error word_ts_list n = Some w ->
  map word (riva_words st) = firstn n words ->
  spoken_words st = firstn n words ->
  map (fun e => (start_time e, end_time e)) (riva_words st)
  = map (json_times p) (firstn n word_ts_list) ->
  attribute_word p labels words spaces st n w = Ok st' ->
  map word (riva_words st') = firstn (S n) words
  /\ spoken_words st' = firstn (S n) words
  /\ map (fun e => (start_time e, end_time e)) (riva_words st')
     = map (json_times p) (firstn (S n) word_ts_list).
Proof.
  intros Hw H1 H2 H3 Hstep. unfold attribute_word in Hstep.
  destruct (if (n =? length spaces)%nat then Ok (snd w, snd w) else py_get spaces n)
    as [gap|e]; [|discriminate].
  rewrite bind_ok in Hstep.
  rewrite (firstn_succ_snoc word_ts_list n w Hw), map_app.
  destruct (pos_prev st <? end_point (current st))%float.
  - destruct (py_get words n) as [wd|e] eqn:Hwd; [|discriminate].
    rewrite bind_ok in Hstep. injection Hstep as <-.
    apply py_get_ok in Hwd. rewrite (firstn_succ_snoc words n wd Hwd).
    unfold spoken_words, print_word, add_json_to_dict. cbn [riva_words string_out].
    rewrite !map_app, flat_map_app, H1, H3. fold (spoken_words st). rewrite H2.
    repeat split.
  - destruct (py_get labels (idx st + 1)) as [next|e]; [|discriminate].
    rewrite bind_ok in Hstep.
    destruct (py_get words n) as [wd|e] eqn:Hwd; [|discriminate].
    rewrite bind_ok in Hstep. injection Hstep as <-.
    apply py_get_ok in Hwd. rewrite (firstn_succ_snoc words n wd Hwd).
    unfold spoken_words, print_word, print_time, add_json_to_dict.
    cbn [riva_words string_out].
    rewrite !map_app, !flat_map_app, H1, H3. fold (spoken_words st). rewrite H2.
    cbn. rewrite app_nil_r. repeat split.
Qed.

Lemma attribute_loop_keeps (rest : list (Z * Z)) :
  forall (done : list (Z * Z)) (st a : attribution),
    word_ts_list = done ++ rest ->
    map word (riva_words st) = firstn (length done) words ->
    spoken_words st = firstn (length done) words ->
    map (fun e => (start_time e, end_time e)) (riva_words st)
    = map (json_times p) (firstn (length done) word_ts_list) ->
    attribute_loop p labels words spaces (enumerate_from (length done) rest) st = Ok a ->
    map word (riva_words a) = firstn (length word_ts_list) words
    /\ spoken_words a = firstn (length word_ts_list) words
    /\ map (fun e => (start_time e, end_time e)) (riva_words a)
       = map (json_times p) word_ts_list.
Proof.
  induction rest as [|w rest IH]; intros done st a Hall H1 H2 H3 Hrun.
  - simpl in Hrun. injection Hrun as <-.
    assert (Hd : word_ts_list = done) by (rewrite Hall, app_nil_r; reflexivity).
    rewrite Hd in *. rewrite firstn_all in H3. auto.
  - rewrite enumerate_from_cons in Hrun. cbn [attribute_loop] in Hrun.
    destruct (attribute_word p labels words spaces st (length done) w) as [st'|e] eqn:Hw;
      [|discriminate].
    rewrite bind_ok in Hrun.
    assert (Hnth : nth_error word_ts_list (length done) = Some w)
      by (rewrite Hall, nth_error_app2, Nat.sub_diag by lia; reflexivity).
    destruct (attribute_word_keeps (length done) w st st' Hnth H1 H2 H3 Hw)
      as [K1 [K2 K3]].
    replace (S (length done)) with (length (done ++ [w])) in *
      by (rewrite length_app, Nat.add_1_r; reflexivity).
    apply (IH (done ++ [w]) st' a); try assumption.
    rewrite <- app_assoc. exact Hall.
Qed.

End TranscriptFacts.

(** [round] acts on the binary value: the float that 0.0125 reads as lies
    above the tie and rounds to 0.013, the float of 2.675 lies below the tie
    and rounds to 2.67, exact ties go to the even digit, and the sign of a
    zero is kept. *)
Lemma py_round_binary64 :
  py_round 0.0125%float 3 = 0.013%float
  /\ py_round 2.675%float 2 = 2.67%float
  /\ py_round 0.5%float 0 = 0%float
  /\ py_round 1.5%float 0 = 2%float
  /\ py_round 0.125%float 2 = 0.12%float
  /\ py_round (-0.0004)%float 3 = (-0)%float
  /\ json_times script_params (0, 10) = ((-0.18)%float, 0.02%float)
  /\ json_times script_params (11, 20) = (0.04%float, 0.22%float).
Proof. repeat split; reflexivity. Qed.

(** X22.  In a run of the speaker attributor that succeeds, every timing
    window has its word: the JSON entries and the words of the transcript
    are, in order, the first words of the word list, one per window, and,
    for a [round_float] that is not negative, each entry carries the start
    and the end time of its own window, [offset + frame * time_stride]
    rounded as [round] rounds a float. *)
Theorem attribution_keeps_words (p : params) (labels : list turn)
    (words : list string) (word_ts_list spaces : list (Z * Z)) (a : attribution) :
  write_json_and_transcript labels words word_ts_list spaces p = Ok a ->
  map word (riva_words a) = firstn (length word_ts_list) words
  /\ spoken_words a = firstn (length word_ts_list) words
  /\ (0 <= round_float p ->
      map (fun e => (start_time e, end_time e)) (riva_words a)
      = map (json_times p) word_ts_list)
  /\ (length word_ts_list <= length words)%nat.
Proof.
  intros Hrun.
  assert (H : map word (riva_words a) = firstn (length word_ts_list) words
              /\ spoken_words a = firstn (length word_ts_list) words
              /\ map (fun e => (start_time e, end_time e)) (riva_words a)
                 = map (json_times p) word_ts_list).
  { unfold write_json_and_transcript in Hrun.
    destruct (py_get labels 0) as [first|e]; [|discriminate].
    rewrite bind_ok in Hrun.
    refine (attribute_loop_keeps p labels words word_ts_list spaces word_ts_list
              [] _ a eq_refl _ _ _ Hrun); reflexivity. }
  destruct H as [H1 [H2 H3]]. split; [exact H1|]. split; [exact H2|].
  split; [intros _; exact H3|].
  pose proof (run_attributed p labels words word_ts_list spaces a Hrun) as [Hlen _].
  apply (f_equal (@length string)) in H1.
  rewrite length_map, Hlen, length_firstn in H1. lia.
Qed.

Lemma attribution_keeps_words_witness :
  exists a,
    write_json_and_transcript example_turns example_words example_word_ts
      example_spaces unit_params = Ok a
    /\ spoken_words a = ["hi"; "there"]%string.
Proof.
  assert (H : exists a,
             write_json_and_transcript example_turns example_words example_word_ts
               example_spaces unit_params = Ok a)
    by (eexists; reflexivity).
  destruct H as [a Ha]. exists a. split; [exact Ha|].
  exact (proj1 (proj2 (attribution_keeps_words unit_params example_turns
                         example_words example_word_ts example_spaces a Ha))).
Defined.
